(** * linkx: stock-photo scraping engine and AI provider manager

    A shallow embedding of the backend core of the repository
    (core/base-scraper.ts, the eleven scrapers, core/scraper-engine.ts,
    middleware/validation.ts, ai/ai-provider.ts and the four provider
    adapters, and three POST handlers of routes/api.ts) together with the
    properties its specification states about it and further properties
    of the code.

    Conventions of the embedding:
    - a JavaScript string is the list of its UTF-16 code units ([jsstring]);
    - a regular expression literal is a term of [regex], executed by a
      backtracking matcher that lists match lengths in priority order;
    - code that throws, logs HTTP traffic or reads the clock runs in the
      monad [M] (section Effects); the web, the headless browser, the
      image server, the AI vendors, [JSON.parse] and the URL parser are
      the fields of [World];
    - the JavaScript numbers of the confidence heuristics are the
      binary64 floats of the kernel ([float]). *)

From Stdlib Require Import List NArith ZArith Bool String Ascii Lia Floats.
From Stdlib Require Import DecimalString.
Import ListNotations.
Set Warnings "-inexact-float".

Set Implicit Arguments.

(* ===================================================================== *)
(** * JavaScript strings *)
(* ===================================================================== *)

Module JS.

Definition code_unit := N.
Definition jsstring := list code_unit.

(** A literal of the source text, as code units. *)
Definition js (s : string) : jsstring :=
  List.map N_of_ascii (list_ascii_of_string s).
Arguments js s%_string.

Definition jsstring_eq_dec : forall a b : jsstring, {a = b} + {a <> b} :=
  list_eq_dec N.eq_dec.

Definition eqs (a b : jsstring) : bool :=
  if jsstring_eq_dec a b then true else false.

(** Truthiness of a string: [!s] holds exactly for the empty string. *)
Definition truthy (s : jsstring) : bool :=
  match s with [] => false | _ :: _ => true end.

Local Open Scope N_scope.

Definition between (lo hi c : N) : bool := (lo <=? c) && (c <=? hi).

(** [\s], which is also the set [String.prototype.trim] strips: WhiteSpace
    and LineTerminator of ECMAScript. *)
Definition is_space (c : code_unit) : bool :=
  between 9 13 c || (c =? 32) || (c =? 160) || (c =? 5760)
  || between 8192 8202 c || (c =? 8232) || (c =? 8233) || (c =? 8239)
  || (c =? 8287) || (c =? 12288) || (c =? 65279).

Definition is_digit (c : code_unit) : bool := between 48 57 c.

(** [\w] is [[A-Za-z0-9_]]; [\W] is its complement. *)
Definition is_word (c : code_unit) : bool :=
  between 97 122 c || between 65 90 c || is_digit c || (c =? 95).

Definition SPACE : code_unit := 32.
Definition DQUOTE : code_unit := 34.

(** [s] between double quotes. *)
Definition quoted (s : jsstring) : jsstring := DQUOTE :: s ++ [DQUOTE].

Local Close Scope N_scope.

(** Length of the longest prefix whose code units satisfy [p]. *)
Fixpoint span_len (p : code_unit -> bool) (s : jsstring) : nat :=
  match s with
  | [] => 0
  | c :: s' => if p c then S (span_len p s') else 0
  end.

Fixpoint dropWhile (p : code_unit -> bool) (s : jsstring) : jsstring :=
  match s with
  | [] => []
  | c :: s' => if p c then dropWhile p s' else s
  end.

Definition trimStart (s : jsstring) : jsstring := dropWhile is_space s.
Definition trimEnd (s : jsstring) : jsstring := rev (dropWhile is_space (rev s)).
Definition trim (s : jsstring) : jsstring := trimEnd (trimStart s).

(** [Array.prototype.join]. *)
Fixpoint join (sep : jsstring) (l : list jsstring) : jsstring :=
  match l with
  | [] => []
  | [x] => x
  | x :: rest => x ++ sep ++ join sep rest
  end.

(** [Array.prototype.includes] on an array of strings. *)
Definition includes (l : list jsstring) (x : jsstring) : bool :=
  existsb (eqs x) l.

(** [String.prototype.startsWith] *)
Fixpoint starts_with (p s : jsstring) : bool :=
  match p, s with
  | [], _ => true
  | a :: p', b :: s' => (a =? b)%N && starts_with p' s'
  | _ :: _, [] => false
  end.

(** A [Map] (or the own properties of an object literal) with string
    keys, in insertion order; [get] is [Map.prototype.get]. *)
Fixpoint get {V} (m : list (jsstring * V)) (k : jsstring) : option V :=
  match m with
  | [] => None
  | (k', v) :: m' => if eqs k k' then Some v else get m' k
  end.

Definition keys {V} (m : list (jsstring * V)) : list jsstring := List.map fst m.

(** [s] occurs in [t] as a contiguous block. *)
Definition infix (s t : jsstring) : Prop :=
  exists pre post, t = pre ++ s ++ post.

End JS.
Import JS.

(* ===================================================================== *)
(** * Regular expressions *)
(* ===================================================================== *)

Module Regex.

Inductive charset :=
  | CSpace                        (* \s *)
  | CNonWord                      (* \W *)
  | CRanges (rs : list (N * N)).  (* [a-z0-9_] as inclusive ranges *)

Definition in_charset (cs : charset) (c : code_unit) : bool :=
  match cs with
  | CSpace => is_space c
  | CNonWord => negb (is_word c)
  | CRanges rs => existsb (fun r => between (fst r) (snd r) c) rs
  end.

(** The fragment of the pattern language the modelled code uses.
    Quantifiers occur only on character classes; they are greedy, but
    for the lazy [cs{min,}?]. *)
Inductive regex :=
  | Empty
  | Chr (c : code_unit)
  | Rep (cs : charset) (min : nat)     (* cs{min,} ; cs+ is Rep cs 1 *)
  | RepLazy (cs : charset) (min : nat) (* cs{min,}? ; cs*? is RepLazy cs 0 *)
  | Seq (r1 r2 : regex)
  | Alt (r1 r2 : regex)
  | Bol                                 (* ^ *)
  | Eol.                                (* dom *)

(** The literal [s] as a pattern. *)
Fixpoint lit (s : jsstring) : regex :=
  match s with
  | [] => Empty
  | c :: s' => Seq (Chr c) (lit s')
  end.

(** Canonicalize of a non-unicode, ignore-case pattern: ASCII letters fold
    to upper case; a code unit above 127 never folds onto an ASCII one, so
    against the ASCII patterns of this program it is left alone. *)
Definition canonicalize (c : code_unit) : code_unit :=
  if between 97 122 c then (c - 32)%N else c.

Definition chr_match (ignoreCase : bool) (p c : code_unit) : bool :=
  if ignoreCase then (canonicalize p =? canonicalize c)%N else (p =? c)%N.

(** [n; n-1; ...; min], empty when [n < min]. *)
Fixpoint downto (n min : nat) : list nat :=
  if (n <? min)%nat then []
  else n :: match n with 0%nat => [] | S n' => downto n' min end.

Section Matcher.
Variable ignoreCase : bool.

(** [run r start s]: the lengths of the matches of [r] at the head of
    [s], in the order a backtracking matcher tries them; [start] tells
    whether the head of [s] is the beginning of the input. *)
Fixpoint run (r : regex) (start : bool) (s : jsstring) : list nat :=
  match r with
  | Empty => [0%nat]
  | Chr p =>
      match s with
      | c :: _ => if chr_match ignoreCase p c then [1%nat] else []
      | [] => []
      end
  | Rep cs min => downto (span_len (in_charset cs) s) min
  | RepLazy cs min => rev (downto (span_len (in_charset cs) s) min)
  | Seq r1 r2 =>
      flat_map
        (fun k => List.map (Nat.add k)
                    (run r2 (start && (k =? 0)%nat) (skipn k s)))
        (run r1 start s)
  | Alt r1 r2 => run r1 start s ++ run r2 start s
  | Bol => if start then [0%nat] else []
  | Eol => match s with [] => [0%nat] | _ :: _ => [] end
  end.

(** Does [r] match somewhere at or after the head of [s]? *)
Fixpoint search (r : regex) (start : bool) (s : jsstring) : bool :=
  match run r start s with
  | _ :: _ => true
  | [] => match s with
          | [] => false
          | _ :: s' => search r false s'
          end
  end.

(** [RegExp.prototype.test] of a regex without the [g] flag. *)
Definition test (r : regex) (s : jsstring) : bool := search r true s.

(** [String.prototype.replace] with a [g]-flagged regex and a replacement
    text without [$] patterns. [skip] counts the code units of the
    current match still to be consumed. After an empty match the next
    code unit is copied and matching resumes behind it. *)
Fixpoint replace_go (r : regex) (repl : jsstring) (start : bool)
         (skip : nat) (s : jsstring) {struct s} : jsstring :=
  match skip with
  | S k =>
      match s with
      | [] => []
      | _ :: s' => replace_go r repl false k s'
      end
  | 0%nat =>
      match run r start s with
      | [] =>
          match s with
          | [] => []
          | c :: s' => c :: replace_go r repl false 0 s'
          end
      | 0%nat :: _ =>
          repl ++ match s with
                  | [] => []
                  | c :: s' => c :: replace_go r repl false 0 s'
                  end
      | S k :: _ =>
          repl ++ match s with
                  | [] => []
                  | _ :: s' => replace_go r repl false k s'
                  end
      end
  end.

Definition replace_all (r : regex) (repl : jsstring) (s : jsstring) : jsstring :=
  replace_go r repl true 0 s.

End Matcher.

End Regex.
Import Regex.


(* ===================================================================== *)
(** * interfaces/types.ts *)
(* ===================================================================== *)

Module Types.

(** [ImageMetadata]. The optional [dimensions] and [fileSize] are never
    written by the backend and are left out. [scrapedAt] is the reading of
    the clock at extraction. *)
Record ImageMetadata := {
  title : jsstring;
  description : jsstring;
  tags : list jsstring;
  imageUrl : jsstring;
  imageBase64 : option jsstring;
  category : jsstring;
  stockId : option jsstring;
  platform : jsstring;
  scrapedAt : Z
}.

Definition set_imageBase64 (m : ImageMetadata) (b : jsstring) : ImageMetadata :=
  {| title := title m; description := description m; tags := tags m;
     imageUrl := imageUrl m; imageBase64 := Some b; category := category m;
     stockId := stockId m; platform := platform m; scrapedAt := scrapedAt m |}.

Record ScrapingResult := {
  success : bool;
  data : option ImageMetadata;
  error : option jsstring;
  processingTime : Z
}.

Record Selectors := {
  sel_title : list jsstring;
  sel_description : list jsstring;
  sel_image : list jsstring;
  sel_tags : list jsstring;
  sel_category : option (list jsstring);
  sel_stockId : option (list jsstring)
}.

Record PlatformInfo := {
  name : jsstring;
  domain : jsstring;
  id : jsstring;
  requiresJS : bool;
  selectors : Selectors
}.

End Types.

(* ===================================================================== *)
(** * The parsed document (cheerio) *)
(* ===================================================================== *)

Module Dom.

(** An element as the extraction code sees it: its attributes, its text
    content (descendants included) and the markup inside it. *)
Record Element := {
  attrs : list (jsstring * jsstring);
  textContent : jsstring;
  innerHTML : jsstring
}.

(** [cheerio.Root]: a selector yields the matched elements in document
    order. *)
Definition Root := jsstring -> list Element.

(** [.attr(name)]: the attribute of the first matched element. *)
Definition attr (sel : list Element) (name : jsstring) : option jsstring :=
  match sel with
  | [] => None
  | e :: _ => get (attrs e) name
  end.

(** [.text()]: the combined text of all matched elements. *)
Definition text (sel : list Element) : jsstring :=
  List.concat (List.map textContent sel).

(** [.html()]: the markup inside the first matched element, [null] when
    nothing is matched. *)
Definition html (sel : list Element) : option jsstring :=
  match sel with
  | [] => None
  | e :: _ => Some (innerHTML e)
  end.

End Dom.

(* ===================================================================== *)
(** * core/base-scraper.ts *)
(* ===================================================================== *)

Module PlatformScraper.
Import Types Dom.

(** [a || b] where [a] may be undefined: the first truthy operand. *)
Definition or_else (a : option jsstring) (b : jsstring) : jsstring :=
  match a with
  | Some v => if truthy v then v else b
  | None => b
  end.

(** What one selector contributes in [extractWithSelectors]. *)
Definition selectorContent (dom : Root) (selector : jsstring) : jsstring :=
  let element := dom selector in
  if (0 <? List.length element)%nat
  then or_else (attr element (js "content")) (trim (text element))
  else [].

Fixpoint extractWithSelectors (dom : Root) (selectors : list jsstring) : jsstring :=
  match selectors with
  | [] => []
  | selector :: rest =>
      let element := dom selector in
      if (0 <? List.length element)%nat then
        let content := or_else (attr element (js "content")) (trim (text element)) in
        if truthy content then content else extractWithSelectors dom rest
      else extractWithSelectors dom rest
  end.

(** The body of the [.each] callback. *)
Definition pushTag (results : list jsstring) (el : Element) : list jsstring :=
  let text := trim (textContent el) in
  if truthy text && negb (includes results text)
  then results ++ [text]
  else results.

Definition extractArrayWithSelectors (dom : Root) (selectors : list jsstring)
  : list jsstring :=
  fold_left (fun results selector => fold_left pushTag (dom selector) results)
            selectors [].

(** [/\s+/g] *)
Definition re_spaces : regex := Rep CSpace 1.

(** [/^\W+|\W+$/g] *)
Definition re_edges : regex :=
  Alt (Seq Bol (Rep CNonWord 1)) (Seq (Rep CNonWord 1) Eol).

Definition cleanText (text : jsstring) : jsstring :=
  trim (replace_all false re_edges []
          (replace_all false re_spaces [SPACE] text)).

Section Generic.
(** The URL pattern table of [extractStockId] takes no part in the
    properties below and stays a parameter. *)
Variable extractStockId : jsstring -> jsstring.
Variable platformInfo : PlatformInfo.

(** The [tags] field computed by [extractGenericMetadata]. *)
Definition genericTags (dom : Root) : list jsstring :=
  filter (fun tag => (0 <? List.length tag)%nat)
         (List.map cleanText
            (extractArrayWithSelectors dom (sel_tags (selectors platformInfo)))).

(** [extractGenericMetadata] once the page is fetched and parsed into
    [dom]; [now] is [new Date()]. *)
Definition extractGenericMetadata (dom : Root) (url : jsstring) (now : Z)
  : ImageMetadata :=
  let sels := selectors platformInfo in
  {| title := cleanText (extractWithSelectors dom (sel_title sels));
     description := cleanText (extractWithSelectors dom (sel_description sels));
     tags := genericTags dom;
     imageUrl := extractWithSelectors dom (sel_image sels);
     imageBase64 := None;
     category :=
       match sel_category sels with
       | Some cs => cleanText (extractWithSelectors dom cs)
       | None => []
       end;
     stockId :=
       Some match sel_stockId sels with
            | Some ss =>
                let found := extractWithSelectors dom ss in
                if truthy found then found else extractStockId url
            | None => extractStockId url
            end;
     platform := id platformInfo;
     scrapedAt := now |}.
End Generic.

End PlatformScraper.

(* ===================================================================== *)
(** * JavaScript numbers *)
(* ===================================================================== *)

Module JSNumber.
Local Open Scope float_scope.

(** [Math.max]: NaN if an operand is; of two zeros the positive one. *)
Definition Math_max (x y : float) : float :=
  if PrimFloat.is_nan x || PrimFloat.is_nan y then nan
  else if x <? y then y
  else if y <? x then x
  else if get_sign x then y else x.

(** [Math.min]: NaN if an operand is; of two zeros the negative one. *)
Definition Math_min (x y : float) : float :=
  if PrimFloat.is_nan x || PrimFloat.is_nan y then nan
  else if x <? y then x
  else if y <? x then y
  else if get_sign x then x else y.

End JSNumber.

(* ===================================================================== *)
(** * Vendor response bodies, as the adapters read them *)
(* ===================================================================== *)

(** Chat-completions body of the OpenAI API. *)
Module OpenAIData.
Record Message := { content : option jsstring }.
Record Choice := { message : option Message; finish_reason : option jsstring }.
Record Data := { choices : option (list Choice) }.
End OpenAIData.

(** generateContent body of the Gemini API. *)
Module GeminiData.
Record Part := { text : option jsstring }.
Record Content := { parts : option (list Part) }.
Record SafetyRating := { probability : option jsstring }.
Record Candidate := {
  content : option Content;
  finishReason : option jsstring;
  safetyRatings : option (list SafetyRating)
}.
Record Data := { candidates : option (list Candidate) }.
End GeminiData.

(** Messages body of the Anthropic API. *)
Module ClaudeData.
Record Block := { type : option jsstring; text : option jsstring }.
Record Usage := { input_tokens : option Z; output_tokens : option Z }.
Record Data := {
  content : option (list Block);
  stop_reason : option jsstring;
  usage : option Usage
}.
End ClaudeData.

(* ===================================================================== *)
(** * Effects: exceptions, the network, the clock *)
(* ===================================================================== *)

Module Effects.
Import Types.

(** A string or a number, for fields typed [any]. *)
Inductive jsval :=
  | VUndefined
  | VStr (s : jsstring)
  | VNum (n : Z).

(** The [error] object of a vendor's error body. *)
Record VendorError := {
  err_code : jsval;
  err_type : option jsstring;
  err_message : option jsstring
}.

(** [error.response.data] *)
Record ErrorBody := { body_error : option VendorError }.

(** [error.response] of a rejected axios call. *)
Record ErrorResponse := { resp_status : Z; resp_data : option ErrorBody }.

(** Thrown values: [Error] objects (TypeError included) and axios errors. *)
Inductive exn :=
  | Error (message : jsstring)
  | AxiosError (message : jsstring) (response : option ErrorResponse).

Definition exn_message (e : exn) : jsstring :=
  match e with Error m => m | AxiosError m _ => m end.

Definition exn_response (e : exn) : option ErrorResponse :=
  match e with Error _ => None | AxiosError _ r => r end.

Inductive completion (A : Type) :=
  | Normal (a : A)
  | Throw (e : exn).
Arguments Normal {A} a.
Arguments Throw {A} e.

(** Outcome of an axios call: the response body, if any, or a rejection. *)
Inductive AxiosResult (D : Type) :=
  | Resolved (data : option D)
  | Rejected (message : jsstring) (response : option ErrorResponse).
Arguments Resolved {D} data.
Arguments Rejected {D} message response.

(** Outcome of fetching an image: a failed GET, or a body of
    [contentLength] bytes together with what the sharp pipeline makes of
    it (the base64 JPEG, or its failure). *)
Inductive ImageFetch :=
  | GetFailed (message : jsstring)
  | GetBody (contentLength : N) (processed : completion jsstring).

(** Outcome of [axios.get(url)] followed by [cheerio.load]: the failure
    of the GET, or the parsed page. *)
Inductive PageFetch :=
  | PageFailed (message : jsstring)
  | PageLoaded (dom : Dom.Root).

(** Outcome of opening a page in the headless browser: [initBrowser]
    throws, [page.goto] rejects, [page.evaluate] rejects, or the page is
    there for the script to read. *)
Inductive BrowserFetch :=
  | LaunchFailed (message : jsstring)
  | NavigationFailed (message : jsstring)
  | EvaluateFailed (message : jsstring)
  | Rendered (document : Dom.Root).

(** The value of [JSON.parse] on a JSON-LD block, by the properties the
    scrapers read: [@type], [keywords] when it is an array (of strings),
    and string-valued [name] and [description]. *)
Record JsonLd := {
  ld_type : option jsstring;
  ld_keywords : option (list jsstring);
  ld_name : option jsstring;
  ld_description : option jsstring
}.

(** An outgoing HTTP request, by target and credential; payloads are not
    recorded. *)
Record HttpCall := { url : jsstring; credential : jsstring }.

(** Everything a run depends on outside the program. The page and
    vendor oracles see how many requests went out before. [jsonParse] is
    [JSON.parse]: [None] when it throws or yields [null]. *)
Record World := {
  clock : nat -> Z;
  urlProtocol : jsstring -> option jsstring;
  pageGet : nat -> jsstring -> PageFetch;
  browse : jsstring -> BrowserFetch;
  jsonParse : jsstring -> option JsonLd;
  imageGet : jsstring -> ImageFetch;
  openaiChat : nat -> HttpCall -> AxiosResult OpenAIData.Data;
  geminiGenerate : nat -> HttpCall -> AxiosResult GeminiData.Data;
  claudeMessages : nat -> HttpCall -> AxiosResult ClaudeData.Data
}.

Record State := { calls : list HttpCall; ticks : nat }.

Definition initial : State := {| calls := []; ticks := 0 |}.

Definition M (A : Type) : Type := World -> State -> completion A * State.

Definition ret {A} (a : A) : M A := fun _ s => (Normal a, s).

Definition bind {A B} (c : M A) (k : A -> M B) : M B :=
  fun w s =>
    match c w s with
    | (Normal a, s') => k a w s'
    | (Throw e, s') => (Throw e, s')
    end.

Definition throw {A} (e : exn) : M A := fun _ s => (Throw e, s).

Definition lift {A} (c : completion A) : M A := fun _ s => (c, s).

Definition try_catch {A} (c : M A) (handler : exn -> M A) : M A :=
  fun w s =>
    match c w s with
    | (Normal a, s') => (Normal a, s')
    | (Throw e, s') => handler e w s'
    end.

(** The state after one more reading of the clock. *)
Definition tick (s : State) : State :=
  {| calls := calls s; ticks := S (ticks s) |}.

(** The state after [call] went out. *)
Definition sent (call : HttpCall) (s : State) : State :=
  {| calls := calls s ++ [call]; ticks := ticks s |}.

(** [Date.now()] *)
Definition now : M Z := fun w s => (Normal (clock w (ticks s)), tick s).

Definition ask : M World := fun w s => (Normal w, s).

(** Send [call] and consult [oracle]. *)
Definition request {D} (oracle : World -> nat -> HttpCall -> AxiosResult D)
           (call : HttpCall) : M (option D) :=
  fun w s =>
    match oracle w (List.length (calls s)) call with
    | Resolved d => (Normal d, sent call s)
    | Rejected m r => (Throw (AxiosError m r), sent call s)
    end.

Module Notations.
Notation "x <- c ;; k" := (bind c (fun x => k))
  (at level 61, c at next level, right associativity).
End Notations.

End Effects.

(* ===================================================================== *)
(** * Regular expressions: the first match *)
(* ===================================================================== *)

Module RegexExec.

(** The first answer of [f] along [l]. *)
Fixpoint first_some {A B} (f : A -> option B) (l : list A) : option B :=
  match l with
  | [] => None
  | a :: l' => match f a with Some b => Some b | None => first_some f l' end
  end.

(** A pattern with one capturing group, [pre(cap)post]. *)
Record Captured := { pre : regex; cap : regex; post : regex }.

(** The pattern without its parentheses. *)
Definition whole (p : Captured) : regex := Seq (pre p) (Seq (cap p) (post p)).

Section Exec.
Variable ignoreCase : bool.

(** The text of the group in the match of [pre(cap)post] at the head of
    [s] that a backtracking matcher reaches first. *)
Definition capture_here (p : Captured) (start : bool) (s : jsstring)
  : option jsstring :=
  first_some
    (fun k1 =>
       first_some
         (fun k2 =>
            match run ignoreCase (post p) (start && (k1 =? 0)%nat && (k2 =? 0)%nat)
                      (skipn k2 (skipn k1 s)) with
            | _ :: _ => Some (firstn k2 (skipn k1 s))
            | [] => None
            end)
         (run ignoreCase (cap p) (start && (k1 =? 0)%nat) (skipn k1 s)))
    (run ignoreCase (pre p) start s).

(** [s.match(p)] of a regex without the [g] flag, read at index 1: the
    group of the leftmost match, [None] when there is no match. *)
Fixpoint capture (p : Captured) (start : bool) (s : jsstring)
  : option jsstring :=
  match capture_here p start s with
  | Some c => Some c
  | None => match s with
            | [] => None
            | _ :: s' => capture p false s'
            end
  end.

(** [String.prototype.replace] with a regex without the [g] flag and a
    replacement text without [$] patterns: the leftmost match is
    replaced, the rest of the text is kept. *)
Fixpoint replace_first (r : regex) (repl : jsstring) (start : bool)
         (s : jsstring) : jsstring :=
  match run ignoreCase r start s with
  | k :: _ => repl ++ skipn k s
  | [] => match s with
          | [] => []
          | c :: s' => c :: replace_first r repl false s'
          end
  end.

End Exec.

End RegexExec.

(* ===================================================================== *)
(** * core/base-scraper.ts: the stock id of a URL *)
(* ===================================================================== *)

Module StockId.
Import RegexExec.

(** [\d] *)
Definition digit : charset := CRanges [(48, 57)]%N.

(** A class of two code units, as the alternation of its members. *)
Definition either (a b : code_unit) : regex := Alt (Chr a) (Chr b).

Definition patterns : list Captured :=
  [ (* /\/(\d+)(?:\?|$|\/)/ *)
    {| pre := Chr 47%N; cap := Rep digit 1;
       post := Alt (Chr 63%N) (Alt Eol (Chr 47%N)) |};
    (* /image-(\d+)/ *)
    {| pre := lit (js "image-"); cap := Rep digit 1; post := Empty |};
    (* /photo-(\d+)/ *)
    {| pre := lit (js "photo-"); cap := Rep digit 1; post := Empty |};
    (* /id[=:](\d+)/ *)
    {| pre := Seq (lit (js "id")) (either 61%N 58%N);
       cap := Rep digit 1; post := Empty |};
    (* /stock[_-]?id[=:](\d+)/ *)
    {| pre := Seq (lit (js "stock"))
                  (Seq (Alt (either 95%N 45%N) Empty)
                       (Seq (lit (js "id")) (either 61%N 58%N)));
       cap := Rep digit 1; post := Empty |};
    (* /-(\d{6,})/ *)
    {| pre := Chr 45%N; cap := Rep digit 6; post := Empty |};
    (* /(\d{7,})/ *)
    {| pre := Empty; cap := Rep digit 7; post := Empty |} ].

(** The loop over [patterns]: group 1 of the first pattern that matches. *)
Definition extractStockId (url : jsstring) : jsstring :=
  match first_some (fun p => capture false p true url) patterns with
  | Some id => id
  | None => []
  end.

End StockId.

(* ===================================================================== *)
(** * core/base-scraper.ts: fetching and extracting a page *)
(* ===================================================================== *)

Module BaseScraper.
Import Types Dom Effects Effects.Notations RegexExec.

Definition pageCall (url : jsstring) : HttpCall :=
  {| Effects.url := url; credential := [] |}.

(** [fetchHTML], with the parsing that follows it at every call site. *)
Definition fetchHTML (url : jsstring) : M Root :=
  fun w s =>
    match pageGet w (List.length (calls s)) url with
    | PageFailed m =>
        (Throw (Error (js "Failed to fetch HTML: " ++ m)), sent (pageCall url) s)
    | PageLoaded dom => (Normal dom, sent (pageCall url) s)
    end.

(** [extractGenericMetadata(url)] of a scraper with the given
    [platformInfo]. *)
Definition extractGenericMetadata (platformInfo : PlatformInfo) (url : jsstring)
  : M ImageMetadata :=
  dom <- fetchHTML url ;;
  scraped <- now ;;
  ret (PlatformScraper.extractGenericMetadata StockId.extractStockId platformInfo
         dom url scraped).

(** [initBrowser], [page.goto(url)] and [page.evaluate] of a scraper
    that renders the page: the document the in-page script reads. Of the
    traffic of the browser only the navigation is logged. Closing the
    page and the browser afterwards never throws. *)
Definition render (url : jsstring) : M Root :=
  fun w s =>
    match browse w url with
    | LaunchFailed m =>
        (Throw (Error (js "Browser initialization failed: " ++ m)), s)
    | NavigationFailed m => (Throw (Error m), sent (pageCall url) s)
    | EvaluateFailed m => (Throw (Error m), sent (pageCall url) s)
    | Rendered document => (Normal document, sent (pageCall url) s)
    end.

(** Assignments to the fields of the metadata object. *)
Definition set_title (m : ImageMetadata) (t : jsstring) : ImageMetadata :=
  {| title := t; description := description m; tags := tags m;
     imageUrl := imageUrl m; imageBase64 := imageBase64 m; category := category m;
     stockId := stockId m; platform := platform m; scrapedAt := scrapedAt m |}.

Definition set_description (m : ImageMetadata) (d : jsstring) : ImageMetadata :=
  {| title := title m; description := d; tags := tags m;
     imageUrl := imageUrl m; imageBase64 := imageBase64 m; category := category m;
     stockId := stockId m; platform := platform m; scrapedAt := scrapedAt m |}.

Definition set_tags (m : ImageMetadata) (ts : list jsstring) : ImageMetadata :=
  {| title := title m; description := description m; tags := ts;
     imageUrl := imageUrl m; imageBase64 := imageBase64 m; category := category m;
     stockId := stockId m; platform := platform m; scrapedAt := scrapedAt m |}.

Definition set_imageUrl (m : ImageMetadata) (u : jsstring) : ImageMetadata :=
  {| title := title m; description := description m; tags := tags m;
     imageUrl := u; imageBase64 := imageBase64 m; category := category m;
     stockId := stockId m; platform := platform m; scrapedAt := scrapedAt m |}.

Definition set_stockId (m : ImageMetadata) (i : jsstring) : ImageMetadata :=
  {| title := title m; description := description m; tags := tags m;
     imageUrl := imageUrl m; imageBase64 := imageBase64 m; category := category m;
     stockId := Some i; platform := platform m; scrapedAt := scrapedAt m |}.

(** The words of a brand name, [\s+] between them. *)
Fixpoint words (ws : list jsstring) : regex :=
  match ws with
  | [] => Empty
  | [word] => lit word
  | word :: rest => Seq (lit word) (Seq (Rep CSpace 1) (words rest))
  end.

(** [\s*] [sep] [\s*] brand [\s*$]: the branding at the end of a
    title, behind the separator [sep]. *)
Definition brandSuffix (sep : code_unit) (brand : list jsstring) : regex :=
  Seq (Rep CSpace 0)
      (Seq (Chr sep)
           (Seq (Rep CSpace 0) (Seq (words brand) (Seq (Rep CSpace 0) Eol)))).

(** [title.replace(pipe, '').replace(dash, '').trim()], both patterns
    with the [i] flag. *)
Definition strip (pipe dash : regex) (title : jsstring) : jsstring :=
  trim (replace_first true dash [] true (replace_first true pipe [] true title)).

(** The selector [tag[name="value"]]. *)
Definition attrSel (tag name value : string) : jsstring :=
  js tag ++ js "[" ++ js name ++ js "=" ++ quoted (js value) ++ js "]".
Arguments attrSel (tag name value)%_string.

(** [o === s] for a possibly undefined string [o]. *)
Definition isText (o : option jsstring) (s : jsstring) : bool :=
  match o with Some v => eqs v s | None => false end.

(** [a || b] of two possibly undefined strings. *)
Definition or_attr (a b : option jsstring) : option jsstring :=
  match a with
  | Some v => if truthy v then Some v else b
  | None => b
  end.

(** Truthiness of a possibly undefined string. *)
Definition present (a : option jsstring) : bool :=
  match a with Some v => truthy v | None => false end.

(** [String.prototype.includes] *)
Fixpoint includesText (s part : jsstring) : bool :=
  starts_with part s
  || match s with [] => false | _ :: s' => includesText s' part end.

(** [[...new Set(items)]]: the first occurrences, in order. *)
Definition distinct (items : list jsstring) : list jsstring :=
  fold_left (fun seen item => if includes seen item then seen else seen ++ [item])
            items [].

(** [/\/\d+x\d+\//] *)
Definition re_size : regex :=
  Seq (Chr 47%N)
      (Seq (Rep StockId.digit 1)
           (Seq (Chr 120%N) (Seq (Rep StockId.digit 1) (Chr 47%N)))).

End BaseScraper.

(* ===================================================================== *)
(** * scrapers/mock-scraper.ts *)
(* ===================================================================== *)

Module MockScraper.
Import Types Effects Effects.Notations.

Definition platformInfo : PlatformInfo :=
  {| name := js "Mock Platform";
     domain := js "example.com";
     id := js "mock";
     requiresJS := false;
     selectors :=
       {| sel_title := [js "title"];
          sel_description := [js "meta[name=" ++ quoted (js "description") ++ js "]"];
          sel_image := [js "meta[property=" ++ quoted (js "og:image") ++ js "]"];
          sel_tags := [];
          sel_category := Some [];
          sel_stockId := None |} |}.

Definition mockImage : jsstring :=
  js "data:image/jpeg;base64,/9j/4AAQSkZJRgABAQEAYABgAAD/2wBDAAYEBQYFBAYGBQYHBwYIChAKCgkJChQODwwQFxQYGBcUFhYaHSUfGhsjHBYWICwgIyYnKSopGR8tMC0oMCUoKSj/2wBDAQcHBwoIChMKChMoGhYaKCgoKCgoKCgoKCgoKCgoKCgoKCgoKCgoKCgoKCgoKCgoKCgoKCgoKCgoKCgoKCgoKCj/wAARCAABAAEDASIAAhEBAxEB/8QAFQABAQAAAAAAAAAAAAAAAAAAAAv/xAAhEAACAQMDBQAAAAAAAAAAAAABAgMABAUGIWGRkqGx0f/EABUBAQEAAAAAAAAAAAAAAAAAAAMF/8QAGhEAAgIDAAAAAAAAAAAAAAAAAAECEgMRkf/aAAwDAQACEQMRAD8AoU6kinMYLl2UmMUQqjk2jrx3vOPFRDKnIjnJbKFJC+gYj6CRcq8zPJGSZSx+YHjKmRwmcFbWzJqbNzGOa0Dn4TT8TGNrVEa8vJUpppPxXJGhJjMUYqQy2SSiWqVNIhZjK9NnZcZfxZKXGDGGdlQySSKDNnZSaKNJQqIRQ+t".

(** The simulated delay is not modelled. *)
Definition extractMetadata (url : jsstring) : M ImageMetadata :=
  scraped <- now ;;
  ret {| title := js "Mock Stock Photo Title";
         description := js "A beautiful mock stock photo for testing purposes";
         tags := [js "test"; js "mock"; js "stock"; js "photo"];
         imageUrl := js "https://via.placeholder.com/800x600.jpg";
         imageBase64 := Some mockImage;
         category := js "Testing";
         stockId := Some (js "mock-123456");
         platform := id platformInfo;
         scrapedAt := scraped |}.

End MockScraper.

(* ===================================================================== *)
(** * scrapers/iconscout-scraper.ts: the selector table *)
(* ===================================================================== *)

Module IconscoutScraper.
Import Types.

(** This scraper takes its tags from [extractGenericMetadata] as they
    are. *)
Definition platformInfo : PlatformInfo :=
  {| name := js "Iconscout";
     domain := js "iconscout.com";
     id := js "iconscout";
     requiresJS := false;
     selectors :=
       {| sel_title := [ js "h1";
                         js "meta[property=" ++ quoted (js "og:title") ++ js "]";
                         js ".asset-title";
                         js "title" ];
          sel_description := [ js "meta[name=" ++ quoted (js "description") ++ js "]";
                               js "meta[property=" ++ quoted (js "og:description") ++ js "]" ];
          sel_image := [ js "meta[property=" ++ quoted (js "og:image") ++ js "]";
                         js ".preview-image img";
                         js ".asset-preview img";
                         js ".main-preview img" ];
          sel_tags := [ js ".tag-list .tag"; js ".keyword"; js ".tag" ];
          sel_category := Some [ js ".breadcrumb a:last-child";
                                 js ".category-breadcrumb .category:last-child" ];
          sel_stockId := None |} |}.

End IconscoutScraper.

(* ===================================================================== *)
(** * scrapers/iconscout-scraper.ts: extractMetadata *)
(* ===================================================================== *)

Module IconscoutExtract.
Import Types Effects Effects.Notations RegexExec BaseScraper.

(** [/\s*\|\s*Iconscout\s*$/i] *)
Definition re_pipe_brand : regex :=
  Seq (Rep CSpace 0)
      (Seq (Chr 124%N)
           (Seq (Rep CSpace 0) (Seq (lit (js "Iconscout")) (Seq (Rep CSpace 0) Eol)))).

(** [/\s*-\s*Iconscout\s*$/i] *)
Definition re_dash_brand : regex :=
  Seq (Rep CSpace 0)
      (Seq (Chr 45%N)
           (Seq (Rep CSpace 0) (Seq (lit (js "Iconscout")) (Seq (Rep CSpace 0) Eol)))).

(** The title without the site's branding. *)
Definition unbrand (title : jsstring) : jsstring :=
  trim (replace_first true re_dash_brand [] true
          (replace_first true re_pipe_brand [] true title)).

Definition extractMetadata (url : jsstring) : M ImageMetadata :=
  try_catch
    (metadata <- extractGenericMetadata IconscoutScraper.platformInfo url ;;
     if truthy (title metadata)
     then ret (set_title metadata (unbrand (title metadata)))
     else ret metadata)
    (fun error =>
       throw (Error (js "Failed to scrape Iconscout: " ++ exn_message error))).

End IconscoutExtract.

(* ===================================================================== *)
(** * The scrapers built on extractGenericMetadata alone *)
(* ===================================================================== *)

(** scrapers/arabstock-scraper.ts *)
Module ArabstockScraper.
Import Types Effects Effects.Notations BaseScraper.

Definition platformInfo : PlatformInfo :=
  {| name := js "Arabstock";
     domain := js "arabstock.com";
     id := js "arabstock";
     requiresJS := false;
     selectors :=
       {| sel_title := [ js "h1"; attrSel "meta" "property" "og:title";
                         js ".image-title"; js "title" ];
          sel_description := [ attrSel "meta" "name" "description";
                               attrSel "meta" "property" "og:description" ];
          sel_image := [ attrSel "meta" "property" "og:image";
                         js ".preview-image img"; js ".main-image img" ];
          sel_tags := [ js ".keywords .keyword"; js ".tag-list .tag"; js ".tag" ];
          sel_category := Some [ js ".breadcrumb a:last-child" ];
          sel_stockId := None |} |}.

(** [/\s*\|\s*Arabstock\s*$/i] *)
Definition re_pipe_brand : regex := brandSuffix 124%N [js "Arabstock"].

(** [/\s*-\s*Arabstock\s*$/i] *)
Definition re_dash_brand : regex := brandSuffix 45%N [js "Arabstock"].

Definition extractMetadata (url : jsstring) : M ImageMetadata :=
  try_catch
    (metadata <- extractGenericMetadata platformInfo url ;;
     if truthy (title metadata)
     then ret (set_title metadata (strip re_pipe_brand re_dash_brand (title metadata)))
     else ret metadata)
    (fun error =>
       throw (Error (js "Failed to scrape Arabstock: " ++ exn_message error))).

End ArabstockScraper.

(** scrapers/dreamstime-scraper.ts *)
Module DreamstimeScraper.
Import Types Effects Effects.Notations BaseScraper.

Definition platformInfo : PlatformInfo :=
  {| name := js "Dreamstime";
     domain := js "dreamstime.com";
     id := js "dreamstime";
     requiresJS := false;
     selectors :=
       {| sel_title := [ js "h1"; attrSel "meta" "property" "og:title";
                         js ".image-title"; js "title" ];
          sel_description := [ attrSel "meta" "name" "description";
                               attrSel "meta" "property" "og:description";
                               js ".image-description" ];
          sel_image := [ attrSel "meta" "property" "og:image";
                         js ".preview-image img"; js ".main-image img";
                         js "#preview-image" ];
          sel_tags := [ js ".keywords a"; js ".tag"; js ".keyword-link" ];
          sel_category := Some [ js ".breadcrumb a:last-child";
                                 js ".category:last-child" ];
          sel_stockId := None |} |}.

(** [/\s*\|\s*Dreamstime\s*$/i] *)
Definition re_pipe_brand : regex := brandSuffix 124%N [js "Dreamstime"].

(** [/\s*-\s*Dreamstime\s*$/i] *)
Definition re_dash_brand : regex := brandSuffix 45%N [js "Dreamstime"].

Definition extractMetadata (url : jsstring) : M ImageMetadata :=
  try_catch
    (metadata <- extractGenericMetadata platformInfo url ;;
     if truthy (title metadata)
     then ret (set_title metadata (strip re_pipe_brand re_dash_brand (title metadata)))
     else ret metadata)
    (fun error =>
       throw (Error (js "Failed to scrape Dreamstime: " ++ exn_message error))).

End DreamstimeScraper.

(** scrapers/getty-images-scraper.ts *)
Module GettyImagesScraper.
Import Types Effects Effects.Notations BaseScraper.

Definition platformInfo : PlatformInfo :=
  {| name := js "Getty Images";
     domain := js "gettyimages.com";
     id := js "getty-images";
     requiresJS := false;
     selectors :=
       {| sel_title := [ attrSel "h1" "data-testid" "asset-title"; js "h1";
                         attrSel "meta" "property" "og:title";
                         js ".asset-title"; js "title" ];
          sel_description := [ attrSel "meta" "name" "description";
                               attrSel "meta" "property" "og:description";
                               js ".asset-caption" ];
          sel_image := [ attrSel "meta" "property" "og:image";
                         js ".gallery-asset__thumb img";
                         js ".asset-preview img"; js ".preview-image img" ];
          sel_tags := [ js ".keyword-list .keyword"; js ".tag"; js ".keyword-tag";
                        js ".asset-keywords .keyword" ];
          sel_category := Some [ js ".breadcrumb a:last-child";
                                 js ".category-link:last-child" ];
          sel_stockId := None |} |}.

(** [/\s*\|\s*Getty\s+Images\s*$/i] *)
Definition re_pipe_brand : regex := brandSuffix 124%N [js "Getty"; js "Images"].

(** [/\s*-\s*Getty\s+Images\s*$/i] *)
Definition re_dash_brand : regex := brandSuffix 45%N [js "Getty"; js "Images"].

Definition extractMetadata (url : jsstring) : M ImageMetadata :=
  try_catch
    (metadata <- extractGenericMetadata platformInfo url ;;
     if truthy (title metadata)
     then ret (set_title metadata (strip re_pipe_brand re_dash_brand (title metadata)))
     else ret metadata)
    (fun error =>
       throw (Error (js "Failed to scrape Getty Images: " ++ exn_message error))).

End GettyImagesScraper.

(** scrapers/pond5-scraper.ts *)
Module Pond5Scraper.
Import Types Effects Effects.Notations BaseScraper.

Definition platformInfo : PlatformInfo :=
  {| name := js "Pond5";
     domain := js "pond5.com";
     id := js "pond5";
     requiresJS := false;
     selectors :=
       {| sel_title := [ js "h1"; attrSel "meta" "property" "og:title";
                         js ".title"; js "title" ];
          sel_description := [ attrSel "meta" "name" "description";
                               attrSel "meta" "property" "og:description";
                               js ".description" ];
          sel_image := [ attrSel "meta" "property" "og:image";
                         js ".preview img"; js ".thumbnail img" ];
          sel_tags := [ js ".keywords .keyword"; js ".tag";
                        js ".keyword-list .keyword" ];
          sel_category := Some [ js ".breadcrumb a:last-child" ];
          sel_stockId := None |} |}.

(** [/\s*\|\s*Pond5\s*$/i] *)
Definition re_pipe_brand : regex := brandSuffix 124%N [js "Pond5"].

(** [/\s*-\s*Pond5\s*$/i] *)
Definition re_dash_brand : regex := brandSuffix 45%N [js "Pond5"].

Definition extractMetadata (url : jsstring) : M ImageMetadata :=
  try_catch
    (metadata <- extractGenericMetadata platformInfo url ;;
     if truthy (title metadata)
     then ret (set_title metadata (strip re_pipe_brand re_dash_brand (title metadata)))
     else ret metadata)
    (fun error =>
       throw (Error (js "Failed to scrape Pond5: " ++ exn_message error))).

End Pond5Scraper.

(** scrapers/vecteezy-scraper.ts *)
Module VecteezyScraper.
Import Types Effects Effects.Notations BaseScraper.

Definition platformInfo : PlatformInfo :=
  {| name := js "Vecteezy";
     domain := js "vecteezy.com";
     id := js "vecteezy";
     requiresJS := false;
     selectors :=
       {| sel_title := [ js "h1"; attrSel "meta" "property" "og:title";
                         js ".asset-title"; js "title" ];
          sel_description := [ attrSel "meta" "name" "description";
                               attrSel "meta" "property" "og:description" ];
          sel_image := [ attrSel "meta" "property" "og:image";
                         js ".preview-image img"; js ".asset-image img" ];
          sel_tags := [ js ".tag-list .tag"; js ".keyword"; js ".tag" ];
          sel_category := Some [ js ".breadcrumb a:last-child" ];
          sel_stockId := None |} |}.

(** [/\s*\|\s*Vecteezy\s*$/i] *)
Definition re_pipe_brand : regex := brandSuffix 124%N [js "Vecteezy"].

(** [/\s*-\s*Vecteezy\s*$/i] *)
Definition re_dash_brand : regex := brandSuffix 45%N [js "Vecteezy"].

Definition extractMetadata (url : jsstring) : M ImageMetadata :=
  try_catch
    (metadata <- extractGenericMetadata platformInfo url ;;
     if truthy (title metadata)
     then ret (set_title metadata (strip re_pipe_brand re_dash_brand (title metadata)))
     else ret metadata)
    (fun error =>
       throw (Error (js "Failed to scrape Vecteezy: " ++ exn_message error))).

End VecteezyScraper.

(** scrapers/creative-fabrica-scraper.ts *)
Module CreativeFabricaScraper.
Import Types Effects Effects.Notations BaseScraper.

Definition platformInfo : PlatformInfo :=
  {| name := js "Creative Fabrica";
     domain := js "creativefabrica.com";
     id := js "creative-fabrica";
     requiresJS := false;
     selectors :=
       {| sel_title := [ js "h1"; attrSel "meta" "property" "og:title";
                         js ".product-title"; js "title" ];
          sel_description := [ attrSel "meta" "name" "description";
                               attrSel "meta" "property" "og:description";
                               js ".product-description" ];
          sel_image := [ attrSel "meta" "property" "og:image";
                         js ".product-image img"; js ".preview-image img" ];
          sel_tags := [ js ".tag-list .tag"; js ".keyword";
                        js ".product-tags .tag" ];
          sel_category := Some [ js ".breadcrumb a:last-child";
                                 js ".category-breadcrumb .category:last-child" ];
          sel_stockId := None |} |}.

(** [/\s*\|\s*Creative\s+Fabrica\s*$/i] *)
Definition re_pipe_brand : regex := brandSuffix 124%N [js "Creative"; js "Fabrica"].

(** [/\s*-\s*Creative\s+Fabrica\s*$/i] *)
Definition re_dash_brand : regex := brandSuffix 45%N [js "Creative"; js "Fabrica"].

Definition extractMetadata (url : jsstring) : M ImageMetadata :=
  try_catch
    (metadata <- extractGenericMetadata platformInfo url ;;
     if truthy (title metadata)
     then ret (set_title metadata (strip re_pipe_brand re_dash_brand (title metadata)))
     else ret metadata)
    (fun error =>
       throw (Error (js "Failed to scrape Creative Fabrica: " ++ exn_message error))).

End CreativeFabricaScraper.

(* ===================================================================== *)
(** * scrapers/shutterstock-scraper.ts *)
(* ===================================================================== *)

Module ShutterstockScraper.
Import Types Dom Effects Effects.Notations RegexExec BaseScraper.

Definition platformInfo : PlatformInfo :=
  {| name := js "Shutterstock";
     domain := js "shutterstock.com";
     id := js "shutterstock";
     requiresJS := false;
     selectors :=
       {| sel_title := [ attrSel "h1" "data-automation" "AssetTitle";
                         attrSel "h1" "data-testid" "asset-title";
                         js "h1"; attrSel "meta" "property" "og:title"; js "title" ];
          sel_description := [ attrSel "meta" "name" "description";
                               attrSel "meta" "property" "og:description";
                               attrSel "" "data-testid" "asset-description" ];
          sel_image := [ attrSel "meta" "property" "og:image";
                         attrSel "img" "data-automation" "mosaic-grid-cell-image";
                         attrSel "img" "data-testid" "asset-preview-image";
                         js ".mosaic-asset-preview img"; js ".preview-asset img" ];
          sel_tags := [ js ".MuiChip-label"; js ".keyword-tag";
                        attrSel "" "data-testid" "keyword";
                        js ".tag-list .tag"; js ".keywords-list .keyword" ];
          sel_category := Some [ js ".breadcrumb-item:last-child";
                                 js ".breadcrumb a:last-child";
                                 js ".category-breadcrumb .breadcrumb-link:last-child" ];
          sel_stockId := Some [ attrSel "" "data-testid" "asset-id";
                                js ".asset-id" ] |} |}.

(** [/\s*\|\s*Shutterstock\s*$/i] *)
Definition re_pipe_brand : regex := brandSuffix 124%N [js "Shutterstock"].

(** [/\s*-\s*Shutterstock\s*$/i] *)
Definition re_dash_brand : regex := brandSuffix 45%N [js "Shutterstock"].

(** [/w_\d+/] *)
Definition re_width : regex := Seq (lit (js "w_")) (Rep StockId.digit 1).

(** The title, from the [alt] text of the preview image when the page
    gave none. *)
Definition withAltTitle (dom : Root) (metadata : ImageMetadata) : ImageMetadata :=
  let imageAlt :=
    or_attr (attr (dom (attrSel "img" "data-testid" "asset-preview-image")) (js "alt"))
            (attr (dom (attrSel "img" "data-automation" "mosaic-grid-cell-image"))
                  (js "alt")) in
  match imageAlt with
  | Some alt =>
      if negb (truthy (title metadata)) && truthy alt
      then set_title metadata (PlatformScraper.cleanText alt)
      else metadata
  | None => metadata
  end.

(** The keywords of the first JSON-LD block; a block that does not parse
    is ignored. *)
Definition withKeywords (w : World) (dom : Root) (metadata : ImageMetadata)
  : ImageMetadata :=
  match html (dom (attrSel "script" "type" "application/ld+json")) with
  | Some jsonLd =>
      if truthy jsonLd then
        match jsonParse w jsonLd with
        | Some structured =>
            match ld_keywords structured with
            | Some keywords => set_tags metadata (distinct (tags metadata ++ keywords))
            | None => metadata
            end
        | None => metadata
        end
      else metadata
  | None => metadata
  end.

(** The preview image in its larger version, when its address can be
    rewritten. *)
Definition withLargerImage (dom : Root) (metadata : ImageMetadata) : ImageMetadata :=
  match attr (dom (attrSel "img" "data-testid" "asset-preview-image")) (js "src") with
  | Some previewImg =>
      if truthy previewImg && includesText previewImg (js "shutterstock.com") then
        let largerImage :=
          replace_first false re_width (js "w_1500") true
            (replace_first false re_size (js "/1500x1500/") true previewImg) in
        if negb (eqs largerImage previewImg)
        then set_imageUrl metadata largerImage
        else metadata
      else metadata
  | None => metadata
  end.

Definition extractMetadata (url : jsstring) : M ImageMetadata :=
  try_catch
    (metadata <- extractGenericMetadata platformInfo url ;;
     dom <- fetchHTML url ;;
     w <- ask ;;
     let metadata :=
       if truthy (title metadata)
       then set_title metadata (strip re_pipe_brand re_dash_brand (title metadata))
       else metadata in
     ret (withLargerImage dom (withKeywords w dom (withAltTitle dom metadata))))
    (fun error =>
       throw (Error (js "Failed to scrape Shutterstock: " ++ exn_message error))).

End ShutterstockScraper.

(* ===================================================================== *)
(** * scrapers/adobe-stock-scraper.ts *)
(* ===================================================================== *)

Module AdobeStockScraper.
Import Types Dom Effects Effects.Notations RegexExec BaseScraper.

Definition platformInfo : PlatformInfo :=
  {| name := js "Adobe Stock";
     domain := js "stock.adobe.com";
     id := js "adobe-stock";
     requiresJS := false;
     selectors :=
       {| sel_title := [ js "h1"; attrSel "meta" "property" "og:title";
                         js ".asset-title";
                         attrSel "" "data-testid" "asset-title"; js "title" ];
          sel_description := [ attrSel "meta" "property" "og:description";
                               attrSel "meta" "name" "description";
                               js ".asset-description" ];
          sel_image := [ attrSel "meta" "property" "og:image";
                         js ".preview-asset img"; js ".asset-preview img";
                         attrSel "" "data-testid" "asset-preview";
                         js ".thumbnail img" ];
          sel_tags := [ js ".search-keyword"; js ".keyword-link"; js ".tag";
                        js ".asset-keywords .keyword";
                        js ".keywords-list .keyword-item" ];
          sel_category := Some [ js ".breadcrumb-link:last-child";
                                 js ".breadcrumb a:last-child";
                                 js ".category-breadcrumb .breadcrumb-item:last-child" ];
          sel_stockId := Some [ js "[data-asset-id]"; js ".asset-id" ] |} |}.

(** [/\s*\|\s*Adobe\s+Stock\s*$/i] *)
Definition re_pipe_brand : regex := brandSuffix 124%N [js "Adobe"; js "Stock"].

(** [/\s*-\s*Adobe\s+Stock\s*$/i] *)
Definition re_dash_brand : regex := brandSuffix 45%N [js "Adobe"; js "Stock"].

(** [/\s*Adobe\s+Stock\s*-\s*/i] *)
Definition re_brand_dash : regex :=
  Seq (Rep CSpace 0)
      (Seq (words [js "Adobe"; js "Stock"])
           (Seq (Rep CSpace 0) (Seq (Chr 45%N) (Rep CSpace 0)))).

Definition unbrand (title : jsstring) : jsstring :=
  trim (replace_first true re_brand_dash [] true
          (replace_first true re_dash_brand [] true
             (replace_first true re_pipe_brand [] true title))).

(** The asset id, from the [data-asset-id] attribute or else from the
    URL. *)
Definition withAssetId (dom : Root) (url : jsstring) (metadata : ImageMetadata)
  : ImageMetadata :=
  let metadata :=
    match attr (dom (js "[data-asset-id]")) (js "data-asset-id") with
    | Some assetId => if truthy assetId then set_stockId metadata assetId else metadata
    | None => metadata
    end in
  if present (stockId metadata) then metadata
  else set_stockId metadata (StockId.extractStockId url).

Definition withLargerImage (dom : Root) (metadata : ImageMetadata) : ImageMetadata :=
  match or_attr (attr (dom (js ".preview-asset img")) (js "src"))
                (attr (dom (attrSel "meta" "property" "og:image")) (js "content")) with
  | Some previewImg =>
      if truthy previewImg && includesText previewImg (js "adobe.com") then
        let largerImage :=
          replace_first false re_size (js "/1000x1000/") true previewImg in
        if negb (eqs largerImage previewImg)
        then set_imageUrl metadata largerImage
        else metadata
      else metadata
  | None => metadata
  end.

(** What the scraper takes from one parsed JSON-LD block. *)
Definition readJsonLd (jsonData : JsonLd) (metadata : ImageMetadata) : ImageMetadata :=
  if isText (ld_type jsonData) (js "ImageObject")
     || isText (ld_type jsonData) (js "CreativeWork")
  then
    let metadata :=
      match ld_keywords jsonData with
      | Some keywords => set_tags metadata (distinct (tags metadata ++ keywords))
      | None => metadata
      end in
    let metadata :=
      match ld_name jsonData with
      | Some name =>
          if truthy name && negb (truthy (title metadata))
          then set_title metadata (PlatformScraper.cleanText name)
          else metadata
      | None => metadata
      end in
    match ld_description jsonData with
    | Some description =>
        if truthy description && negb (truthy (Types.description metadata))
        then set_description metadata (PlatformScraper.cleanText description)
        else metadata
    | None => metadata
    end
  else metadata.

Definition emptyObject : JsonLd :=
  {| ld_type := None; ld_keywords := None; ld_name := None; ld_description := None |}.

(** The body of the [.each] callback over the JSON-LD blocks; a block
    that does not parse is ignored. *)
Definition eachJsonLd (w : World) (metadata : ImageMetadata) (element : Element)
  : ImageMetadata :=
  let parsed :=
    if truthy (innerHTML element) then jsonParse w (innerHTML element)
    else Some emptyObject in
  match parsed with
  | Some jsonData => readJsonLd jsonData metadata
  | None => metadata
  end.

Definition extractMetadata (url : jsstring) : M ImageMetadata :=
  try_catch
    (metadata <- extractGenericMetadata platformInfo url ;;
     dom <- fetchHTML url ;;
     w <- ask ;;
     let metadata :=
       if truthy (title metadata)
       then set_title metadata (unbrand (title metadata))
       else metadata in
     let metadata := withLargerImage dom (withAssetId dom url metadata) in
     ret (fold_left (eachJsonLd w)
                    (dom (attrSel "script" "type" "application/ld+json"))
                    metadata))
    (fun error =>
       throw (Error (js "Failed to scrape Adobe Stock: " ++ exn_message error))).

End AdobeStockScraper.

(* ===================================================================== *)
(** * scrapers/freepik-scraper.ts *)
(* ===================================================================== *)

Module FreepikScraper.
Import Types Dom Effects Effects.Notations RegexExec BaseScraper.

Definition platformInfo : PlatformInfo :=
  {| name := js "Freepik";
     domain := js "freepik.com";
     id := js "freepik";
     requiresJS := true;
     selectors :=
       {| sel_title := [ js "h1"; attrSel "" "data-testid" "resource-title";
                         attrSel "meta" "property" "og:title";
                         js ".resource-title"; js "title" ];
          sel_description := [ attrSel "meta" "name" "description";
                               attrSel "meta" "property" "og:description";
                               js ".resource-description" ];
          sel_image := [ js ".preview-image img";
                         attrSel "" "data-testid" "preview-image";
                         attrSel "meta" "property" "og:image";
                         js ".resource-preview img"; js ".main-preview img" ];
          sel_tags := [ js ".tag"; js ".keyword"; attrSel "" "data-testid" "tag";
                        js ".tag-list .tag-item"; js ".resource-tags .tag" ];
          sel_category := Some [ js ".breadcrumb a:last-child";
                                 js ".category-breadcrumb .breadcrumb-item:last-child";
                                 js ".nav-breadcrumb .breadcrumb-item:last-child" ];
          sel_stockId := None |} |}.

(** The script run inside the page by [page.evaluate]. Its selector
    lists are its own; [document.querySelector] is the first element
    matched. *)
Definition titleSelectors : list jsstring :=
  [ js "h1"; attrSel "" "data-testid" "resource-title"; js ".resource-title";
    attrSel "meta" "property" "og:title" ].

Definition descSelectors : list jsstring :=
  [ attrSel "meta" "name" "description"; attrSel "meta" "property" "og:description";
    js ".resource-description" ].

Definition imgSelectors : list jsstring :=
  [ js ".preview-image img"; attrSel "" "data-testid" "preview-image";
    js ".resource-preview img"; js ".main-preview img";
    attrSel "meta" "property" "og:image" ].

Definition tagSelectors : list jsstring :=
  [ js ".tag"; js ".keyword"; attrSel "" "data-testid" "tag";
    js ".tag-list .tag-item"; js ".resource-tags .tag" ].

Definition categorySelectors : list jsstring :=
  [ js ".breadcrumb a:last-child";
    js ".category-breadcrumb .breadcrumb-item:last-child";
    js ".nav-breadcrumb .breadcrumb-item:last-child" ].

(** A loop that assigns [read element] for each selector with an element
    and stops at the first truthy value; a falsy value is the empty
    text. *)
Fixpoint firstValue (read : Element -> jsstring) (document : Root)
         (selectors : list jsstring) : jsstring :=
  match selectors with
  | [] => []
  | selector :: rest =>
      match document selector with
      | element :: _ =>
          let value := read element in
          if truthy value then value else firstValue read document rest
      | [] => firstValue read document rest
      end
  end.

(** [element.textContent?.trim() || element.getAttribute('content') || ''] *)
Definition titleOf (element : Element) : jsstring :=
  let text := trim (textContent element) in
  if truthy text then text
  else PlatformScraper.or_else (get (attrs element) (js "content")) [].

(** [element.getAttribute('content') || element.textContent?.trim() || ''] *)
Definition descriptionOf (element : Element) : jsstring :=
  PlatformScraper.or_else (get (attrs element) (js "content"))
                          (trim (textContent element)).

(** [element.getAttribute('src') || element.getAttribute('content') || ''] *)
Definition imageOf (element : Element) : jsstring :=
  PlatformScraper.or_else (get (attrs element) (js "src"))
    (PlatformScraper.or_else (get (attrs element) (js "content")) []).

(** The image loop stops only at an address that starts with [http];
    otherwise [imageUrl] keeps what the last element gave. *)
Fixpoint imageLoop (document : Root) (selectors : list jsstring)
         (imageUrl : jsstring) : jsstring :=
  match selectors with
  | [] => imageUrl
  | selector :: rest =>
      match document selector with
      | element :: _ =>
          let imageUrl := imageOf element in
          if truthy imageUrl && starts_with (js "http") imageUrl
          then imageUrl
          else imageLoop document rest imageUrl
      | [] => imageLoop document rest imageUrl
      end
  end.

(** The class of [.]: every code unit but the line terminators. *)
Definition notLineTerminator : charset :=
  CRanges [ (0, 9); (11, 12); (14, 8231); (8234, 65535) ]%N.

(** [/\s*\|\s*Free.*?Vector\s*$/i] *)
Definition re_free_vector : regex :=
  Seq (Rep CSpace 0)
      (Seq (Chr 124%N)
           (Seq (Rep CSpace 0)
                (Seq (lit (js "Free"))
                     (Seq (RepLazy notLineTerminator 0)
                          (Seq (lit (js "Vector")) (Seq (Rep CSpace 0) Eol)))))).

(** [/\s*\|\s*Freepik\s*$/i] *)
Definition re_pipe_brand : regex := brandSuffix 124%N [js "Freepik"].

(** [/\s*-\s*Freepik\s*$/i] *)
Definition re_dash_brand : regex := brandSuffix 45%N [js "Freepik"].

Definition cleanTitle (title : jsstring) : jsstring :=
  trim (replace_first true re_dash_brand [] true
          (replace_first true re_pipe_brand [] true
             (replace_first true re_free_vector [] true title))).

Definition extractMetadata (url : jsstring) : M ImageMetadata :=
  try_catch
    (document <- render url ;;
     let title := firstValue titleOf document titleSelectors in
     let description := firstValue descriptionOf document descSelectors in
     let imageUrl := imageLoop document imgSelectors [] in
     let tags :=
       fold_left (fun tags selector =>
                    fold_left PlatformScraper.pushTag (document selector) tags)
                 tagSelectors [] in
     let category :=
       firstValue (fun element => trim (textContent element)) document
                  categorySelectors in
     scraped <- now ;;
     ret {| title := if truthy (cleanTitle title) then cleanTitle title
                     else js "Untitled";
            description := description;
            tags := filter (fun tag => (0 <? List.length tag)%nat) tags;
            imageUrl := imageUrl;
            imageBase64 := None;
            category := category;
            stockId := Some (StockId.extractStockId url);
            platform := id platformInfo;
            scrapedAt := scraped |})
    (fun error =>
       throw (Error (js "Failed to scrape Freepik: " ++ exn_message error))).

End FreepikScraper.

(* ===================================================================== *)
(** * core/scraper-engine.ts *)
(* ===================================================================== *)

Module WebScrapingEngine.
Import Types Effects Effects.Notations.

(** Every entry of [platformPatterns] is an ignore-case alternation of
    literal texts (each dot of the source is escaped there): the table
    keeps the alternatives. *)
Definition Pattern := (jsstring * list jsstring)%type.

Fixpoint alternation (a : jsstring) (rest : list jsstring) : regex :=
  match rest with
  | [] => lit a
  | b :: rest' => Alt (lit a) (alternation b rest')
  end.

Definition pattern_regex (p : Pattern) : regex := alternation (fst p) (snd p).

(** [RegExp.prototype.source]: the pattern text, dots escaped. *)
Definition escape_dots (s : jsstring) : jsstring :=
  flat_map (fun c => if (c =? 46)%N then [92%N; 46%N] else [c]) s.

Definition pattern_source (p : Pattern) : jsstring :=
  join (js "|") (List.map escape_dots (fst p :: snd p)).

Definition platformPatterns : list (jsstring * Pattern) :=
  [ (js "shutterstock", (js "shutterstock.com", []));
    (js "freepik", (js "freepik.com", []));
    (js "adobe-stock", (js "stock.adobe.com", []));
    (js "getty-images", (js "gettyimages.com", []));
    (js "dreamstime", (js "dreamstime.com", []));
    (js "iconscout", (js "iconscout.com", []));
    (js "pond5", (js "pond5.com", []));
    (js "arabstock", (js "arabstock.com", []));
    (js "vecteezy", (js "vecteezy.com", []));
    (js "creative-fabrica", (js "creativefabrica.com", []));
    (js "mock", (js "example.com", [js "test.com"; js "localhost"])) ].

(** The loop over [Object.entries(platformPatterns)]. *)
Fixpoint firstMatch (table : list (jsstring * Pattern)) (url : jsstring)
  : option jsstring :=
  match table with
  | [] => None
  | (platform, pattern) :: rest =>
      if test true (pattern_regex pattern) url then Some platform
      else firstMatch rest url
  end.

(** [/\\\./g]: a backslash followed by a dot. *)
Definition re_escaped_dot : regex := Seq (Chr 92%N) (Chr 46%N).

Definition supportedDomains : jsstring :=
  join (js ", ")
       (List.map (fun p => replace_all false re_escaped_dot (js ".")
                             (pattern_source (snd p)))
                 platformPatterns).

Definition unsupportedPlatformURL : exn :=
  Error (js "Unsupported platform URL. Supported domains: " ++ supportedDomains).

Definition identifyPlatform (url : jsstring) : completion jsstring :=
  match firstMatch platformPatterns url with
  | Some platform => Normal platform
  | None => Throw unsupportedPlatformURL
  end.

(** The test of [isValidURL]: [new URL(url)] succeeds and its protocol
    is [http:] or [https:]. *)
Definition validProtocol (w : World) (url : jsstring) : bool :=
  match urlProtocol w url with
  | Some protocol => eqs protocol (js "http:") || eqs protocol (js "https:")
  | None => false
  end.

Definition isValidURL (url : jsstring) : M bool :=
  w <- ask ;;
  ret (validProtocol w url).

(** [maxContentLength]: 50MB. *)
Definition maxContentLength : N := 50 * 1024 * 1024.

(** [axios.get(imageUrl, ...)] followed by the sharp pipeline. *)
Definition imageCall (imageUrl : jsstring) : HttpCall :=
  {| url := imageUrl; credential := [] |}.

Definition fetchAndProcess (imageUrl : jsstring) : M jsstring :=
  fun w s =>
    let s' := sent (imageCall imageUrl) s in
    match imageGet w imageUrl with
    | GetFailed m => (Throw (AxiosError m None), s')
    | GetBody len processed =>
        if (maxContentLength <? len)%N
        then (Throw (AxiosError (js "maxContentLength size of 52428800 exceeded") None), s')
        else (processed, s')
    end.

Definition downloadAndConvertImage (imageUrl : jsstring) : M jsstring :=
  try_catch (fetchAndProcess imageUrl)
    (fun error =>
       throw (Error (js "Failed to download or process image: "
                       ++ exn_message error))).

(** A registered scraper, by its [extractMetadata]. *)
Definition Scraper := jsstring -> M ImageMetadata.

(** [initializePlatformScrapers], in insertion order. *)
Definition platformScrapers : list (jsstring * Scraper) :=
  [ (js "shutterstock", ShutterstockScraper.extractMetadata);
    (js "freepik", FreepikScraper.extractMetadata);
    (js "adobe-stock", AdobeStockScraper.extractMetadata);
    (js "getty-images", GettyImagesScraper.extractMetadata);
    (js "dreamstime", DreamstimeScraper.extractMetadata);
    (js "iconscout", IconscoutExtract.extractMetadata);
    (js "pond5", Pond5Scraper.extractMetadata);
    (js "arabstock", ArabstockScraper.extractMetadata);
    (js "vecteezy", VecteezyScraper.extractMetadata);
    (js "creative-fabrica", CreativeFabricaScraper.extractMetadata);
    (js "mock", MockScraper.extractMetadata) ].

Definition noMeaningfulData : jsstring :=
  js "Failed to extract meaningful data from the URL. Please check if the URL is valid and accessible.".

(** Step 4: the image is fetched when a URL was found; a failure leaves
    the metadata as it is. *)
Definition attachImage (metadata : ImageMetadata) : M ImageMetadata :=
  if truthy (imageUrl metadata) then
    try_catch
      (b64 <- downloadAndConvertImage (imageUrl metadata) ;;
       ret (set_imageBase64 metadata b64))
      (fun _ => ret metadata)
  else ret metadata.

Definition scrapeStockURL (url : jsstring) : M ScrapingResult :=
  startTime <- now ;;
  try_catch
    (valid <- isValidURL url ;;
     if negb valid then throw (Error (js "Invalid URL provided")) else
     platform <- lift (identifyPlatform url) ;;
     match get platformScrapers platform with
     | None =>
         throw (Error (js "Unsupported platform: " ++ platform
                         ++ js ". Supported platforms: "
                         ++ join (js ", ") (keys platformScrapers)))
     | Some scraper =>
         metadata <- scraper url ;;
         if negb (truthy (title metadata)) && negb (truthy (imageUrl metadata))
         then throw (Error noMeaningfulData)
         else
           metadata' <- attachImage metadata ;;
           finished <- now ;;
           ret {| success := true;
                  data := Some metadata';
                  error := None;
                  processingTime := finished - startTime |}
     end)
    (fun error =>
       finished <- now ;;
       ret {| success := false;
              data := None;
              error := Some (exn_message error);
              processingTime := finished - startTime |}).

Record SupportedPlatform := { sp_name : jsstring; sp_domain : jsstring; sp_id : jsstring }.

Definition getSupportedPlatforms : list SupportedPlatform :=
  [ {| sp_name := js "Adobe Stock"; sp_domain := js "stock.adobe.com"; sp_id := js "adobe-stock" |};
    {| sp_name := js "Shutterstock"; sp_domain := js "shutterstock.com"; sp_id := js "shutterstock" |};
    {| sp_name := js "Freepik"; sp_domain := js "freepik.com"; sp_id := js "freepik" |};
    {| sp_name := js "Getty Images"; sp_domain := js "gettyimages.com"; sp_id := js "getty-images" |};
    {| sp_name := js "Dreamstime"; sp_domain := js "dreamstime.com"; sp_id := js "dreamstime" |};
    {| sp_name := js "Iconscout"; sp_domain := js "iconscout.com"; sp_id := js "iconscout" |};
    {| sp_name := js "Pond5"; sp_domain := js "pond5.com"; sp_id := js "pond5" |};
    {| sp_name := js "Arabstock"; sp_domain := js "arabstock.com"; sp_id := js "arabstock" |};
    {| sp_name := js "Vecteezy"; sp_domain := js "vecteezy.com"; sp_id := js "vecteezy" |};
    {| sp_name := js "Creative Fabrica"; sp_domain := js "creativefabrica.com"; sp_id := js "creative-fabrica" |};
    {| sp_name := js "Mock Platform (Testing)"; sp_domain := js "example.com"; sp_id := js "mock" |} ].

End WebScrapingEngine.

(* ===================================================================== *)
(** * middleware/validation.ts *)
(* ===================================================================== *)

Module Validation.
Import Effects.

(** Providers the request schemas accept ([Joi.string().valid(...)]). *)
Definition validProviders : list jsstring :=
  [js "openai"; js "openai-fast"; js "gemini"; js "claude"].

(** [validateApiKeySchema]: a listed provider and a key of ten or more
    code units. *)
Definition validateApiKeySchema (provider apiKey : jsstring) : bool :=
  includes validProviders provider && (10 <=? List.length apiKey)%nat.

(** [[a-zA-Z0-9\-_\.]] *)
Definition openaiKeyChars : charset :=
  CRanges [(97, 122); (65, 90); (48, 57); (45, 45); (95, 95); (46, 46)]%N.

(** [[A-Za-z0-9_-]] *)
Definition keyChars : charset :=
  CRanges [(65, 90); (97, 122); (48, 57); (95, 95); (45, 45)]%N.

(** [/^sk-[a-zA-Z0-9\-_\.]{10,}$/] *)
Definition re_openai : regex :=
  Seq Bol (Seq (lit (js "sk-")) (Seq (Rep openaiKeyChars 10) Eol)).

(** [/^[A-Za-z0-9_-]{10,}$/] *)
Definition re_gemini : regex :=
  Seq Bol (Seq (Rep keyChars 10) Eol).

(** [/^sk-ant-[A-Za-z0-9_-]{10,}$/] *)
Definition re_claude : regex :=
  Seq Bol (Seq (lit (js "sk-ant-")) (Seq (Rep keyChars 10) Eol)).

Definition patterns : list (jsstring * regex) :=
  [ (js "openai", re_openai);
    (js "gemini", re_gemini);
    (js "claude", re_claude) ].

(** [patterns] is an object literal: a name it inherits from
    [Object.prototype] reads as a value that is no regex. *)
Definition objectPrototypeKeys : list jsstring :=
  [ js "constructor"; js "hasOwnProperty"; js "isPrototypeOf";
    js "propertyIsEnumerable"; js "toLocaleString"; js "toString";
    js "valueOf"; js "__proto__"; js "__defineGetter__";
    js "__defineSetter__"; js "__lookupGetter__"; js "__lookupSetter__" ].

(** The format check. *)
Definition validateApiKey (provider apiKey : jsstring) : completion bool :=
  if negb (truthy apiKey) || (List.length (trim apiKey) =? 0)%nat then Normal false
  else
    match get patterns provider with
    | Some pattern => Normal (test false pattern (trim apiKey))
    | None =>
        if includes objectPrototypeKeys provider
        then Throw (Error (js "pattern.test is not a function"))
        else Normal false
    end.

End Validation.

(* ===================================================================== *)
(** * ai/ai-provider.ts: the adapter interface *)
(* ===================================================================== *)

Module AIProvider.
Import Types Effects.

Record AIAnalysisRequest := {
  imageBase64 : jsstring;
  metadata : ImageMetadata;
  promptStyle : jsstring;
  targetPlatform : option jsstring
}.

(** Result of [analyzeAndGeneratePrompt]. *)
Record Generated := {
  prompt : jsstring;
  variations : option (list jsstring);
  confidence : float
}.

(** Result of an adapter's [validateApiKey]. *)
Record KeyCheck := {
  isValid : bool;
  error : option jsstring;
  details : option (list (jsstring * jsval))
}.

Record AIProvider := {
  analyzeAndGeneratePrompt : jsstring -> AIAnalysisRequest -> M Generated;
  validateApiKey : jsstring -> M KeyCheck
}.

(** A possibly undefined string inside a template literal. *)
Definition template (o : option jsstring) : jsstring :=
  match o with Some s => s | None => js "undefined" end.

(** [o === s] for a possibly undefined string [o]. *)
Definition str_is (o : option jsstring) (s : jsstring) : bool :=
  match o with Some v => eqs v s | None => false end.

Definition code_is (v : jsval) (s : jsstring) : bool :=
  match v with VStr c => eqs c s | _ => false end.

Definition code_num (v : jsval) (n : Z) : bool :=
  match v with VNum c => (c =? n)%Z | _ => false end.

(** [o || fallback] *)
Definition or_default (o : option jsstring) (fallback : jsstring) : jsstring :=
  match o with
  | Some v => if truthy v then v else fallback
  | None => fallback
  end.

(** Reading a property of [undefined]. *)
Definition cannotRead (property : jsstring) : exn :=
  Error (js "Cannot read properties of undefined (reading '" ++ property ++ js "')").

(** [String.prototype.split] with a non-empty separator; [cur] is the
    piece being read, [skip] the separator units still to pass. *)
Fixpoint split_go (sep : jsstring) (skip : nat) (cur s : jsstring)
  : list jsstring :=
  match s with
  | [] => [cur]
  | c :: s' =>
      match skip with
      | S k => split_go sep k cur s'
      | 0%nat =>
          if starts_with sep s
          then cur :: split_go sep (List.length sep - 1) [] s'
          else split_go sep 0 (cur ++ [c]) s'
      end
  end.

Definition split (sep s : jsstring) : list jsstring := split_go sep 0 [] s.

End AIProvider.

(* ===================================================================== *)
(** * ai/openai-provider.ts *)
(* ===================================================================== *)

Module OpenAIProvider.
Import Effects Effects.Notations AIProvider OpenAIData JSNumber.
Local Open Scope float_scope.

Definition chatCompletions : jsstring :=
  js "https://api.openai.com/v1/chat/completions".

Definition chatCall (apiKey : jsstring) : HttpCall :=
  {| url := chatCompletions; credential := apiKey |}.

Definition post (apiKey : jsstring) : M (option Data) :=
  request openaiChat (chatCall apiKey).

(** [response.data?.choices?.[0]?.message?.content] *)
Definition firstContent (response : option Data) : option jsstring :=
  match response with
  | Some data =>
      match choices data with
      | Some (choice :: _) =>
          match message choice with
          | Some m => content m
          | None => None
          end
      | _ => None
      end
  | None => None
  end.

Definition generateVariations (apiKey originalPrompt style : jsstring)
  : M (list jsstring) :=
  try_catch
    (response <- post apiKey ;;
     match firstContent response with
     | Some text =>
         if truthy text then
           let variations :=
             filter (fun v => (10 <? List.length v)%nat)
                    (List.map trim (split (js "---") text)) in
           ret (firstn 2 variations)
         else ret []
     | None => ret []
     end)
    (fun _ => ret []).

Definition calculateConfidence (data : Data) : float :=
  match choices data with
  | None | Some [] => 0
  | Some (choice :: _) =>
      let promptLength :=
        match message choice with
        | Some m => match content m with Some c => List.length c | None => 0%nat end
        | None => 0%nat
        end in
      let confidence := 0.7 in
      let confidence :=
        if (100 <=? promptLength)%nat && (promptLength <=? 300)%nat
        then confidence + 0.2
        else if (50 <=? promptLength)%nat && (promptLength <? 500)%nat
             then confidence + 0.1
             else confidence in
      let confidence :=
        if str_is (finish_reason choice) (js "stop")
        then confidence + 0.1
        else confidence in
      Math_min confidence 1.0
  end.

(** The [catch] clause of [analyzeAndGeneratePrompt]. *)
Definition rethrow {A} (error : exn) : M A :=
  match exn_response error with
  | Some response =>
      match resp_data response with
      | None => throw (cannotRead (js "error"))
      | Some errorData =>
          match body_error errorData with
          | Some e =>
              if code_is (err_code e) (js "invalid_api_key")
              then throw (Error (js "Invalid OpenAI API key provided"))
              else if code_is (err_code e) (js "insufficient_quota")
              then throw (Error (js "OpenAI API quota exceeded"))
              else throw (Error (js "OpenAI API error: " ++ template (err_message e)))
          | None =>
              throw (Error (js "OpenAI request failed: " ++ exn_message error))
          end
      end
  | None => throw (Error (js "OpenAI request failed: " ++ exn_message error))
  end.

Definition noResponse : exn := Error (js "No response from OpenAI API").
Definition emptyResponse : exn := Error (js "Empty response from OpenAI API").

Definition analyzeAndGeneratePrompt (apiKey : jsstring)
           (request : AIAnalysisRequest) : M Generated :=
  try_catch
    (response <- post apiKey ;;
     match response with
     | None => throw noResponse
     | Some data =>
         match choices data with
         | None | Some [] => throw noResponse
         | Some (choice :: _) =>
             match message choice with
             | None => throw (cannotRead (js "content"))
             | Some m =>
                 match content m with
                 | None => throw emptyResponse
                 | Some generatedPrompt =>
                     if negb (truthy generatedPrompt) then throw emptyResponse
                     else
                       variations <- generateVariations apiKey generatedPrompt
                                       (promptStyle request) ;;
                       ret {| prompt := trim generatedPrompt;
                              variations := Some variations;
                              confidence := calculateConfidence data |}
                 end
             end
         end
     end)
    rethrow.

Definition validateApiKey (apiKey : jsstring) : M KeyCheck :=
  try_catch
    (_ <- post apiKey ;;
     ret {| isValid := true;
            error := None;
            details := Some [ (js "status", VStr (js "valid"));
                              (js "provider", VStr (js "openai"));
                              (js "model", VStr (js "gpt-3.5-turbo")) ] |})
    (fun error =>
       let network :=
         ret {| isValid := false;
                error := Some (js "Network error or timeout while validating API key");
                details := Some [ (js "code", VStr (js "network_error"));
                                  (js "originalError", VStr (exn_message error)) ] |} in
       match exn_response error with
       | Some response =>
           match resp_data response with
           | None => throw (cannotRead (js "error"))
           | Some errorData =>
               match body_error errorData with
               | Some e =>
                   let '(errorMessage, errorCode) :=
                     if code_is (err_code e) (js "invalid_api_key")
                     then (js "Invalid OpenAI API key", js "invalid_key")
                     else if code_is (err_code e) (js "insufficient_quota")
                     then (js "OpenAI API quota exceeded", js "quota_exceeded")
                     else if code_is (err_code e) (js "model_not_found")
                     then (js "Model access denied", js "model_access_denied")
                     else (or_default (err_message e) (js "OpenAI API error"),
                           js "api_error") in
                   ret {| isValid := false;
                          error := Some errorMessage;
                          details := Some [ (js "code", VStr errorCode);
                                            (js "originalError", err_code e);
                                            (js "status", VNum (resp_status response)) ] |}
               | None => network
               end
           end
       | None => network
       end).

Definition provider : AIProvider :=
  {| AIProvider.analyzeAndGeneratePrompt := analyzeAndGeneratePrompt;
     AIProvider.validateApiKey := validateApiKey |}.

End OpenAIProvider.

(* ===================================================================== *)
(** * ai/openai-fast-provider.ts *)
(* ===================================================================== *)

Module OpenAIFastProvider.
Import Effects Effects.Notations AIProvider OpenAIData JSNumber.
Local Open Scope float_scope.

Definition post (apiKey : jsstring) : M (option Data) :=
  request openaiChat (OpenAIProvider.chatCall apiKey).

Definition generateQuickVariation (apiKey originalPrompt : jsstring)
  : M (list jsstring) :=
  try_catch
    (response <- post apiKey ;;
     match OpenAIProvider.firstContent response with
     | Some text => if truthy text then ret [trim text] else ret []
     | None => ret []
     end)
    (fun _ => ret []).

Definition calculateConfidence (data : Data) : float :=
  match choices data with
  | None | Some [] => 0
  | Some (choice :: _) =>
      if str_is (finish_reason choice) (js "stop") then 0.8 else 0.6
  end.

Definition analyzeAndGeneratePrompt (apiKey : jsstring)
           (request : AIAnalysisRequest) : M Generated :=
  try_catch
    (response <- post apiKey ;;
     match response with
     | None => throw OpenAIProvider.noResponse
     | Some data =>
         match choices data with
         | None | Some [] => throw OpenAIProvider.noResponse
         | Some (choice :: _) =>
             match message choice with
             | None => throw (cannotRead (js "content"))
             | Some m =>
                 match content m with
                 | None => throw OpenAIProvider.emptyResponse
                 | Some generatedPrompt =>
                     if negb (truthy generatedPrompt)
                     then throw OpenAIProvider.emptyResponse
                     else
                       variations <- generateQuickVariation apiKey generatedPrompt ;;
                       ret {| prompt := trim generatedPrompt;
                              variations := Some variations;
                              confidence := calculateConfidence data |}
                 end
             end
         end
     end)
    OpenAIProvider.rethrow.

(** [error.response?.data?.error] *)
Definition vendorError (error : exn) : option VendorError :=
  match exn_response error with
  | Some response =>
      match resp_data response with
      | Some errorData => body_error errorData
      | None => None
      end
  | None => None
  end.

Definition validateApiKey (apiKey : jsstring) : M KeyCheck :=
  try_catch
    (_ <- post apiKey ;;
     ret {| isValid := true;
            error := None;
            details := Some [ (js "status", VStr (js "valid"));
                              (js "provider", VStr (js "openai-fast"));
                              (js "model", VStr (js "gpt-4o-mini")) ] |})
    (fun error =>
       match vendorError error with
       | Some e =>
           let errorMessage :=
             if code_is (err_code e) (js "invalid_api_key")
             then js "Invalid OpenAI API key"
             else if code_is (err_code e) (js "insufficient_quota")
             then js "OpenAI API quota exceeded"
             else or_default (err_message e) (js "OpenAI API error") in
           ret {| isValid := false; error := Some errorMessage; details := None |}
       | None =>
           ret {| isValid := false;
                  error := Some (js "Network error while validating API key");
                  details := None |}
       end).

Definition provider : AIProvider :=
  {| AIProvider.analyzeAndGeneratePrompt := analyzeAndGeneratePrompt;
     AIProvider.validateApiKey := validateApiKey |}.

End OpenAIFastProvider.

(* ===================================================================== *)
(** * ai/gemini-provider.ts *)
(* ===================================================================== *)

Module GeminiProvider.
Import Effects Effects.Notations AIProvider GeminiData JSNumber.
Local Open Scope float_scope.

(** The key travels in the query string. *)
Definition generateCall (model apiKey : jsstring) : HttpCall :=
  {| url := js "https://generativelanguage.googleapis.com/v1beta/models/"
              ++ model ++ js ":generateContent?key=" ++ apiKey;
     credential := apiKey |}.

Definition post (model apiKey : jsstring) : M (option Data) :=
  request geminiGenerate (generateCall model apiKey).

(** [candidate.content?.parts?.[0]?.text?.length || 0] *)
Definition contentLength (candidate : Candidate) : nat :=
  match content candidate with
  | Some c =>
      match parts c with
      | Some (p :: _) => match text p with Some t => List.length t | None => 0 end
      | _ => 0
      end
  | None => 0
  end.

Definition flagged (rating : SafetyRating) : bool :=
  str_is (probability rating) (js "HIGH") || str_is (probability rating) (js "MEDIUM").

Definition calculateConfidence (candidate : Candidate) : float :=
  let confidence := 0.75 in
  let confidence :=
    match safetyRatings candidate with
    | Some ratings =>
        fold_left (fun confidence rating =>
                     if flagged rating then confidence - 0.1 else confidence)
                  ratings confidence
    | None => confidence
    end in
  let confidence :=
    if str_is (finishReason candidate) (js "STOP") then confidence + 0.15
    else if str_is (finishReason candidate) (js "MAX_TOKENS") then confidence - 0.05
    else confidence in
  let contentLength := contentLength candidate in
  let confidence :=
    if (100 <=? contentLength)%nat && (contentLength <=? 300)%nat
    then confidence + 0.1
    else confidence in
  Math_min (Math_max confidence 0) 1.0.

Definition rethrow {A} (error : exn) : M A :=
  match exn_response error with
  | Some response =>
      match resp_data response with
      | None => throw (cannotRead (js "error"))
      | Some errorData =>
          match body_error errorData with
          | Some e =>
              if code_num (err_code e) 400
              then throw (Error (js "Invalid request to Gemini API. Please check your API key and request format."))
              else if code_num (err_code e) 403
              then throw (Error (js "Invalid or unauthorized Gemini API key"))
              else if code_num (err_code e) 429
              then throw (Error (js "Gemini API rate limit exceeded"))
              else throw (Error (js "Gemini API error: "
                                   ++ or_default (err_message e) (js "Unknown error")))
          | None =>
              throw (Error (js "Gemini request failed: " ++ exn_message error))
          end
      end
  | None => throw (Error (js "Gemini request failed: " ++ exn_message error))
  end.

Definition noResponse : exn := Error (js "No response from Gemini API").
Definition emptyResponse : exn := Error (js "Empty response from Gemini API").
Definition noText : exn := Error (js "No text content in Gemini response").

Definition analyzeAndGeneratePrompt (apiKey : jsstring)
           (request : AIAnalysisRequest) : M Generated :=
  try_catch
    (response <- post (js "gemini-pro-vision") apiKey ;;
     match response with
     | None => throw noResponse
     | Some data =>
         match candidates data with
         | None | Some [] => throw noResponse
         | Some (candidate :: _) =>
             match content candidate with
             | None => throw emptyResponse
             | Some c =>
                 match parts c with
                 | None | Some [] => throw emptyResponse
                 | Some (part :: _) =>
                     match text part with
                     | None => throw noText
                     | Some generatedPrompt =>
                         if negb (truthy generatedPrompt) then throw noText
                         else ret {| prompt := trim generatedPrompt;
                                     variations := Some [];
                                     confidence := calculateConfidence candidate |}
                     end
                 end
             end
         end
     end)
    rethrow.

Definition validateApiKey (apiKey : jsstring) : M KeyCheck :=
  try_catch
    (_ <- post (js "gemini-pro") apiKey ;;
     ret {| isValid := true;
            error := None;
            details := Some [ (js "model", VStr (js "gemini-pro"));
                              (js "status", VStr (js "authenticated")) ] |})
    (fun error =>
       let network :=
         ret {| isValid := false;
                error := Some (js "Network error or invalid API key: " ++ exn_message error);
                details := Some [ (js "type", VStr (js "network_error")) ] |} in
       match exn_response error with
       | Some response =>
           match resp_data response with
           | None => throw (cannotRead (js "error"))
           | Some errorData =>
               match body_error errorData with
               | Some e =>
                   if code_num (err_code e) 400 then
                     ret {| isValid := false;
                            error := Some (js "Invalid request format or API key");
                            details := Some [ (js "code", VNum 400);
                                              (js "type", VStr (js "invalid_request")) ] |}
                   else if code_num (err_code e) 403 then
                     ret {| isValid := false;
                            error := Some (js "Invalid or unauthorized Gemini API key");
                            details := Some [ (js "code", VNum 403);
                                              (js "type", VStr (js "authentication_error")) ] |}
                   else if code_num (err_code e) 429 then
                     ret {| isValid := false;
                            error := Some (js "Gemini API rate limit exceeded");
                            details := Some [ (js "code", VNum 429);
                                              (js "type", VStr (js "rate_limit_error")) ] |}
                   else
                     ret {| isValid := false;
                            error := Some (js "Gemini API error: "
                                             ++ or_default (err_message e) (js "Unknown error"));
                            details := Some [ (js "code", err_code e);
                                              (js "type", VStr (js "api_error")) ] |}
               | None => network
               end
           end
       | None => network
       end).

Definition provider : AIProvider :=
  {| AIProvider.analyzeAndGeneratePrompt := analyzeAndGeneratePrompt;
     AIProvider.validateApiKey := validateApiKey |}.

End GeminiProvider.

(* ===================================================================== *)
(** * ai/claude-provider.ts *)
(* ===================================================================== *)

Module ClaudeProvider.
Import Effects Effects.Notations AIProvider ClaudeData JSNumber.
Local Open Scope float_scope.

Definition messagesCall (apiKey : jsstring) : HttpCall :=
  {| url := js "https://api.anthropic.com/v1/messages"; credential := apiKey |}.

Definition post (apiKey : jsstring) : M (option Data) :=
  request claudeMessages (messagesCall apiKey).

(** [data.content?.[0]?.text?.length || 0] *)
Definition contentLength (data : Data) : nat :=
  match content data with
  | Some (block :: _) => match text block with Some t => List.length t | None => 0 end
  | _ => 0
  end.

(** [n || 0] for a possibly undefined number. *)
Definition num_or_zero (n : option Z) : Z :=
  match n with Some v => v | None => 0%Z end.

Definition calculateConfidence (data : Data) : float :=
  let confidence := 0.8 in
  let confidence :=
    if str_is (stop_reason data) (js "end_turn") then confidence + 0.1
    else if str_is (stop_reason data) (js "max_tokens") then confidence - 0.1
    else confidence in
  let contentLength := contentLength data in
  let confidence :=
    if (100 <=? contentLength)%nat && (contentLength <=? 300)%nat
    then confidence + 0.1
    else if (contentLength <? 50)%nat then confidence - 0.2
    else confidence in
  let confidence :=
    match usage data with
    | Some u =>
        let outputTokens := num_or_zero (output_tokens u) in
        if (50 <=? outputTokens)%Z && (outputTokens <=? 500)%Z
        then confidence + 0.05
        else confidence
    | None => confidence
    end in
  Math_min (Math_max confidence 0) 1.0.

Definition rethrow {A} (error : exn) : M A :=
  match exn_response error with
  | Some response =>
      match resp_data response with
      | None => throw (cannotRead (js "error"))
      | Some errorData =>
          match body_error errorData with
          | Some e =>
              let errorType := err_type e in
              let errorMessage := err_message e in
              if str_is errorType (js "authentication_error")
              then throw (Error (js "Invalid Claude API key provided"))
              else if str_is errorType (js "permission_error")
              then throw (Error (js "Claude API permission denied - check your API key permissions"))
              else if str_is errorType (js "rate_limit_error")
              then throw (Error (js "Claude API rate limit exceeded"))
              else if str_is errorType (js "invalid_request_error")
              then throw (Error (js "Claude API invalid request: " ++ template errorMessage))
              else throw (Error (js "Claude API error: "
                                   ++ or_default errorMessage (js "Unknown error")))
          | None =>
              throw (Error (js "Claude request failed: " ++ exn_message error))
          end
      end
  | None => throw (Error (js "Claude request failed: " ++ exn_message error))
  end.

Definition noResponse : exn := Error (js "No response from Claude API").
Definition invalidFormat : exn := Error (js "Invalid response format from Claude API").

Definition analyzeAndGeneratePrompt (apiKey : jsstring)
           (request : AIAnalysisRequest) : M Generated :=
  try_catch
    (response <- post apiKey ;;
     match response with
     | None => throw noResponse
     | Some data =>
         match content data with
         | None | Some [] => throw noResponse
         | Some (block :: _) =>
             if negb (str_is (type block) (js "text")) then throw invalidFormat
             else
               match text block with
               | None => throw invalidFormat
               | Some generatedPrompt =>
                   if negb (truthy generatedPrompt) then throw invalidFormat
                   else ret {| prompt := trim generatedPrompt;
                               variations := Some [];
                               confidence := calculateConfidence data |}
               end
         end
     end)
    rethrow.

Definition rejected (message type : jsstring) (status : Z) : KeyCheck :=
  {| isValid := false;
     error := Some message;
     details := Some [ (js "type", VStr type); (js "status", VNum status) ] |}.

Definition validateApiKey (apiKey : jsstring) : M KeyCheck :=
  try_catch
    (_ <- post apiKey ;;
     ret {| isValid := true;
            error := None;
            details := Some [ (js "model", VStr (js "claude-3-sonnet-20240229"));
                              (js "status", VStr (js "authenticated")) ] |})
    (fun error =>
       let network :=
         ret {| isValid := false;
                error := Some (js "Network error or invalid API key: " ++ exn_message error);
                details := Some [ (js "type", VStr (js "network_error")) ] |} in
       match exn_response error with
       | Some response =>
           match resp_data response with
           | None => throw (cannotRead (js "error"))
           | Some errorData =>
               match body_error errorData with
               | Some e =>
                   let errorType := err_type e in
                   let errorMessage := err_message e in
                   if str_is errorType (js "authentication_error") then
                     ret (rejected (js "Invalid Claude API key provided")
                                   (js "authentication_error") 401)
                   else if str_is errorType (js "permission_error") then
                     ret (rejected (js "Claude API permission denied - check your API key permissions")
                                   (js "permission_error") 403)
                   else if str_is errorType (js "rate_limit_error") then
                     ret (rejected (js "Claude API rate limit exceeded")
                                   (js "rate_limit_error") 429)
                   else if str_is errorType (js "invalid_request_error") then
                     ret (rejected (js "Claude API invalid request: " ++ template errorMessage)
                                   (js "invalid_request_error") 400)
                   else
                     ret (rejected (js "Claude API error: "
                                      ++ or_default errorMessage (js "Unknown error"))
                                   (or_default errorType (js "api_error"))
                                   (resp_status response))
               | None => network
               end
           end
       | None => network
       end).

Definition provider : AIProvider :=
  {| AIProvider.analyzeAndGeneratePrompt := analyzeAndGeneratePrompt;
     AIProvider.validateApiKey := validateApiKey |}.

End ClaudeProvider.

(* ===================================================================== *)
(** * ai/ai-provider.ts: the manager *)
(* ===================================================================== *)

Module AIProviderManager.
Import Effects Effects.Notations AIProvider.

(** The registry built by the constructor, in insertion order. *)
Definition providers : list (jsstring * AIProvider) :=
  [ (js "openai", OpenAIProvider.provider);
    (js "openai-fast", OpenAIFastProvider.provider);
    (js "gemini", GeminiProvider.provider);
    (js "claude", ClaudeProvider.provider) ].

Record AIAnalysisResponse := {
  success : bool;
  prompt : jsstring;
  variations : option (list jsstring);
  confidence : float;
  processingTime : Z;
  error : option jsstring
}.

Definition unsupportedProvider (provider : jsstring) : jsstring :=
  js "Unsupported AI provider: " ++ provider
    ++ js ". Supported providers: " ++ join (js ", ") (keys providers).

Definition generatePrompt (provider apiKey : jsstring)
           (request : AIAnalysisRequest) : M AIAnalysisResponse :=
  startTime <- now ;;
  try_catch
    (match get providers provider with
     | None => throw (Error (unsupportedProvider provider))
     | Some aiProvider =>
         if negb (truthy apiKey) || (List.length (trim apiKey) =? 0)%nat
         then throw (Error (js "API key is required"))
         else if negb (truthy (imageBase64 request))
         then throw (Error (js "Image data is required for AI analysis"))
         else
           result <- analyzeAndGeneratePrompt aiProvider apiKey request ;;
           finished <- now ;;
           ret {| success := true;
                  prompt := AIProvider.prompt result;
                  variations :=
                    Some match AIProvider.variations result with
                         | Some v => v
                         | None => []
                         end;
                  confidence := AIProvider.confidence result;
                  processingTime := finished - startTime;
                  error := None |}
     end)
    (fun error =>
       finished <- now ;;
       ret {| success := false;
              prompt := [];
              variations := None;
              confidence := 0;
              processingTime := finished - startTime;
              error := Some (exn_message error) |}).

Record KeyValidation := {
  kv_success : bool;
  kv_isValid : bool;
  kv_error : option jsstring;
  kv_provider : jsstring;
  kv_details : option (list (jsstring * jsval))
}.

Definition invalidFormat (provider : jsstring) : jsstring :=
  js "Invalid " ++ provider ++ js " API key format".

Definition validateApiKey (provider apiKey : jsstring) : M KeyValidation :=
  try_catch
    (match get providers provider with
     | None =>
         ret {| kv_success := false;
                kv_isValid := false;
                kv_error := Some (unsupportedProvider provider);
                kv_provider := provider;
                kv_details := None |}
     | Some aiProvider =>
         isValidFormat <- lift (Validation.validateApiKey provider apiKey) ;;
         if negb isValidFormat then
           ret {| kv_success := true;
                  kv_isValid := false;
                  kv_error := Some (invalidFormat provider);
                  kv_provider := provider;
                  kv_details := Some [ (js "issue", VStr (js "format_invalid")) ] |}
         else
           result <- AIProvider.validateApiKey aiProvider apiKey ;;
           ret {| kv_success := true;
                  kv_isValid := isValid result;
                  kv_error := AIProvider.error result;
                  kv_provider := provider;
                  kv_details := details result |}
     end)
    (fun error =>
       ret {| kv_success := false;
              kv_isValid := false;
              kv_error := Some (exn_message error);
              kv_provider := provider;
              kv_details := None |}).

Record SupportedProvider := { sp_id : jsstring; sp_name : jsstring; sp_model : jsstring }.

Definition getSupportedProviders : list SupportedProvider :=
  [ {| sp_id := js "openai"; sp_name := js "OpenAI GPT-4 Turbo Vision"; sp_model := js "gpt-4-turbo" |};
    {| sp_id := js "openai-fast"; sp_name := js "OpenAI GPT-4o Mini (Fastest)"; sp_model := js "gpt-4o-mini" |};
    {| sp_id := js "gemini"; sp_name := js "Google Gemini Pro Vision"; sp_model := js "gemini-pro-vision" |};
    {| sp_id := js "claude"; sp_name := js "Anthropic Claude 3 Sonnet"; sp_model := js "claude-3-sonnet-20240229" |} ].

End AIProviderManager.

(* ===================================================================== *)
(** * routes/api.ts: the POST handlers *)
(* ===================================================================== *)

Module Routes.
Import Types Effects Effects.Notations AIProvider.

(** [APIResponse] *)
Record APIResponse (D : Type) := {
  success : bool;
  data : option D;
  error : option jsstring;
  message : option jsstring
}.

(** What a handler sends: [res.status(status).json(json)]; [res.json]
    alone sends the status 200. *)
Record Sent (D : Type) := { status : Z; json : APIResponse D }.

(** An integer inside a template literal (below 10^21 in magnitude, as
    the readings of the clock are). *)
Definition decimal (n : Z) : jsstring := js (NilZero.string_of_int (Z.to_int n)).

(** [text || fallback] *)
Definition or_text (text fallback : jsstring) : jsstring :=
  if truthy text then text else fallback.

Definition refused {D} (status : Z) (error : jsstring) : Sent D :=
  {| status := status;
     json := {| success := false; data := None; error := Some error;
                message := None |} |}.

(** [POST /analyze-url], behind the rate limiter and the request schema;
    [url] is [req.body.url]. *)
Definition analyzeUrl (url : jsstring) : M (Sent ImageMetadata) :=
  try_catch
    (result <- WebScrapingEngine.scrapeStockURL url ;;
     if negb (Types.success result) then
       ret (refused 400 (or_default (Types.error result) (js "Failed to analyze URL")))
     else
       ret {| status := 200;
              json := {| success := true;
                         data := Types.data result;
                         error := None;
                         message :=
                           Some (js "Successfully analyzed "
                                   ++ template (option_map platform (Types.data result))
                                   ++ js " URL in "
                                   ++ decimal (processingTime result) ++ js "ms") |} |})
    (fun error =>
       ret (refused 500 (or_text (exn_message error)
                                 (js "Internal server error while analyzing URL")))).

Record KeyData := {
  kd_provider : jsstring;
  kd_isValid : bool;
  kd_details : option (list (jsstring * jsval))
}.

(** [POST /validate-api-key] *)
Definition validateApiKey (provider apiKey : jsstring) : M (Sent KeyData) :=
  try_catch
    (result <- AIProviderManager.validateApiKey provider apiKey ;;
     ret {| status :=
              if AIProviderManager.kv_success result
              then (if AIProviderManager.kv_isValid result then 200 else 400)
              else 500;
            json := {| success := AIProviderManager.kv_success result;
                       data :=
                         Some {| kd_provider := AIProviderManager.kv_provider result;
                                 kd_isValid := AIProviderManager.kv_isValid result;
                                 kd_details := AIProviderManager.kv_details result |};
                       error := AIProviderManager.kv_error result;
                       message :=
                         Some (if AIProviderManager.kv_isValid result
                               then provider ++ js " API key is valid"
                               else provider ++ js " API key validation failed") |} |})
    (fun error =>
       ret (refused 500 (or_text (exn_message error)
                                 (js "Internal server error while validating API key")))).

(** [Promise.race] of a task against a timer that rejects with an
    [Error]: when the timer fires first the race rejects, and the task
    goes on in the background, so what it does still happens. *)
Definition race {A} (task : M A) (timerFirst : bool) (message : jsstring) : M A :=
  fun w s =>
    match task w s with
    | (outcome, s') =>
        if timerFirst then (Throw (Error message), s') else (outcome, s')
    end.

(** Which of the two timers of [POST /analyze-and-generate] fire before
    their task settles. *)
Record Timers := { analysisTimer : bool; generationTimer : bool }.

(** The validated body of [POST /analyze-and-generate]. *)
Record AnalyzeAndGenerateBody := {
  ag_url : jsstring;
  ag_provider : jsstring;
  ag_apiKey : jsstring;
  ag_promptStyle : option jsstring;
  ag_targetPlatform : option jsstring
}.

Record CombinedMetadata := {
  cm_provider : jsstring;
  cm_style : option jsstring;
  cm_platform : option jsstring;
  cm_confidence : float;
  cm_analysisTime : Z;
  cm_generationTime : Z;
  cm_totalTime : Z;
  cm_generatedAt : Z
}.

Record CombinedData := {
  cd_originalUrl : jsstring;
  cd_imageData : ImageMetadata;
  cd_generatedPrompt : jsstring;
  cd_variations : option (list jsstring);
  cd_metadata : CombinedMetadata
}.

(** The request of step 2; [imageData.imageBase64!] is the empty text
    when the scrape attached no image, falsy like [undefined]. *)
Definition combinedRequest (body : AnalyzeAndGenerateBody) (imageData : ImageMetadata)
  : AIAnalysisRequest :=
  {| AIProvider.imageBase64 :=
       match Types.imageBase64 imageData with Some b => b | None => [] end;
     AIProvider.metadata := imageData;
     AIProvider.promptStyle := or_default (ag_promptStyle body) (js "detailed");
     AIProvider.targetPlatform := ag_targetPlatform body |}.

(** [POST /analyze-and-generate] *)
Definition analyzeAndGenerate (timers : Timers) (body : AnalyzeAndGenerateBody)
  : M (Sent CombinedData) :=
  try_catch
    (analysisResult <-
       race (WebScrapingEngine.scrapeStockURL (ag_url body)) (analysisTimer timers)
            (js "URL analysis timed out after 45 seconds") ;;
     match Types.data analysisResult with
     | Some imageData =>
         if negb (Types.success analysisResult) then
           ret (refused 400 (or_default (Types.error analysisResult)
                                        (js "Failed to analyze URL")))
         else
           promptResult <-
             race (AIProviderManager.generatePrompt (ag_provider body) (ag_apiKey body)
                     (combinedRequest body imageData))
                  (generationTimer timers)
                  (js "AI prompt generation timed out after 30 seconds") ;;
           if negb (AIProviderManager.success promptResult) then
             ret (refused 400 (or_default (AIProviderManager.error promptResult)
                                          (js "Failed to generate prompt")))
           else
             let totalTime :=
               (processingTime analysisResult
                + AIProviderManager.processingTime promptResult)%Z in
             generatedAt <- now ;;
             ret {| status := 200;
                    json :=
                      {| success := true;
                         data :=
                           Some {| cd_originalUrl := ag_url body;
                                   cd_imageData := imageData;
                                   cd_generatedPrompt :=
                                     AIProviderManager.prompt promptResult;
                                   cd_variations :=
                                     AIProviderManager.variations promptResult;
                                   cd_metadata :=
                                     {| cm_provider := ag_provider body;
                                        cm_style := ag_promptStyle body;
                                        cm_platform := ag_targetPlatform body;
                                        cm_confidence :=
                                          AIProviderManager.confidence promptResult;
                                        cm_analysisTime := processingTime analysisResult;
                                        cm_generationTime :=
                                          AIProviderManager.processingTime promptResult;
                                        cm_totalTime := totalTime;
                                        cm_generatedAt := generatedAt |} |};
                         error := None;
                         message :=
                           Some (js "Successfully completed analysis and prompt generation in "
                                   ++ decimal totalTime ++ js "ms") |} |}
     | None =>
         ret (refused 400 (or_default (Types.error analysisResult)
                                      (js "Failed to analyze URL")))
     end)
    (fun error =>
       ret (refused 500 (or_text (exn_message error) (js "Internal server error")))).

End Routes.

(* ===================================================================== *)
(** * Vocabulary of the properties *)
(* ===================================================================== *)

(** Predicates on texts. *)
Module TextSpec.

Definition head_ok (p : code_unit -> bool) (t : jsstring) : Prop :=
  match t with [] => True | c :: _ => p c = true end.

Definition last_ok (p : code_unit -> bool) (t : jsstring) : Prop :=
  forall pre c, t = pre ++ [c] -> p c = true.

Definition nonspace (c : code_unit) : bool := negb (is_space c).
Definition nonword (c : code_unit) : bool := negb (is_word c).

(** Every whitespace unit of [t] is a single space not followed by
    whitespace. *)
Fixpoint spaced (t : jsstring) : Prop :=
  match t with
  | [] => True
  | c :: t' =>
      (is_space c = true -> c = SPACE /\ head_ok nonspace t')
      /\ spaced t'
  end.

(** [s] without its trailing run of non-word units. *)
Fixpoint stripTail (s : jsstring) : jsstring :=
  match s with
  | [] => []
  | c :: s' => if forallb nonword s then [] else c :: stripTail s'
  end.

(** The shape [cleanText] produces, and keeps. *)
Definition clean (t : jsstring) : Prop :=
  head_ok is_word t /\ last_ok is_word t /\ spaced t.

(** [a] and [b] are equal up to the case of ASCII letters. *)
Definition ci_eq (a b : jsstring) : Prop :=
  Forall2 (fun p c => canonicalize p = canonicalize c) a b.

(** [a] heads [s], up to the case of ASCII letters. *)
Fixpoint prefix_ci (a s : jsstring) : bool :=
  match a, s with
  | [], _ => true
  | p :: a', c :: s' => chr_match true p c && prefix_ci a' s'
  | _ :: _, [] => false
  end.

(** Decides [infix]. *)
Fixpoint is_infix (s t : jsstring) : bool :=
  starts_with s t || match t with [] => false | _ :: t' => is_infix s t' end.

End TextSpec.

(** Notions about the scraping engine. *)
Module EngineSpec.
Import Types Effects WebScrapingEngine TextSpec.

(** The text [alt] occurs somewhere in [url], in any letter case. *)
Definition occurs (alt url : jsstring) : Prop :=
  exists pre block post, url = pre ++ block ++ post /\ ci_eq alt block.

(** One of the domain texts of [p] occurs somewhere in [url]. *)
Definition pattern_occurs (p : Pattern) (url : jsstring) : Prop :=
  exists alt, In alt (fst p :: snd p) /\ occurs alt url.

Definition matches_here (p : Pattern) (s : jsstring) : bool :=
  existsb (fun alt => prefix_ci alt s) (fst p :: snd p).

(** The message of the unsupported-platform error, spelled out. *)
Definition unsupportedMessage : jsstring :=
  js "Unsupported platform URL. Supported domains: shutterstock.com, freepik.com, stock.adobe.com, gettyimages.com, dreamstime.com, iconscout.com, pond5.com, arabstock.com, vecteezy.com, creativefabrica.com, example.com|test.com|localhost".

(** The host of an http(s) URL without userinfo and port: the text
    between the scheme and the first [/], [?] or [#]. *)
Definition hostOf (url : jsstring) : option jsstring :=
  let host rest :=
    firstn (span_len (fun c => negb ((c =? 47) || (c =? 63) || (c =? 35))%N) rest)
           rest in
  if starts_with (js "https://") url then Some (host (skipn 8 url))
  else if starts_with (js "http://") url then Some (host (skipn 7 url))
  else None.

(** [host] is [domain] or one of its subdomains. *)
Definition onDomain (host domain : jsstring) : Prop :=
  host = domain \/ exists sub, host = sub ++ js "." ++ domain.

(** The failure envelope built at state [s] for a scrape started at
    [startTime]. *)
Definition failed (w : World) (startTime : Z) (message : jsstring) (s : State)
  : completion ScrapingResult * State :=
  (Normal {| success := false;
             data := None;
             error := Some message;
             processingTime := clock w (ticks s) - startTime |},
   tick s).

(** The download of [imageUrl] or its processing fails: the GET fails,
    the body exceeds the size ceiling, or sharp rejects it. *)
Definition imageFails (w : World) (imageUrl : jsstring) : Prop :=
  match imageGet w imageUrl with
  | GetFailed _ => True
  | GetBody len processed =>
      (maxContentLength < len)%N \/ exists e, processed = Throw e
  end.

(** Extraction ran and produced [metadata]: the URL is valid, its platform
    is identified and registered, and the platform's extractor returned
    [metadata], leaving the state [s1]. *)
Definition extracted (w : World) (s : State) (url : jsstring)
           (metadata : ImageMetadata) (s1 : State) : Prop :=
  validProtocol w url = true
  /\ exists platform scraper,
       identifyPlatform url = Normal platform
       /\ get platformScrapers platform = Some scraper
       /\ scraper url w (tick s) = (Normal metadata, s1).

End EngineSpec.

(** Notions about binary64 values, on their specification
    ([spec_float]). *)
Module NumberSpec.

Definition nonnan (x : spec_float) : Prop := x <> S754_nan.

Definition finite (x : spec_float) : Prop :=
  match x with S754_finite _ _ _ => True | _ => False end.

End NumberSpec.

(** Notions about the provider manager. *)
Module ManagerSpec.
Import Effects AIProvider AIProviderManager.

(** The vendor answers with an error body [e] under HTTP status [status]. *)
Definition vendorRejects {D} (outcome : AxiosResult D) (e : VendorError) (status : Z)
  : Prop :=
  exists m,
    outcome = Rejected m (Some {| resp_status := status;
                                  resp_data := Some {| body_error := Some e |} |}).

(** The four answers of [validateApiKey]. *)
Definition rejectedAtLookup (provider : jsstring) : KeyValidation :=
  {| kv_success := false; kv_isValid := false;
     kv_error := Some (unsupportedProvider provider);
     kv_provider := provider; kv_details := None |}.

Definition rejectedByFormat (provider : jsstring) : KeyValidation :=
  {| kv_success := true; kv_isValid := false;
     kv_error := Some (invalidFormat provider);
     kv_provider := provider;
     kv_details := Some [ (js "issue", VStr (js "format_invalid")) ] |}.

Definition checked (provider : jsstring) (check : KeyCheck) : KeyValidation :=
  {| kv_success := true; kv_isValid := isValid check;
     kv_error := AIProvider.error check;
     kv_provider := provider; kv_details := details check |}.

Definition crashed (provider : jsstring) (e : exn) : KeyValidation :=
  {| kv_success := false; kv_isValid := false;
     kv_error := Some (exn_message e);
     kv_provider := provider; kv_details := None |}.

(** A number between 0 and 1, bounds included. *)
Definition unit_interval (x : float) : Prop :=
  (0 <=? x)%float = true /\ (x <=? 1)%float = true.

(** At most two variations, and a confidence between 0 and 1. *)
Definition inRange (g : Generated) : Prop :=
  match AIProvider.variations g with
  | Some v => (List.length v <= 2)%nat
  | None => True
  end
  /\ unit_interval (AIProvider.confidence g).

End ManagerSpec.

(** Pages and worlds on which the properties are exercised. *)
Module Fixtures.
Import Types Dom Effects.

(** A page whose [h1] is blank and whose [og:title] meta tag and [title]
    element both carry a title. *)
Definition titledPage : Root :=
  fun selector =>
    if eqs selector (js "h1") then
      [ {| attrs := []; textContent := js "  "; innerHTML := js "  " |} ]
    else if eqs selector (js "meta[property=" ++ quoted (js "og:title") ++ js "]") then
      [ {| attrs := [(js "content", js "Red fox")]; textContent := [];
           innerHTML := [] |} ]
    else if eqs selector (js "title") then
      [ {| attrs := []; textContent := js " Red fox | Iconscout ";
           innerHTML := js " Red fox | Iconscout " |} ]
    else [].

(** A listing page with two keyword elements, [sunset,] and [sunset]. *)
Definition keywordPage : Root :=
  fun selector =>
    if eqs selector (js ".keyword") then
      [ {| attrs := []; textContent := js "sunset,"; innerHTML := js "sunset," |};
        {| attrs := []; textContent := js "sunset"; innerHTML := js "sunset" |} ]
    else [].

(** A page with a description and a keyword, without title and image. *)
Definition barePage : Root :=
  fun selector =>
    if eqs selector (js "meta[name=" ++ quoted (js "description") ++ js "]") then
      [ {| attrs := [(js "content", js "A fox")]; textContent := [];
           innerHTML := [] |} ]
    else if eqs selector (js ".keyword") then
      [ {| attrs := []; textContent := js "fox"; innerHTML := js "fox" |} ]
    else [].

(** A world in which every URL parses as https and answers with
    [barePage], every image is a 200MB body, and every vendor is out of
    reach. *)
Definition bareWorld : World :=
  {| clock := fun n => Z.of_nat n;
     urlProtocol := fun _ => Some (js "https:");
     pageGet := fun _ _ => PageLoaded barePage;
     browse := fun _ => Rendered barePage;
     jsonParse := fun _ => None;
     imageGet := fun _ => GetBody (200 * 1024 * 1024) (Normal (js "AAAA"));
     openaiChat := fun _ _ => Rejected (js "offline") None;
     geminiGenerate := fun _ _ => Rejected (js "offline") None;
     claudeMessages := fun _ _ => Rejected (js "offline") None |}.

(** What the Iconscout scraper makes of [barePage] at the second
    reading of the clock of [bareWorld]. *)
Definition bareMetadata : ImageMetadata :=
  {| title := []; description := js "A fox"; tags := [js "fox"];
     imageUrl := []; imageBase64 := None; category := [];
     stockId := Some []; platform := js "iconscout"; scrapedAt := 1 |}.

Definition invalidKeyError : VendorError :=
  {| err_code := VStr (js "invalid_api_key");
     err_type := Some (js "invalid_request_error");
     err_message := Some (js "Incorrect API key provided") |}.

(** A world in which OpenAI refuses every key as invalid. *)
Definition revokingWorld : World :=
  {| clock := fun n => Z.of_nat n;
     urlProtocol := fun _ => None;
     pageGet := fun _ _ => PageFailed (js "offline");
     browse := fun _ => LaunchFailed (js "offline");
     jsonParse := fun _ => None;
     imageGet := fun _ => GetFailed (js "offline");
     openaiChat := fun _ _ =>
       Rejected (js "Request failed with status code 401")
                (Some {| resp_status := 401;
                         resp_data := Some {| body_error := Some invalidKeyError |} |});
     geminiGenerate := fun _ _ => Rejected (js "offline") None;
     claudeMessages := fun _ _ => Rejected (js "offline") None |}.

(** A world in which OpenAI answers the first request with a prompt and
    the second with three variations. *)
Definition answeringWorld : World :=
  {| clock := fun n => Z.of_nat (5 * n);
     urlProtocol := fun _ => None;
     pageGet := fun _ _ => PageFailed (js "offline");
     browse := fun _ => LaunchFailed (js "offline");
     jsonParse := fun _ => None;
     imageGet := fun _ => GetFailed (js "offline");
     openaiChat := fun n _ =>
       let answer text :=
         Resolved (Some {| OpenAIData.choices :=
                             Some [ {| OpenAIData.message :=
                                         Some {| OpenAIData.content := Some text |};
                                       OpenAIData.finish_reason := Some (js "stop") |} ] |}) in
       match n with
       | 0%nat => answer (js " A red fox crossing a snowy field at dawn, soft light ")
       | _ => answer (js "A red fox at dusk --- A fox in deep snow --- A fox, watercolor style")
       end;
     geminiGenerate := fun _ _ => Rejected (js "offline") None;
     claudeMessages := fun _ _ => Rejected (js "offline") None |}.

Definition sampleRequest : AIProvider.AIAnalysisRequest :=
  {| AIProvider.imageBase64 := js "AAAA";
     AIProvider.metadata := bareMetadata;
     AIProvider.promptStyle := js "detailed";
     AIProvider.targetPlatform := None |}.

End Fixtures.

(* ===================================================================== *)
(** * Vocabulary of the further properties *)
(* ===================================================================== *)

Module RegexSpec.

(** [r] has no [^]: its matches at a position do not depend on where
    the input begins. *)
Fixpoint unanchored (r : regex) : bool :=
  match r with
  | Bol => false
  | Seq r1 r2 | Alt r1 r2 => unanchored r1 && unanchored r2
  | _ => true
  end.

End RegexSpec.

Module StockIdSpec.
Import RegexExec StockId.

(** The loop of [extractStockId] returns at its pattern number [n]
    (counted from 0) with the group text [id]. *)
Definition decides (n : nat) (url id : jsstring) : Prop :=
  exists p,
    nth_error patterns n = Some p
    /\ capture false p true url = Some id
    /\ forall q, In q (firstn n patterns) -> capture false q true url = None.

(** No [/] of [s] is directly followed by a digit. *)
Fixpoint no_numeric_segment (s : jsstring) : bool :=
  match s with
  | [] => true
  | c :: s' =>
      negb ((c =? 47)%N && match s' with d :: _ => is_digit d | [] => false end)
      && no_numeric_segment s'
  end.

(** [s] is empty or begins with [?] or [/]. *)
Definition segment_end (s : jsstring) : bool :=
  match s with
  | [] => true
  | c :: _ => (c =? 63)%N || (c =? 47)%N
  end.

End StockIdSpec.

Module ValidationSpec.

(** After trimming, [key] is [prefix] followed by ten or more code units
    of the class [cs]. *)
Definition keyShape (prefix : jsstring) (cs : charset) (key : jsstring) : Prop :=
  exists body,
    trim key = prefix ++ body
    /\ (10 <= List.length body)%nat
    /\ forallb (in_charset cs) body = true.

End ValidationSpec.

(** What the vendors answer, as the adapters read it. *)
Module VendorSpec.
Import Effects AIProvider.

(** The text of an analysis answer of OpenAI:
    [data.choices[0].message.content]. *)
Definition openaiText (answer : AxiosResult OpenAIData.Data) : option jsstring :=
  match answer with
  | Resolved response => OpenAIProvider.firstContent response
  | Rejected _ _ => None
  end.

(** The text of an analysis answer of Gemini:
    [data.candidates[0].content.parts[0].text]. *)
Definition geminiText (answer : AxiosResult GeminiData.Data) : option jsstring :=
  match answer with
  | Resolved (Some data) =>
      match GeminiData.candidates data with
      | Some (candidate :: _) =>
          match GeminiData.content candidate with
          | Some c =>
              match GeminiData.parts c with
              | Some (part :: _) => GeminiData.text part
              | _ => None
              end
          | None => None
          end
      | _ => None
      end
  | _ => None
  end.

(** The text of an analysis answer of Claude: [data.content[0].text]
    when that block has the type [text]. *)
Definition claudeText (answer : AxiosResult ClaudeData.Data) : option jsstring :=
  match answer with
  | Resolved (Some data) =>
      match ClaudeData.content data with
      | Some (block :: _) =>
          if str_is (ClaudeData.type block) (js "text")
          then ClaudeData.text block
          else None
      | _ => None
      end
  | _ => None
  end.

(** The request an analysis through [provider] sends first. *)
Definition analysisCall (provider apiKey : jsstring) : HttpCall :=
  if eqs provider (js "gemini")
  then GeminiProvider.generateCall (js "gemini-pro-vision") apiKey
  else if eqs provider (js "claude")
  then ClaudeProvider.messagesCall apiKey
  else OpenAIProvider.chatCall apiKey.

(** The text the vendor of [provider] answers to the analysis request
    sent as request number [n]. *)
Definition vendorText (w : World) (n : nat) (provider apiKey : jsstring)
  : option jsstring :=
  if eqs provider (js "gemini")
  then geminiText (geminiGenerate w n (analysisCall provider apiKey))
  else if eqs provider (js "claude")
  then claudeText (claudeMessages w n (analysisCall provider apiKey))
  else openaiText (openaiChat w n (analysisCall provider apiKey)).

(** The prompt [generatePrompt] is to answer: the trimmed text of the
    vendor, when the provider is registered, key and image are present
    and the text is not empty. *)
Definition promptOf (w : World) (n : nat) (provider apiKey : jsstring)
           (request : AIAnalysisRequest) : option jsstring :=
  match get AIProviderManager.providers provider with
  | None => None
  | Some _ =>
      if truthy (trim apiKey) && truthy (imageBase64 request)
      then match vendorText w n provider apiKey with
           | Some text => if truthy text then Some (trim text) else None
           | None => None
           end
      else None
  end.

(** The request a key validation through [provider] sends. *)
Definition validationCall (provider apiKey : jsstring) : HttpCall :=
  if eqs provider (js "gemini")
  then GeminiProvider.generateCall (js "gemini-pro") apiKey
  else if eqs provider (js "claude")
  then ClaudeProvider.messagesCall apiKey
  else OpenAIProvider.chatCall apiKey.

Definition resolved {D} (answer : AxiosResult D) : bool :=
  match answer with Resolved _ => true | Rejected _ _ => false end.

(** The vendor of [provider] resolves the validation request sent as
    request number [n]. *)
Definition vendorAccepts (w : World) (n : nat) (provider apiKey : jsstring) : bool :=
  if eqs provider (js "gemini")
  then resolved (geminiGenerate w n (validationCall provider apiKey))
  else if eqs provider (js "claude")
  then resolved (claudeMessages w n (validationCall provider apiKey))
  else resolved (openaiChat w n (validationCall provider apiKey)).

(** The base address of the vendor of [provider]. *)
Definition vendorBase (provider : jsstring) : jsstring :=
  if eqs provider (js "gemini")
  then js "https://generativelanguage.googleapis.com/"
  else if eqs provider (js "claude")
  then js "https://api.anthropic.com/"
  else js "https://api.openai.com/".

(** [call] carries [apiKey] and goes to the vendor of [provider]. *)
Definition toVendor (provider apiKey : jsstring) (call : HttpCall) : Prop :=
  credential call = apiKey
  /\ starts_with (vendorBase provider) (url call) = true.

(** A variation as the OpenAI adapter keeps it: trimmed and longer than
    ten code units. *)
Definition keptVariation (v : jsstring) : Prop :=
  (10 < List.length v)%nat
  /\ TextSpec.head_ok TextSpec.nonspace v /\ TextSpec.last_ok TextSpec.nonspace v.

(** The outcome of an analysis, read off the vendor's first answer:
    with a non-empty text the adapter returns its trimmed text after
    further requests [new]; otherwise it throws an [Error] after one
    request. *)
Definition analysed (run : completion Generated * State) (s : State)
           (call : HttpCall) (text : option jsstring)
           (more : list HttpCall -> Generated -> Prop) : Prop :=
  match text with
  | Some t =>
      if truthy t then
        exists result new,
          run = (Normal result,
                 {| calls := calls s ++ call :: new; ticks := ticks s |})
          /\ AIProvider.prompt result = trim t
          /\ ManagerSpec.inRange result
          /\ more new result
      else exists m, run = (Throw (Error m), sent call s)
  | None => exists m, run = (Throw (Error m), sent call s)
  end.

(** What the four adapters have in common. *)
Definition commonly (provider apiKey : jsstring)
           (new : list HttpCall) (result : Generated) : Prop :=
  (new = [] \/ new = [analysisCall provider apiKey])
  /\ exists v, AIProvider.variations result = Some v.

End VendorSpec.

Module BrandSpec.

(** Every match of [r] reaches the end of the text. *)
Fixpoint ends_eol (r : regex) : bool :=
  match r with
  | Eol => true
  | Seq _ r2 => ends_eol r2
  | _ => false
  end.

End BrandSpec.

Module MoreFixtures.
Import Types Dom Effects.

(** A rendered Freepik page. *)
Definition foxDocument : Root :=
  fun selector =>
    if eqs selector (js "h1") then
      [ {| attrs := []; textContent := js " Red fox | Freepik ";
           innerHTML := js " Red fox | Freepik " |} ]
    else if eqs selector (js "meta[name=" ++ quoted (js "description") ++ js "]") then
      [ {| attrs := [(js "content", js "A fox in the snow")]; textContent := [];
           innerHTML := [] |} ]
    else if eqs selector (js ".preview-image img") then
      [ {| attrs := [(js "src", js "https://img.freepik.com/fox.jpg")];
           textContent := []; innerHTML := [] |} ]
    else if eqs selector (js ".tag") then
      [ {| attrs := []; textContent := js "fox"; innerHTML := js "fox" |};
        {| attrs := []; textContent := js " snow "; innerHTML := js " snow " |} ]
    else if eqs selector (js ".breadcrumb a:last-child") then
      [ {| attrs := []; textContent := js "Animals"; innerHTML := js "Animals" |} ]
    else [].

(** What the Freepik scraper makes of [foxDocument] for the URL
    [https://www.freepik.com/photo/fox-123456] at the second reading of
    the clock of [servingWorld]. *)
Definition foxMetadata : ImageMetadata :=
  {| title := js "Red fox"; description := js "A fox in the snow";
     tags := [js "fox"; js "snow"];
     imageUrl := js "https://img.freepik.com/fox.jpg"; imageBase64 := None;
     category := js "Animals"; stockId := Some (js "123456");
     platform := js "freepik"; scrapedAt := 3 |}.

(** A world in which every URL parses as https, the browser renders
    [foxDocument], every image is a body of exactly 50MB that converts,
    and no page and no vendor can be reached otherwise. *)
Definition servingWorld : World :=
  {| clock := fun n => Z.of_nat (3 * n);
     urlProtocol := fun _ => Some (js "https:");
     pageGet := fun _ _ => PageFailed (js "offline");
     browse := fun _ => Rendered foxDocument;
     jsonParse := fun _ => None;
     imageGet := fun _ => GetBody (50 * 1024 * 1024) (Normal (js "/9j/4AAQSkZJRg=="));
     openaiChat := fun _ _ => Rejected (js "offline") None;
     geminiGenerate := fun _ _ => Rejected (js "offline") None;
     claudeMessages := fun _ _ => Rejected (js "offline") None |}.

(** A world like [servingWorld] in which no image can be fetched. *)
Definition imagelessWorld : World :=
  {| clock := fun n => Z.of_nat (3 * n);
     urlProtocol := fun _ => Some (js "https:");
     pageGet := fun _ _ => PageFailed (js "offline");
     browse := fun _ => Rendered foxDocument;
     jsonParse := fun _ => None;
     imageGet := fun _ => GetFailed (js "timeout of 30000ms exceeded");
     openaiChat := fun _ _ => Rejected (js "offline") None;
     geminiGenerate := fun _ _ => Rejected (js "offline") None;
     claudeMessages := fun _ _ => Rejected (js "offline") None |}.

End MoreFixtures.

Module VendorFixtures.
Import Effects.

Definition throttled (code : jsval) (type : jsstring) : ErrorResponse :=
  {| resp_status := 429;
     resp_data :=
       Some {| body_error :=
                 Some {| err_code := code;
                         err_type := Some type;
                         err_message := Some (js "Too many requests") |} |} |}.

(** A world in which every vendor answers with its rate-limit error. *)
Definition throttlingWorld : World :=
  {| clock := fun n => Z.of_nat n;
     urlProtocol := fun _ => None;
     pageGet := fun _ _ => PageFailed (js "offline");
     browse := fun _ => LaunchFailed (js "offline");
     jsonParse := fun _ => None;
     imageGet := fun _ => GetFailed (js "offline");
     openaiChat := fun _ _ =>
       Rejected (js "Request failed with status code 429")
                (Some (throttled (VStr (js "rate_limit_exceeded")) (js "requests")));
     geminiGenerate := fun _ _ =>
       Rejected (js "Request failed with status code 429")
                (Some (throttled (VNum 429) (js "RESOURCE_EXHAUSTED")));
     claudeMessages := fun _ _ =>
       Rejected (js "Request failed with status code 429")
                (Some (throttled VUndefined (js "rate_limit_error"))) |}.

End VendorFixtures.

Module BrandFixtures.
Import Dom Effects BaseScraper.

(** A page whose only title is its [title] element, with the site's
    branding. *)
Definition brandedPage : Root :=
  fun selector =>
    if eqs selector (js "title") then
      [ {| attrs := []; textContent := js " Red fox | Iconscout ";
           innerHTML := js " Red fox | Iconscout " |} ]
    else if eqs selector (js ".tag") then
      [ {| attrs := []; textContent := js "fox"; innerHTML := js "fox" |} ]
    else [].

(** A world like [bareWorld] in which every URL answers with
    [brandedPage]. *)
Definition brandedWorld : World :=
  {| clock := clock Fixtures.bareWorld;
     urlProtocol := urlProtocol Fixtures.bareWorld;
     pageGet := fun _ _ => PageLoaded brandedPage;
     browse := browse Fixtures.bareWorld;
     jsonParse := jsonParse Fixtures.bareWorld;
     imageGet := imageGet Fixtures.bareWorld;
     openaiChat := openaiChat Fixtures.bareWorld;
     geminiGenerate := geminiGenerate Fixtures.bareWorld;
     claudeMessages := claudeMessages Fixtures.bareWorld |}.

End BrandFixtures.

(* ===================================================================== *)
(** * Properties *)
(* ===================================================================== *)

Unset Implicit Arguments.

Ltac chars :=
  unfold is_word, is_space, is_digit, between, SPACE in *;
  repeat rewrite ?orb_true_iff, ?andb_true_iff, ?N.leb_le, ?N.eqb_eq in *;
  lia.

(** ** Strings *)

Section Strings.
Import TextSpec.

Lemma eqs_true a b : eqs a b = true <-> a = b.
Proof. unfold eqs; destruct (jsstring_eq_dec a b); split; congruence. Qed.

Lemma eqs_refl a : eqs a a = true.
Proof. now apply eqs_true. Qed.

Lemma includes_In l x : includes l x = true <-> In x l.
Proof.
  unfold includes. rewrite existsb_exists. split.
  - intros (y & Hy & E). apply eqs_true in E. now subst.
  - intros H. exists x. split; [assumption | apply eqs_refl].
Qed.

Lemma truthy_true s : truthy s = true <-> s <> [].
Proof. destruct s; simpl; split; congruence. Qed.

Lemma word_not_space c : is_word c = true -> is_space c = false.
Proof.
  intros H. destruct (is_space c) eqn:E; [exfalso | reflexivity]. chars.
Qed.

Lemma span_len_le p s : (span_len p s <= List.length s)%nat.
Proof. induction s as [|c s IH]; simpl; [lia|]. destruct (p c); simpl; lia. Qed.

Lemma span_len_all p s : span_len p s = List.length s <-> forallb p s = true.
Proof.
  induction s as [|c s IH]; simpl; [tauto|].
  destruct (p c); simpl.
  - rewrite <- IH. split; lia.
  - split; [lia | discriminate].
Qed.

Lemma skipn_span p s : skipn (span_len p s) s = dropWhile p s.
Proof. induction s as [|c s IH]; simpl; [reflexivity|]. now destruct (p c). Qed.

Lemma dropWhile_id p s :
  head_ok (fun c => negb (p c)) s -> dropWhile p s = s.
Proof.
  destruct s as [|c s]; simpl; [reflexivity|].
  intros H. apply negb_true_iff in H. now rewrite H.
Qed.

Lemma dropWhile_suffix p s : exists pre, s = pre ++ dropWhile p s.
Proof.
  induction s as [|c s [pre IH]]; simpl.
  - now exists [].
  - destruct (p c).
    + exists (c :: pre). simpl. now f_equal.
    + now exists [].
Qed.

Lemma trim_id t : head_ok nonspace t -> last_ok nonspace t -> trim t = t.
Proof.
  intros Hh Hl. unfold trim, trimEnd, trimStart.
  rewrite (dropWhile_id is_space t Hh).
  rewrite dropWhile_id; [apply rev_involutive|].
  destruct (rev t) as [|c r] eqn:E; [exact I|]. simpl.
  apply (Hl (rev r) c). rewrite <- (rev_involutive t), E. reflexivity.
Qed.

Lemma starts_with_app p s : starts_with p s = true <-> exists rest, s = p ++ rest.
Proof.
  revert s. induction p as [|a p IH]; intros s; simpl.
  - split; [intros _; now exists s | trivial].
  - destruct s as [|b s]; [split; [discriminate | intros [r Hr]; discriminate]|].
    rewrite andb_true_iff, N.eqb_eq, IH. split.
    + intros [-> [rest ->]]. now exists rest.
    + intros [rest E]. injection E as -> ->. split; [reflexivity | now exists rest].
Qed.

Lemma is_infix_sound s t : is_infix s t = true -> infix s t.
Proof.
  induction t as [|c t IH]; simpl; rewrite orb_true_iff.
  - intros [H|H]; [|discriminate]. apply starts_with_app in H as [rest ->].
    exists [], rest. reflexivity.
  - intros [H|H].
    + apply starts_with_app in H as [rest ->]. exists [], rest. reflexivity.
    + destruct (IH H) as (pre & post & ->). exists (c :: pre), post. reflexivity.
Qed.

Lemma last_ok_cons p c t : t <> [] -> last_ok p (c :: t) <-> last_ok p t.
Proof.
  intros Ht. split; intros H pre x E.
  - apply (H (c :: pre) x). simpl. now f_equal.
  - destruct pre as [|y pre]; simpl in E.
    + injection E as _ E. congruence.
    + injection E as _ E. now apply (H pre x).
Qed.

Lemma last_ok_single p c : last_ok p [c] <-> p c = true.
Proof.
  split; intros H.
  - now apply (H [] c).
  - intros pre x E. destruct pre as [|y pre]; simpl in E.
    + now injection E as <-.
    + injection E as _ E. now destruct pre.
Qed.

Lemma head_word_nonspace t : head_ok is_word t -> head_ok nonspace t.
Proof.
  destruct t as [|c t]; simpl; [trivial|].
  intros H. unfold nonspace. now rewrite (word_not_space c H).
Qed.

Lemma last_word_nonspace t : last_ok is_word t -> last_ok nonspace t.
Proof.
  intros H pre c E. unfold nonspace. now rewrite (word_not_space c (H pre c E)).
Qed.

Lemma spaced_app_r pre t : spaced (pre ++ t) -> spaced t.
Proof. induction pre as [|c pre IH]; simpl; [trivial|]. intros [_ H]. auto. Qed.

Lemma spaced_app_l t post : spaced (t ++ post) -> spaced t.
Proof.
  induction t as [|c t IH]; simpl; [trivial|].
  intros [Hc H]. split; [|auto].
  intros Hs. destruct (Hc Hs) as [-> Hn]. split; [reflexivity|].
  destruct t; [exact I | exact Hn].
Qed.

Lemma spaced_no_adjacent t pre a b post :
  spaced t -> t = pre ++ a :: b :: post ->
  is_space a = true -> is_space b = false.
Proof.
  intros Ht -> Ha. apply spaced_app_r in Ht. destruct Ht as [Hc _].
  destruct (Hc Ha) as [_ Hb]. simpl in Hb. now apply negb_true_iff in Hb.
Qed.

End Strings.

(** ** The matcher *)

Section MatcherFacts.

Lemma downto_S n min : (min <= S n)%nat -> downto (S n) min = S n :: downto n min.
Proof.
  intros H. cbn [downto]. destruct (Nat.ltb_spec (S n) min); [lia | reflexivity].
Qed.

Lemma downto_lt n min : (n < min)%nat -> downto n min = [].
Proof.
  intros H. apply Nat.ltb_lt in H. destruct n; cbn [downto]; now rewrite H.
Qed.

Lemma replace_go_0 ci r repl start s :
  replace_go ci r repl start 0 s =
  match run ci r start s with
  | [] => match s with
          | [] => []
          | c :: s' => c :: replace_go ci r repl false 0 s'
          end
  | 0%nat :: _ =>
      repl ++ match s with
              | [] => []
              | c :: s' => c :: replace_go ci r repl false 0 s'
              end
  | S k :: _ =>
      repl ++ match s with
              | [] => []
              | _ :: s' => replace_go ci r repl false k s'
              end
  end.
Proof. destruct s; reflexivity. Qed.

(** Passing over [k] units of a match leaves the pass idle behind them. *)
Lemma replace_go_skip ci r repl start k s :
  (k <= List.length s)%nat ->
  replace_go ci r repl start k s =
  match k with
  | 0%nat => replace_go ci r repl start 0 s
  | S _ => replace_go ci r repl false 0 (skipn k s)
  end.
Proof.
  revert start s. induction k as [|k IH]; intros start s H; [reflexivity|].
  destruct s as [|c s]; simpl in H; [lia|].
  change (replace_go ci r repl start (S k) (c :: s))
    with (replace_go ci r repl false k s).
  rewrite IH by lia. destruct k; reflexivity.
Qed.

End MatcherFacts.

(** ** cleanText *)

Section CleanText.
Import TextSpec PlatformScraper.

Lemma run_spaces ci start s :
  run ci re_spaces start s = downto (span_len is_space s) 1.
Proof. reflexivity. Qed.

(** The collapsing pass is idle, or inside a run of whitespace with
    exactly the rest of the run left to pass. *)
Lemma collapse_spaced s : forall start k,
  k = 0%nat \/ k = span_len is_space s ->
  spaced (replace_go false re_spaces [SPACE] start k s)
  /\ (k = span_len is_space s ->
      head_ok nonspace (replace_go false re_spaces [SPACE] start k s)).
Proof.
  induction s as [|c s IH]; intros start k Hk.
  - destruct k; simpl; auto.
  - destruct k as [|k].
    + rewrite replace_go_0, run_spaces. simpl span_len.
      destruct (is_space c) eqn:Ec.
      * rewrite downto_S by lia. simpl app.
        destruct (IH false (span_len is_space s) (or_intror eq_refl)) as [IH1 IH2].
        split; [|discriminate].
        simpl. split; [|assumption].
        intros _. split; [reflexivity|]. now apply IH2.
      * rewrite downto_lt by lia.
        destruct (IH false 0%nat (or_introl eq_refl)) as [IH1 _].
        split.
        -- simpl. split; [congruence | assumption].
        -- intros _. simpl. unfold nonspace. now rewrite Ec.
    + destruct Hk as [Hk|Hk]; [discriminate|].
      simpl in Hk. destruct (is_space c) eqn:Ec; [|discriminate].
      injection Hk as Hk.
      change (replace_go false re_spaces [SPACE] start (S k) (c :: s))
        with (replace_go false re_spaces [SPACE] false k s).
      destruct (IH false k (or_intror Hk)) as [IH1 IH2].
      split; [assumption|]. intros _. now apply IH2.
Qed.

Lemma replace_spaces_spaced s : spaced (replace_all false re_spaces [SPACE] s).
Proof. apply (collapse_spaced s true 0%nat). now left. Qed.

Lemma replace_spaces_id t : forall start,
  spaced t -> replace_go false re_spaces [SPACE] start 0 t = t.
Proof.
  induction t as [|c t IH]; intros start Ht; [reflexivity|].
  destruct Ht as [Hc Ht].
  rewrite replace_go_0, run_spaces. simpl span_len.
  destruct (is_space c) eqn:Ec.
  - destruct (Hc eq_refl) as [-> Hn].
    assert (span_len is_space t = 0%nat) as ->.
    { destruct t as [|y t]; [reflexivity|]. simpl in *.
      apply negb_true_iff in Hn. now rewrite Hn. }
    simpl. f_equal. now apply IH.
  - simpl. f_equal. now apply IH.
Qed.

Lemma eol_after (s : jsstring) : forall n,
  (n <= List.length s)%nat ->
  flat_map (fun k => List.map (Nat.add k)
                       match skipn k s with [] => [0%nat] | _ :: _ => [] end)
           (downto n 1)
  = if ((1 <=? n) && (n =? List.length s))%nat then [n] else [].
Proof.
  induction n as [|n IH]; intros Hn; [reflexivity|].
  rewrite downto_S by lia. cbn [flat_map]. rewrite IH by lia.
  replace ((1 <=? n) && (n =? List.length s))%nat with false
    by (symmetry; apply andb_false_iff; right; apply Nat.eqb_neq; lia).
  rewrite app_nil_r. cbn [Nat.leb andb].
  destruct (Nat.eqb_spec (S n) (List.length s)) as [E|E].
  - rewrite E, skipn_all. simpl. now rewrite Nat.add_0_r.
  - destruct (skipn (S n) s) eqn:Es; [|reflexivity].
    apply (f_equal (@List.length code_unit)) in Es. rewrite length_skipn in Es.
    simpl in Es. lia.
Qed.

(** At the start of the text the edge pattern takes the leading run of
    non-word units; anywhere, it takes a run that reaches the end. *)
Lemma run_edges start s :
  run false re_edges start s =
  (if start then downto (span_len nonword s) 1 else [])
  ++ (if ((1 <=? span_len nonword s) && (span_len nonword s =? List.length s))%nat
      then [span_len nonword s] else []).
Proof.
  unfold re_edges. cbn [run].
  change (span_len (in_charset CNonWord) s) with (span_len nonword s).
  f_equal.
  - destruct start; cbn [flat_map]; [|reflexivity].
    rewrite app_nil_r, map_id. reflexivity.
  - apply eol_after, span_len_le.
Qed.

Lemma replace_edges_consume start s :
  replace_go false re_edges [] start (List.length s) s = [].
Proof.
  rewrite replace_go_skip by lia. rewrite skipn_all.
  destruct s; [destruct start|]; reflexivity.
Qed.

Lemma replace_edges_idle s :
  replace_go false re_edges [] false 0 s = stripTail s.
Proof.
  induction s as [|c s IH]; [reflexivity|].
  rewrite replace_go_0, run_edges. cbn [app stripTail].
  destruct (forallb nonword (c :: s)) eqn:Eall.
  - apply span_len_all in Eall. rewrite Eall. cbn [List.length Nat.leb andb].
    rewrite Nat.eqb_refl. cbn [app]. apply replace_edges_consume.
  - assert (span_len nonword (c :: s) <> List.length (c :: s)) as Hne.
    { intros E. apply span_len_all in E. congruence. }
    apply Nat.eqb_neq in Hne. rewrite Hne, andb_false_r. now rewrite IH.
Qed.

Lemma replace_edges_start s :
  replace_all false re_edges [] s = stripTail (dropWhile nonword s).
Proof.
  unfold replace_all. rewrite replace_go_0, run_edges.
  destruct s as [|c s]; [reflexivity|].
  cbn [span_len dropWhile]. destruct (nonword c) eqn:Ec.
  - rewrite downto_S by lia. cbn [app].
    rewrite replace_go_skip by apply span_len_le.
    rewrite <- skipn_span.
    destruct (span_len nonword s) eqn:En; apply replace_edges_idle.
  - cbn [downto Nat.ltb Nat.leb andb app].
    rewrite replace_edges_idle. cbn [stripTail forallb]. now rewrite Ec.
Qed.

Lemma stripTail_nil s : stripTail s = [] -> forallb nonword s = true.
Proof.
  destruct s as [|c s]; [reflexivity|]. cbn [stripTail].
  destruct (forallb nonword (c :: s)); [reflexivity | discriminate].
Qed.

Lemma stripTail_prefix s : exists post, s = stripTail s ++ post.
Proof.
  induction s as [|c s [post IH]]; [now exists []|].
  cbn [stripTail]. destruct (forallb nonword (c :: s)).
  - now exists (c :: s).
  - exists post. simpl. now f_equal.
Qed.

Lemma stripTail_head s : head_ok is_word s -> head_ok is_word (stripTail s).
Proof.
  destruct s as [|c s]; [trivial|]. cbn [stripTail head_ok forallb].
  intros H. unfold nonword. now rewrite H.
Qed.

Lemma stripTail_last s : last_ok is_word (stripTail s).
Proof.
  induction s as [|c s IH].
  - intros pre x E. now destruct pre.
  - cbn [stripTail]. destruct (forallb nonword (c :: s)) eqn:Eall.
    + intros pre x E. now destruct pre.
    + destruct (stripTail s) as [|y t] eqn:Et.
      * apply last_ok_single. apply stripTail_nil in Et.
        cbn [forallb] in Eall. rewrite Et, andb_true_r in Eall.
        now apply negb_false_iff in Eall.
      * now apply last_ok_cons.
Qed.

Lemma stripTail_id s : last_ok is_word s -> stripTail s = s.
Proof.
  induction s as [|c s IH]; intros Hl; [reflexivity|].
  cbn [stripTail].
  assert (forallb nonword (c :: s) = false) as ->.
  { destruct (forallb nonword (c :: s)) eqn:Eall; [exfalso | reflexivity].
    destruct (rev (c :: s)) as [|x r] eqn:Er.
    - apply (f_equal (@rev code_unit)) in Er. rewrite rev_involutive in Er.
      discriminate.
    - assert (c :: s = rev r ++ [x]) as E
        by (rewrite <- (rev_involutive (c :: s)), Er; reflexivity).
      pose proof (Hl _ _ E) as Hx.
      rewrite forallb_forall in Eall.
      assert (In x (c :: s)) as Hin by (rewrite E; apply in_or_app; right; now left).
      apply Eall in Hin. unfold nonword in Hin. now rewrite Hx in Hin. }
  f_equal. destruct s as [|y s]; [reflexivity|].
  apply IH. now apply last_ok_cons in Hl.
Qed.

Lemma dropWhile_nonword_head s : head_ok is_word (dropWhile nonword s).
Proof.
  induction s as [|c s IH]; [exact I|]. cbn [dropWhile]. unfold nonword at 1.
  destruct (is_word c) eqn:E; simpl; assumption.
Qed.

Lemma clean_fixed t : clean t -> cleanText t = t.
Proof.
  intros (Hh & Hl & Hs). unfold cleanText, replace_all at 2.
  rewrite (replace_spaces_id t true Hs), replace_edges_start.
  rewrite (dropWhile_id nonword t).
  - rewrite (stripTail_id t Hl).
    apply trim_id; [now apply head_word_nonspace | now apply last_word_nonspace].
  - destruct t as [|c t]; simpl in *; [trivial|]. unfold nonword. now rewrite Hh.
Qed.

Lemma edges_clean t : spaced t -> clean (replace_all false re_edges [] t).
Proof.
  intros Hs. rewrite replace_edges_start. repeat split.
  - apply stripTail_head, dropWhile_nonword_head.
  - apply stripTail_last.
  - destruct (dropWhile_suffix nonword t) as [pre Hpre].
    destruct (stripTail_prefix (dropWhile nonword t)) as [post Hpost].
    rewrite Hpre in Hs. apply spaced_app_r in Hs.
    rewrite Hpost in Hs. now apply spaced_app_l in Hs.
Qed.

(** The final [trim] finds nothing left to strip. *)
Lemma cleanText_edges s :
  cleanText s
  = replace_all false re_edges [] (replace_all false re_spaces [SPACE] s).
Proof.
  unfold cleanText.
  destruct (edges_clean _ (replace_spaces_spaced s)) as (Hh & Hl & _).
  apply trim_id; [now apply head_word_nonspace | now apply last_word_nonspace].
Qed.

Lemma cleanText_clean s : clean (cleanText s).
Proof. rewrite cleanText_edges. apply edges_clean, replace_spaces_spaced. Qed.

(** C10. [cleanText] is idempotent; its result neither begins nor ends
    with a non-word character, and no two whitespace characters are
    adjacent in it. *)
Theorem cleanText_idempotent_and_clean (s : jsstring) :
  cleanText (cleanText s) = cleanText s
  /\ (forall c rest, cleanText s = c :: rest -> is_word c = true)
  /\ (forall front c, cleanText s = front ++ [c] -> is_word c = true)
  /\ (forall front a b rest,
        cleanText s = front ++ a :: b :: rest ->
        ~ (is_space a = true /\ is_space b = true)).
Proof.
  pose proof (cleanText_clean s) as (Hh & Hl & Hs).
  split; [apply clean_fixed; repeat split; assumption|].
  split; [|split].
  - intros c rest E. rewrite E in Hh. exact Hh.
  - intros front c E. exact (Hl front c E).
  - intros front a b rest E [Ha Hb].
    rewrite (spaced_no_adjacent _ _ _ _ _ Hs E Ha) in Hb. discriminate.
Qed.

Lemma cleanText_idempotent_and_clean_witness :
  cleanText (js "  -- Red   fox, at	dawn!! ") = js "Red fox, at dawn"
  /\ cleanText (js "Red fox, at dawn") = js "Red fox, at dawn"
  /\ is_word 82%N = true /\ is_word 110%N = true.
Proof.
  pose proof (cleanText_idempotent_and_clean (js "  -- Red   fox, at	dawn!! "))
    as (Hidem & Hfirst & Hlast & _).
  assert (cleanText (js "  -- Red   fox, at	dawn!! ") = js "Red fox, at dawn") as E
    by (vm_compute; reflexivity).
  rewrite E in Hidem, Hfirst, Hlast.
  split; [reflexivity|]. split; [exact Hidem|]. split.
  - exact (Hfirst 82%N (js "ed fox, at dawn") eq_refl).
  - exact (Hlast (js "Red fox, at daw") 110%N eq_refl).
Defined.

End CleanText.

(** ** Selector-driven extraction *)

Section Extraction.
Import Types Dom PlatformScraper Fixtures.

Lemma selectorContent_eq dom selector :
  selectorContent dom selector =
  or_else (attr (dom selector) (js "content")) (trim (text (dom selector))).
Proof.
  unfold selectorContent. destruct (dom selector) as [|e sel]; reflexivity.
Qed.

Lemma extractWithSelectors_cons dom selector rest :
  extractWithSelectors dom (selector :: rest) =
  if truthy (selectorContent dom selector)
  then selectorContent dom selector
  else extractWithSelectors dom rest.
Proof.
  cbn [extractWithSelectors]. unfold selectorContent.
  destruct (0 <? List.length (dom selector))%nat; reflexivity.
Qed.

Lemma extractWithSelectors_skip dom before rest :
  (forall s, In s before -> selectorContent dom s = []) ->
  extractWithSelectors dom (before ++ rest) = extractWithSelectors dom rest.
Proof.
  induction before as [|b before IH]; intros H; [reflexivity|].
  cbn [app]. rewrite extractWithSelectors_cons.
  rewrite (H b (or_introl eq_refl)). cbn [truthy].
  apply IH. intros s Hs. apply H. now right.
Qed.

(** C2. Scalar-field extraction returns what the first selector with
    non-empty content yields, whatever the later selectors match; a
    selector yields the [content] attribute when that is non-empty and the
    trimmed text otherwise; without any yielding selector the result is
    the empty string. *)
Theorem extractWithSelectors_first_content (dom : Root) (selectors : list jsstring) :
  (forall selector,
      selectorContent dom selector =
      match attr (dom selector) (js "content") with
      | Some c => if truthy c then c else trim (text (dom selector))
      | None => trim (text (dom selector))
      end)
  /\ (forall before selector after,
        selectors = before ++ selector :: after ->
        (forall s, In s before -> selectorContent dom s = []) ->
        selectorContent dom selector <> [] ->
        extractWithSelectors dom selectors = selectorContent dom selector)
  /\ ((forall s, In s selectors -> selectorContent dom s = []) ->
      extractWithSelectors dom selectors = []).
Proof.
  split; [|split].
  - intros selector. apply selectorContent_eq.
  - intros before selector after -> Hbefore Hsel.
    rewrite (extractWithSelectors_skip _ _ _ Hbefore), extractWithSelectors_cons.
    apply truthy_true in Hsel. now rewrite Hsel.
  - intros H. rewrite <- (app_nil_r selectors).
    now rewrite (extractWithSelectors_skip _ _ _ H).
Qed.

Lemma extractWithSelectors_first_content_witness :
  extractWithSelectors titledPage
    (sel_title (selectors IconscoutScraper.platformInfo)) = js "Red fox"
  /\ extractWithSelectors titledPage [js ".asset-title"] = [].
Proof.
  pose proof (extractWithSelectors_first_content titledPage
                (sel_title (selectors IconscoutScraper.platformInfo)))
    as (_ & Hfirst & _).
  pose proof (extractWithSelectors_first_content titledPage [js ".asset-title"])
    as (_ & _ & Hnone).
  split.
  - rewrite (Hfirst [js "h1"]
               (js "meta[property=" ++ quoted (js "og:title") ++ js "]")
               [js ".asset-title"; js "title"]).
    + reflexivity.
    + reflexivity.
    + intros s [<-|[]]. reflexivity.
    + discriminate.
  - apply Hnone. intros s [<-|[]]. reflexivity.
Defined.

Lemma pushTag_NoDup results el : NoDup results -> NoDup (pushTag results el).
Proof.
  intros H. unfold pushTag.
  destruct (truthy (trim (textContent el))); cbn [andb]; [|assumption].
  destruct (includes results (trim (textContent el))) eqn:E; cbn [negb]; [assumption|].
  apply NoDup_app; [assumption | repeat constructor; intros [] | ].
  intros x Hx [<-|[]].
  apply includes_In in Hx. congruence.
Qed.

Lemma fold_pushTag_NoDup els : forall results,
  NoDup results -> NoDup (fold_left pushTag els results).
Proof.
  induction els as [|el els IH]; intros results H; [assumption|].
  cbn [fold_left]. apply IH. now apply pushTag_NoDup.
Qed.

(** The raw tag list never repeats a text. *)
Lemma extractArrayWithSelectors_NoDup dom selectors :
  NoDup (extractArrayWithSelectors dom selectors).
Proof.
  unfold extractArrayWithSelectors.
  assert (forall results, NoDup results ->
            NoDup (fold_left (fun results selector =>
                                fold_left pushTag (dom selector) results)
                             selectors results)) as H.
  { induction selectors as [|sel selectors IH]; intros results Hr; [assumption|].
    cbn [fold_left]. apply IH. now apply fold_pushTag_NoDup. }
  apply H. constructor.
Qed.

(** C3. On a page whose keyword elements read [sunset,] and [sunset],
    the raw tag list is duplicate-free, but the [tags] field of the
    extracted metadata is [sunset; sunset]: cleaning runs after the
    deduplication and maps both texts to the same tag. *)
Theorem genericTags_duplicate_after_cleaning
        (extractStockId : jsstring -> jsstring) (url : jsstring) (now : Z) :
  extractArrayWithSelectors keywordPage
    (sel_tags (selectors IconscoutScraper.platformInfo))
  = [js "sunset,"; js "sunset"]
  /\ tags (extractGenericMetadata extractStockId IconscoutScraper.platformInfo
             keywordPage url now)
     = [js "sunset"; js "sunset"]
  /\ ~ NoDup (tags (extractGenericMetadata extractStockId
                      IconscoutScraper.platformInfo keywordPage url now)).
Proof.
  assert (tags (extractGenericMetadata extractStockId IconscoutScraper.platformInfo
                  keywordPage url now) = [js "sunset"; js "sunset"]) as E
    by (vm_compute; reflexivity).
  split; [vm_compute; reflexivity|]. split; [exact E|].
  rewrite E. intros H. inversion H as [|x l Hin _]. apply Hin. now left.
Qed.

End Extraction.

(** ** Platform identification *)

Section Identify.
Import Types Effects WebScrapingEngine TextSpec EngineSpec.

Lemma prefix_ci_spec a s :
  prefix_ci a s = true <-> exists block rest, s = block ++ rest /\ ci_eq a block.
Proof.
  revert s. induction a as [|p a IH]; intros s; simpl.
  - split; [|trivial]. intros _. exists [], s. split; [reflexivity | constructor].
  - destruct s as [|c s].
    + split; [discriminate|]. intros (block & rest & E & H).
      inversion H; subst. discriminate.
    + rewrite andb_true_iff, IH. unfold chr_match. rewrite N.eqb_eq. split.
      * intros [Hc (block & rest & -> & H)].
        exists (c :: block), rest. split; [reflexivity | now constructor].
      * intros (block & rest & E & H). inversion H as [|? y ? l Hc Hl]; subst.
        injection E as <- ->. split; [assumption|]. now exists l, rest.
Qed.

Lemma run_lit a : forall start s,
  run true (lit a) start s = if prefix_ci a s then [List.length a] else [].
Proof.
  induction a as [|p a IH]; intros start s; [reflexivity|].
  cbn [lit run prefix_ci]. destruct s as [|c s]; [reflexivity|].
  destruct (chr_match true p c); [|reflexivity].
  cbn [flat_map skipn andb]. rewrite IH, app_nil_r.
  destruct (prefix_ci a s); reflexivity.
Qed.

Lemma run_alternation rest : forall a start s,
  run true (alternation a rest) start s = []
  <-> existsb (fun alt => prefix_ci alt s) (a :: rest) = false.
Proof.
  induction rest as [|b rest IH]; intros a start s.
  - cbn [alternation existsb]. rewrite run_lit, orb_false_r.
    destruct (prefix_ci a s); split; congruence.
  - cbn [alternation run]. rewrite run_lit.
    change (existsb (fun alt => prefix_ci alt s) (a :: b :: rest))
      with (prefix_ci a s || existsb (fun alt => prefix_ci alt s) (b :: rest)).
    destruct (prefix_ci a s); cbn [orb app].
    + split; discriminate.
    + apply IH.
Qed.

Lemma search_pattern p : forall start s,
  search true (pattern_regex p) start s = true
  <-> exists pre suf, s = pre ++ suf /\ matches_here p suf = true.
Proof.
  intros start s. revert start. induction s as [|c s IH]; intros start.
  - cbn [search]. destruct (run true (pattern_regex p) start []) eqn:E.
    + apply run_alternation in E. split; [discriminate|].
      intros (pre & suf & Hs & Hm). symmetry in Hs. apply app_eq_nil in Hs as [-> ->].
      unfold matches_here in Hm. congruence.
    + split; [|reflexivity]. intros _. exists [], []. split; [reflexivity|].
      unfold matches_here.
      destruct (existsb _ _) eqn:Em; [reflexivity|].
      apply (run_alternation (snd p) (fst p) start []) in Em.
      unfold pattern_regex in E. congruence.
  - cbn [search]. destruct (run true (pattern_regex p) start (c :: s)) eqn:E.
    + rewrite IH. apply run_alternation in E. split.
      * intros (pre & suf & -> & Hm). now exists (c :: pre), suf.
      * intros (pre & suf & Hs & Hm). destruct pre as [|x pre].
        -- simpl in Hs. subst suf. unfold matches_here in Hm. congruence.
        -- injection Hs as <- ->. now exists pre, suf.
    + split; [|reflexivity]. intros _. exists [], (c :: s). split; [reflexivity|].
      unfold matches_here.
      destruct (existsb _ _) eqn:Em; [reflexivity|].
      apply (run_alternation (snd p) (fst p) start (c :: s)) in Em.
      unfold pattern_regex in E. congruence.
Qed.

Lemma test_pattern_occurs p url :
  test true (pattern_regex p) url = true <-> pattern_occurs p url.
Proof.
  unfold test. rewrite search_pattern. unfold pattern_occurs, occurs, matches_here.
  split.
  - intros (pre & suf & -> & Hm). apply existsb_exists in Hm as (alt & Hin & Hp).
    apply prefix_ci_spec in Hp as (block & rest & -> & Hci).
    exists alt. split; [assumption|]. now exists pre, block, rest.
  - intros (alt & Hin & pre & block & post & -> & Hci).
    exists pre, (block ++ post). split; [reflexivity|].
    apply existsb_exists. exists alt. split; [assumption|].
    apply prefix_ci_spec. now exists block, post.
Qed.

Lemma firstMatch_found url : forall table before platform pattern after,
  table = before ++ (platform, pattern) :: after ->
  test true (pattern_regex pattern) url = true ->
  (forall p, In p before -> test true (pattern_regex (snd p)) url = false) ->
  firstMatch table url = Some platform.
Proof.
  intros table before. revert table.
  induction before as [|[id0 pat0] before IH]; intros table platform pattern after -> Ht Hb.
  - cbn [app firstMatch]. now rewrite Ht.
  - cbn [app firstMatch].
    pose proof (Hb (id0, pat0) (or_introl eq_refl)) as H0. cbn [snd] in H0. rewrite H0.
    eapply IH; [reflexivity | assumption |]. intros p Hp. apply Hb. now right.
Qed.

Lemma firstMatch_none url table :
  firstMatch table url = None
  <-> forall p, In p table -> test true (pattern_regex (snd p)) url = false.
Proof.
  induction table as [|[id0 pat0] table IH]; cbn [firstMatch].
  - split; [intros _ p [] | reflexivity].
  - destruct (test true (pattern_regex pat0) url) eqn:E.
    + split; [discriminate|]. intros H. specialize (H (id0, pat0) (or_introl eq_refl)).
      simpl in H. congruence.
    + rewrite IH. split.
      * intros H p [<-|Hp]; [exact E | now apply H].
      * intros H p Hp. apply H. now right.
Qed.

Lemma not_occurs_test p url :
  ~ pattern_occurs p url <-> test true (pattern_regex p) url = false.
Proof.
  rewrite <- test_pattern_occurs. destruct (test true (pattern_regex p) url); split; congruence.
Qed.

(** X30. What [identifyPlatform] computes. The patterns are tried in
    table order against the whole URL text: the first platform one of
    whose domain texts occurs anywhere in the URL, in any letter case, is
    returned; the call fails exactly when no domain text occurs anywhere
    in the URL, and the message of that failure names every supported
    domain. *)
Theorem identifyPlatform_first_occurrence (url : jsstring) :
  (forall before platform pattern after,
      platformPatterns = before ++ (platform, pattern) :: after ->
      pattern_occurs pattern url ->
      (forall p, In p before -> ~ pattern_occurs (snd p) url) ->
      identifyPlatform url = Normal platform)
  /\ ((forall p, In p platformPatterns -> ~ pattern_occurs (snd p) url)
      <-> identifyPlatform url = Throw (Error unsupportedMessage))
  /\ (forall sp, In sp getSupportedPlatforms ->
        infix (sp_domain sp) unsupportedMessage
        /\ exists pattern,
             get platformPatterns (sp_id sp) = Some pattern
             /\ In (sp_domain sp) (fst pattern :: snd pattern)).
Proof.
  split; [|split].
  - intros before platform pattern after Htable Hocc Hbefore.
    unfold identifyPlatform.
    rewrite (@firstMatch_found url _ before platform pattern after Htable);
      [reflexivity | now apply test_pattern_occurs |].
    intros p Hp. apply not_occurs_test. now apply Hbefore.
  - unfold identifyPlatform. split.
    + intros H.
      assert (firstMatch platformPatterns url = None) as ->.
      { apply firstMatch_none. intros p Hp. apply not_occurs_test. now apply H. }
      reflexivity.
    + intros H p Hp. apply not_occurs_test.
      destruct (firstMatch platformPatterns url) eqn:E; [discriminate|].
      now apply (proj1 (firstMatch_none url platformPatterns) E).
  - intros sp Hsp. split.
    + apply is_infix_sound.
      assert (forallb (fun sp => is_infix (sp_domain sp) unsupportedMessage)
                      getSupportedPlatforms = true) as Hall by (vm_compute; reflexivity).
      rewrite forallb_forall in Hall. now apply Hall.
    + cbn in Hsp.
      repeat (destruct Hsp as [<-|Hsp];
              [eexists; split; [vm_compute; reflexivity|]; simpl; auto|]).
      destruct Hsp.
Qed.

Lemma identifyPlatform_first_occurrence_witness :
  identifyPlatform (js "https://stock.adobe.com/images/red-fox/123456")
  = Normal (js "adobe-stock")
  /\ identifyPlatform (js "https://unknown.org/photo/1")
     = Throw (Error unsupportedMessage).
Proof.
  split.
  - apply (proj1 (identifyPlatform_first_occurrence
                    (js "https://stock.adobe.com/images/red-fox/123456"))
             [ (js "shutterstock", (js "shutterstock.com", []));
               (js "freepik", (js "freepik.com", [])) ]
             (js "adobe-stock") (js "stock.adobe.com", [])
             (skipn 3 platformPatterns)).
    + reflexivity.
    + apply test_pattern_occurs. vm_compute. reflexivity.
    + intros p [<-|[<-|[]]]; apply not_occurs_test; vm_compute; reflexivity.
  - apply (proj1 (proj2 (identifyPlatform_first_occurrence
                           (js "https://unknown.org/photo/1")))).
    intros p Hp. apply not_occurs_test.
    assert (forallb (fun p => negb (test true (pattern_regex (snd p))
                                      (js "https://unknown.org/photo/1")))
                    platformPatterns = true) as Hall by (vm_compute; reflexivity).
    rewrite forallb_forall in Hall. apply negb_true_iff. now apply Hall.
Defined.

(** C1. [identifyPlatform] at two URLs whose host does not decide the
    answer. The host of the first URL is on [freepik.com], yet the call
    answers [shutterstock], because that text occurs in the query; the
    host of the second URL matches no pattern, yet the call does not
    fail with the unsupported-platform error. *)
Lemma identifyPlatform_host_counterexample :
  (hostOf (js "https://www.freepik.com/photos?utm_source=shutterstock.com")
   = Some (js "www.freepik.com")
   /\ onDomain (js "www.freepik.com") (js "freepik.com")
   /\ identifyPlatform (js "https://www.freepik.com/photos?utm_source=shutterstock.com")
      = Normal (js "shutterstock")
   /\ js "shutterstock" <> js "freepik")
  /\ (hostOf (js "https://unknown.org/?ref=shutterstock.com")
      = Some (js "unknown.org")
      /\ forallb (fun p => negb (test true (pattern_regex (snd p)) (js "unknown.org")))
                 platformPatterns = true
      /\ identifyPlatform (js "https://unknown.org/?ref=shutterstock.com")
         = Normal (js "shutterstock")).
Proof.
  split; [split; [|split; [|split]] | split; [|split]];
    try (vm_compute; reflexivity).
  - right. exists (js "www"). reflexivity.
  - discriminate.
Qed.

End Identify.

(** ** The scraping engine *)

Section Engine.
Import Types Effects Effects.Notations WebScrapingEngine EngineSpec Fixtures.

Lemma downloadAndConvertImage_fails w s imageUrl :
  imageFails w imageUrl ->
  exists e, downloadAndConvertImage imageUrl w s = (Throw e, sent (imageCall imageUrl) s).
Proof.
  unfold imageFails, downloadAndConvertImage, try_catch, fetchAndProcess, throw.
  destruct (imageGet w imageUrl) as [m|len processed]; intros H.
  - eexists. reflexivity.
  - destruct H as [H|[e ->]].
    + apply N.ltb_lt in H. rewrite H. eexists. reflexivity.
    + destruct (maxContentLength <? len)%N; eexists; reflexivity.
Qed.

Lemma attachImage_fails w s metadata :
  imageUrl metadata <> [] ->
  imageFails w (imageUrl metadata) ->
  attachImage metadata w s = (Normal metadata, sent (imageCall (imageUrl metadata)) s).
Proof.
  intros Hurl Hfail. unfold attachImage.
  apply truthy_true in Hurl. rewrite Hurl.
  destruct (downloadAndConvertImage_fails w s _ Hfail) as [e He].
  unfold try_catch, bind. rewrite He. reflexivity.
Qed.

Lemma attachImage_total w s metadata :
  exists metadata' s',
    attachImage metadata w s = (Normal metadata', s')
    /\ title metadata' = title metadata
    /\ imageUrl metadata' = imageUrl metadata.
Proof.
  unfold attachImage. destruct (truthy (imageUrl metadata)).
  - unfold try_catch, bind, ret.
    destruct (downloadAndConvertImage (imageUrl metadata) w s) as [[b|e] s'];
      eexists; eexists; (split; [reflexivity | split; reflexivity]).
  - eexists; eexists; (split; [reflexivity | split; reflexivity]).
Qed.

(** The run of [scrapeStockURL], step by step. *)
Lemma scrapeStockURL_run w s url :
  scrapeStockURL url w s =
  let startTime := clock w (ticks s) in
  if negb (validProtocol w url)
  then failed w startTime (js "Invalid URL provided") (tick s)
  else
    match identifyPlatform url with
    | Throw e => failed w startTime (exn_message e) (tick s)
    | Normal platform =>
        match get platformScrapers platform with
        | None =>
            failed w startTime
                   (js "Unsupported platform: " ++ platform
                      ++ js ". Supported platforms: "
                      ++ join (js ", ") (keys platformScrapers))
                   (tick s)
        | Some scraper =>
            match scraper url w (tick s) with
            | (Throw e, s1) => failed w startTime (exn_message e) s1
            | (Normal metadata, s1) =>
                if negb (truthy (title metadata)) && negb (truthy (imageUrl metadata))
                then failed w startTime noMeaningfulData s1
                else
                  match attachImage metadata w s1 with
                  | (Throw e, s2) => failed w startTime (exn_message e) s2
                  | (Normal metadata', s2) =>
                      (Normal {| success := true;
                                 data := Some metadata';
                                 error := None;
                                 processingTime := clock w (ticks s2) - startTime |},
                       tick s2)
                  end
            end
        end
    end.
Proof.
  unfold scrapeStockURL, isValidURL, failed.
  unfold bind, try_catch, now, ask, ret, throw, lift.
  cbv beta iota zeta.
  destruct (validProtocol w url); cbn [negb]; cbv beta iota; [|reflexivity].
  destruct (identifyPlatform url) as [platform|e]; [|reflexivity].
  destruct (get platformScrapers platform) as [scraper|]; [|reflexivity].
  destruct (scraper url w _) as [[metadata|e] s1]; [|reflexivity].
  destruct (negb (truthy (title metadata)) && negb (truthy (imageUrl metadata)));
    [reflexivity|].
  destruct (attachImage metadata w s1) as [[metadata'|e] s2]; reflexivity.
Qed.

(** C4. When extraction returns metadata whose title and image URL are
    both empty, [scrapeStockURL] answers with the failure envelope, although
    the page was fetched; and an answer with [success: true] carries
    metadata whose title or image URL is non-empty. *)
Theorem scrapeStockURL_needs_title_or_image (w : World) (s : State) (url : jsstring) :
  (forall metadata s1,
      extracted w s url metadata s1 ->
      title metadata = [] -> imageUrl metadata = [] ->
      scrapeStockURL url w s = failed w (clock w (ticks s)) noMeaningfulData s1)
  /\ (forall result s',
        scrapeStockURL url w s = (Normal result, s') ->
        success result = true ->
        exists metadata,
          data result = Some metadata
          /\ (title metadata <> [] \/ imageUrl metadata <> [])).
Proof.
  split.
  - intros metadata s1 (Hvalid & platform & scraper & Hid & Hget & Hrun) Ht Hi.
    rewrite scrapeStockURL_run. cbv zeta.
    rewrite Hvalid, Hid, Hget, Hrun, Ht, Hi. reflexivity.
  - intros result s'. rewrite scrapeStockURL_run. cbv zeta. unfold failed.
    destruct (negb (validProtocol w url)); [intros [= <- _]; discriminate|].
    destruct (identifyPlatform url) as [platform|e]; [|intros [= <- _]; discriminate].
    destruct (get platformScrapers platform) as [scraper|];
      [|intros [= <- _]; discriminate].
    destruct (scraper url w (tick s)) as [[metadata|e] s1];
      [|intros [= <- _]; discriminate].
    destruct (negb (truthy (title metadata)) && negb (truthy (imageUrl metadata))) eqn:E;
      [intros [= <- _]; discriminate|].
    destruct (attachImage_total w s1 metadata) as (metadata' & s2 & -> & Ht & Hi).
    intros [= <- _] _. exists metadata'. split; [reflexivity|].
    rewrite Ht, Hi. apply andb_false_iff in E.
    destruct E as [E|E]; apply negb_false_iff, truthy_true in E; auto.
Qed.

Lemma scrapeStockURL_needs_title_or_image_witness :
  scrapeStockURL (js "https://iconscout.com/icon/fox") bareWorld initial
  = failed bareWorld 0 noMeaningfulData
           (tick (sent (BaseScraper.pageCall (js "https://iconscout.com/icon/fox"))
                       (tick initial)))
  /\ exists metadata,
       title metadata <> [] \/ imageUrl metadata <> [].
Proof.
  split.
  - apply (proj1 (scrapeStockURL_needs_title_or_image bareWorld initial
                    (js "https://iconscout.com/icon/fox"))
             bareMetadata
             (tick (sent (BaseScraper.pageCall (js "https://iconscout.com/icon/fox"))
                         (tick initial)))).
    + split; [reflexivity|].
      exists (js "iconscout"), IconscoutExtract.extractMetadata.
      split; [vm_compute; reflexivity|].
      split; [reflexivity | vm_compute; reflexivity].
    + reflexivity.
    + reflexivity.
  - destruct (scrapeStockURL (js "https://example.com/photo") bareWorld initial)
      as [[result|e] s'] eqn:E; [|vm_compute in E; discriminate].
    destruct (proj2 (scrapeStockURL_needs_title_or_image bareWorld initial
                       (js "https://example.com/photo")) result s' E)
      as (metadata & _ & H).
    + vm_compute in E. injection E as <- _. reflexivity.
    + now exists metadata.
Defined.

(** C5, as the code has it. When extraction produced metadata with an
    image URL and the download or the processing of the image fails, the
    size ceiling included, [scrapeStockURL] answers [success: true] with
    the metadata exactly as the extractor produced it: it adds no
    [imageBase64]. Every other failure is fatal: an answer with
    [success: true] means that extraction ran and found a title or an
    image URL. *)
Theorem scrapeStockURL_image_failure_not_fatal (w : World) (s : State) (url : jsstring) :
  (forall metadata s1,
      extracted w s url metadata s1 ->
      imageUrl metadata <> [] ->
      imageFails w (imageUrl metadata) ->
      scrapeStockURL url w s
      = (Normal {| success := true;
                   data := Some metadata;
                   error := None;
                   processingTime := clock w (ticks s1) - clock w (ticks s) |},
         tick (sent (imageCall (imageUrl metadata)) s1)))
  /\ (forall result s',
        scrapeStockURL url w s = (Normal result, s') ->
        success result = true ->
        exists metadata s1,
          extracted w s url metadata s1
          /\ (title metadata <> [] \/ imageUrl metadata <> [])).
Proof.
  split.
  - intros metadata s1 (Hvalid & platform & scraper & Hid & Hget & Hrun) Hurl Hfail.
    rewrite scrapeStockURL_run. cbv zeta.
    rewrite Hvalid, Hid, Hget, Hrun. cbn [negb].
    rewrite (proj2 (truthy_true _) Hurl), andb_false_r.
    rewrite (attachImage_fails w s1 metadata Hurl Hfail). reflexivity.
  - intros result s'. rewrite scrapeStockURL_run. cbv zeta. unfold failed, extracted.
    destruct (validProtocol w url); cbn [negb]; [|intros [= <- _]; discriminate].
    destruct (identifyPlatform url) as [platform|e]; [|intros [= <- _]; discriminate].
    destruct (get platformScrapers platform) as [scraper|] eqn:Hget;
      [|intros [= <- _]; discriminate].
    destruct (scraper url w (tick s)) as [[metadata|e] s1] eqn:Hrun;
      [|intros [= <- _]; discriminate].
    destruct (negb (truthy (title metadata)) && negb (truthy (imageUrl metadata))) eqn:E;
      [intros [= <- _]; discriminate|].
    intros _ _. exists metadata, s1. split.
    + split; [reflexivity|]. now exists platform, scraper.
    + apply andb_false_iff in E.
      destruct E as [E|E]; apply negb_false_iff, truthy_true in E; auto.
Qed.

Lemma scrapeStockURL_image_failure_not_fatal_witness :
  exists metadata s',
    scrapeStockURL (js "https://example.com/photo") bareWorld initial
    = (Normal {| success := true; data := Some metadata; error := None;
                 processingTime := 2 |}, s').
Proof.
  eexists; eexists.
  apply (proj1 (scrapeStockURL_image_failure_not_fatal bareWorld initial
                  (js "https://example.com/photo"))
           _ (tick (tick initial))).
  - split; [reflexivity|].
    exists (js "mock"), MockScraper.extractMetadata.
    split; [vm_compute; reflexivity|]. split; reflexivity.
  - discriminate.
  - left. reflexivity.
Defined.

(** C5 as stated fails on the mock platform. Its extractor sets
    [imageBase64] itself; when the download of its 200MB image is refused
    by the size ceiling the answer is [success: true] and still carries
    that [imageBase64]. *)
Lemma scrapeStockURL_mock_keeps_imageBase64 :
  exists metadata s1 result s',
    extracted bareWorld initial (js "https://example.com/photo") metadata s1
    /\ imageFails bareWorld (imageUrl metadata)
    /\ scrapeStockURL (js "https://example.com/photo") bareWorld initial
       = (Normal result, s')
    /\ success result = true
    /\ data result = Some metadata
    /\ imageBase64 metadata = Some MockScraper.mockImage.
Proof.
  eexists; exists (tick (tick initial)); eexists; eexists.
  split; [|split; [|split; [|split; [|split]]]].
  - split; [reflexivity|].
    exists (js "mock"), MockScraper.extractMetadata.
    split; [vm_compute; reflexivity|]. split; reflexivity.
  - left. reflexivity.
  - vm_compute. reflexivity.
  - reflexivity.
  - reflexivity.
  - reflexivity.
Qed.

End Engine.

(** ** The provider manager *)

Section Manager.
Import Types Effects Effects.Notations AIProvider AIProviderManager ManagerSpec Fixtures.

Lemma blank_key apiKey :
  negb (truthy apiKey) || (List.length (trim apiKey) =? 0)%nat = true
  <-> trim apiKey = [].
Proof.
  destruct apiKey as [|c k]; [split; reflexivity|].
  cbn [truthy negb orb]. rewrite Nat.eqb_eq. split.
  - now destruct (trim (c :: k)).
  - now intros ->.
Qed.

Lemma get_providers provider adapter :
  get providers provider = Some adapter ->
  (provider = js "openai" /\ adapter = OpenAIProvider.provider)
  \/ (provider = js "openai-fast" /\ adapter = OpenAIFastProvider.provider)
  \/ (provider = js "gemini" /\ adapter = GeminiProvider.provider)
  \/ (provider = js "claude" /\ adapter = ClaudeProvider.provider).
Proof.
  unfold providers. cbn [get].
  destruct (eqs provider (js "openai")) eqn:E1;
    [apply eqs_true in E1; intros [= <-]; auto|].
  destruct (eqs provider (js "openai-fast")) eqn:E2;
    [apply eqs_true in E2; intros [= <-]; auto|].
  destruct (eqs provider (js "gemini")) eqn:E3;
    [apply eqs_true in E3; intros [= <-]; auto|].
  destruct (eqs provider (js "claude")) eqn:E4;
    [apply eqs_true in E4; intros [= <-]; auto 6|].
  discriminate.
Qed.

Lemma format_check_total provider adapter apiKey :
  get providers provider = Some adapter ->
  exists ok, Validation.validateApiKey provider apiKey = Normal ok.
Proof.
  intros H. unfold Validation.validateApiKey.
  destruct (negb (truthy apiKey) || _); [now exists false|].
  apply get_providers in H as [[-> _]|[[-> _]|[[-> _]|[-> _]]]];
    eexists; reflexivity.
Qed.

Lemma format_check_openai_fast apiKey :
  Validation.validateApiKey (js "openai-fast") apiKey = Normal false.
Proof.
  unfold Validation.validateApiKey.
  destruct (negb (truthy apiKey) || _); reflexivity.
Qed.

(** ** generatePrompt *)

Lemma generatePrompt_run w s provider apiKey request :
  generatePrompt provider apiKey request w s =
  let startTime := clock w (ticks s) in
  let failure message s1 :=
    (Normal {| success := false; prompt := []; variations := None; confidence := 0;
               processingTime := clock w (ticks s1) - startTime;
               error := Some message |},
     tick s1) in
  match get providers provider with
  | None => failure (unsupportedProvider provider) (tick s)
  | Some aiProvider =>
      if negb (truthy apiKey) || (List.length (trim apiKey) =? 0)%nat
      then failure (js "API key is required") (tick s)
      else if negb (truthy (imageBase64 request))
      then failure (js "Image data is required for AI analysis") (tick s)
      else
        match analyzeAndGeneratePrompt aiProvider apiKey request w (tick s) with
        | (Throw e, s1) => failure (exn_message e) s1
        | (Normal result, s1) =>
            (Normal {| success := true;
                       prompt := AIProvider.prompt result;
                       variations := Some match AIProvider.variations result with
                                          | Some v => v
                                          | None => []
                                          end;
                       confidence := AIProvider.confidence result;
                       processingTime := clock w (ticks s1) - startTime;
                       error := None |},
             tick s1)
        end
  end.
Proof.
  unfold generatePrompt, tick.
  unfold bind, try_catch, now, ret, throw.
  cbv beta iota zeta. cbn [ticks calls].
  destruct (get providers provider) as [aiProvider|]; [|reflexivity].
  destruct (negb (truthy apiKey) || _); [reflexivity|].
  destruct (negb (truthy (imageBase64 request))); [reflexivity|].
  destruct (analyzeAndGeneratePrompt aiProvider apiKey request w _) as [[result|e] s1];
    reflexivity.
Qed.

(** C6. Every call of [generatePrompt] returns an envelope, never an
    exception; the envelope carries the elapsed time, and either
    [success: true] with the adapter's prompt or [success: false] with an
    error message. A blank API key and missing image data are rejected
    before any adapter runs: no request goes out. Both outcomes of the
    adapter are wrapped: for a registered provider, a key that is not
    blank and a request with image data, what the adapter returns comes
    back as [success: true] with its prompt, variations and confidence,
    and what it throws comes back as [success: false] with the message of
    the exception; an unregistered provider is answered with the
    unsupported-provider error and nothing is sent. *)
Theorem generatePrompt_envelope
        (w : World) (s : State) (provider apiKey : jsstring)
        (request : AIAnalysisRequest) :
  exists response s',
    generatePrompt provider apiKey request w s = (Normal response, s')
    /\ processingTime response
       = (clock w (Nat.pred (ticks s')) - clock w (ticks s))%Z
    /\ ((success response = true /\ error response = None
         /\ exists aiProvider result s1,
              get providers provider = Some aiProvider
              /\ analyzeAndGeneratePrompt aiProvider apiKey request w (tick s)
                 = (Normal result, s1)
              /\ prompt response = AIProvider.prompt result)
        \/ (success response = false /\ prompt response = []
            /\ exists message, error response = Some message))
    /\ (trim apiKey = [] \/ imageBase64 request = [] ->
        success response = false /\ calls s' = calls s)
    /\ (forall aiProvider, get providers provider = Some aiProvider ->
          (trim apiKey = [] -> error response = Some (js "API key is required"))
          /\ (trim apiKey <> [] -> imageBase64 request = [] ->
              error response = Some (js "Image data is required for AI analysis")))
    /\ (forall aiProvider, get providers provider = Some aiProvider ->
          trim apiKey <> [] -> imageBase64 request <> [] ->
          (forall result s1,
              analyzeAndGeneratePrompt aiProvider apiKey request w (tick s)
              = (Normal result, s1) ->
              response
              = {| success := true;
                   prompt := AIProvider.prompt result;
                   variations := Some match AIProvider.variations result with
                                      | Some v => v
                                      | None => []
                                      end;
                   confidence := AIProvider.confidence result;
                   processingTime := clock w (ticks s1) - clock w (ticks s);
                   error := None |}
              /\ s' = tick s1)
          /\ (forall e s1,
                analyzeAndGeneratePrompt aiProvider apiKey request w (tick s)
                = (Throw e, s1) ->
                response
                = {| success := false; prompt := []; variations := None;
                     confidence := 0;
                     processingTime := clock w (ticks s1) - clock w (ticks s);
                     error := Some (exn_message e) |}
                /\ s' = tick s1))
    /\ (get providers provider = None ->
        success response = false
        /\ error response = Some (unsupportedProvider provider)
        /\ calls s' = calls s).
Proof.
  rewrite generatePrompt_run. cbv zeta.
  destruct (get providers provider) as [aiProvider|] eqn:Hget.
  - destruct (negb (truthy apiKey) || (List.length (trim apiKey) =? 0)%nat) eqn:Hkey.
    + apply blank_key in Hkey.
      eexists; eexists; split; [reflexivity|]. cbn.
      split; [reflexivity|]. split; [right; eauto|].
      split; [auto|]. split; [intros a _; split; [reflexivity | congruence]|].
      split; [intros a _ Hk; congruence | discriminate].
    + assert (trim apiKey <> []) as Hkey'
        by (intros E; apply blank_key in E; congruence).
      destruct (negb (truthy (imageBase64 request))) eqn:Himg.
      * apply negb_true_iff in Himg.
        assert (imageBase64 request = []) as Hnone
            by (destruct (imageBase64 request); [reflexivity|discriminate]).
        eexists; eexists; split; [reflexivity|]. cbn.
        split; [reflexivity|]. split; [right; eauto|].
        split; [auto|]. split; [intros a _; split; [congruence | reflexivity]|].
        split; [intros a _ _ Hi; congruence | discriminate].
      * apply negb_false_iff, truthy_true in Himg.
        destruct (analyzeAndGeneratePrompt aiProvider apiKey request w (tick s))
          as [[result|e] s1] eqn:Hrun;
          (eexists; eexists; split; [reflexivity|]); cbn;
          (split; [reflexivity|]).
        -- split; [left; split; [reflexivity|]; split; [reflexivity|];
                   exists aiProvider, result, s1; auto|].
           split; [intros [?|?]; congruence|].
           split; [intros a _; split; congruence|].
           split; [|discriminate].
           intros a [= <-] _ _. split.
           ++ intros result' s1' E. rewrite Hrun in E. injection E as <- <-.
              split; reflexivity.
           ++ intros e' s1' E. rewrite Hrun in E. discriminate.
        -- split; [right; eauto|].
           split; [intros [?|?]; congruence|].
           split; [intros a _; split; congruence|].
           split; [|discriminate].
           intros a [= <-] _ _. split.
           ++ intros result' s1' E. rewrite Hrun in E. discriminate.
           ++ intros e' s1' E. rewrite Hrun in E. injection E as <- <-.
              split; reflexivity.
  - eexists; eexists; split; [reflexivity|]. cbn.
    split; [reflexivity|]. split; [right; eauto|].
    split; [auto|]. split; [intros a Ha; discriminate|].
    split; [intros a Ha; discriminate|].
    intros _. repeat split.
Qed.

(** ** validateApiKey *)

Lemma validateApiKey_run w s provider apiKey :
  validateApiKey provider apiKey w s =
  match get providers provider with
  | None => (Normal (rejectedAtLookup provider), s)
  | Some aiProvider =>
      match Validation.validateApiKey provider apiKey with
      | Throw e => (Normal (crashed provider e), s)
      | Normal false => (Normal (rejectedByFormat provider), s)
      | Normal true =>
          match AIProvider.validateApiKey aiProvider apiKey w s with
          | (Normal check, s') => (Normal (checked provider check), s')
          | (Throw e, s') => (Normal (crashed provider e), s')
          end
      end
  end.
Proof.
  unfold validateApiKey, bind, try_catch, ret, lift. cbv beta iota.
  destruct (get providers provider) as [aiProvider|]; [|reflexivity].
  destruct (Validation.validateApiKey provider apiKey) as [[|]|e]; try reflexivity.
  cbn [negb]. cbv beta iota.
  destruct (AIProvider.validateApiKey aiProvider apiKey w s) as [[check|e] s'];
    reflexivity.
Qed.

(** C9. For the provider [openai-fast], which the request schema accepts
    and the registry holds, the pattern table has no entry: every key
    fails the format check, the answer is [isValid: false] with the
    format error, and no request goes out. *)
Theorem validateApiKey_openai_fast_always_format_error
        (w : World) (s : State) (apiKey : jsstring) :
  validateApiKey (js "openai-fast") apiKey w s
  = (Normal {| kv_success := true;
               kv_isValid := false;
               kv_error := Some (js "Invalid openai-fast API key format");
               kv_provider := js "openai-fast";
               kv_details := Some [ (js "issue", VStr (js "format_invalid")) ] |},
     s)
  /\ ((10 <= List.length apiKey)%nat ->
      Validation.validateApiKeySchema (js "openai-fast") apiKey = true)
  /\ get providers (js "openai-fast") = Some OpenAIFastProvider.provider
  /\ get Validation.patterns (js "openai-fast") = None
  /\ keys Validation.patterns = [js "openai"; js "gemini"; js "claude"].
Proof.
  split; [|split; [|split; [|split]]]; try reflexivity.
  - rewrite validateApiKey_run.
    change (get providers (js "openai-fast")) with (Some OpenAIFastProvider.provider).
    cbv beta iota. rewrite format_check_openai_fast. reflexivity.
  - intros H. unfold Validation.validateApiKeySchema.
    apply Nat.leb_le in H. rewrite H. reflexivity.
Qed.

Lemma adapter_validate_sends w s provider aiProvider apiKey :
  get providers provider = Some aiProvider ->
  exists call,
    snd (AIProvider.validateApiKey aiProvider apiKey w s) = sent call s
    /\ credential call = apiKey.
Proof.
  intros H. apply get_providers in H as [[_ ->]|[[_ ->]|[[_ ->]|[_ ->]]]].
  - exists (OpenAIProvider.chatCall apiKey). split; [|reflexivity].
    cbn [AIProvider.validateApiKey OpenAIProvider.provider].
    unfold OpenAIProvider.validateApiKey, OpenAIProvider.post, try_catch, bind, request.
    destruct (openaiChat w _ _) as [d|m [[st [[[e|]]|]]|]]; cbn;
      repeat match goal with |- context [if ?c then _ else _] => destruct c end;
      reflexivity.
  - exists (OpenAIProvider.chatCall apiKey). split; [|reflexivity].
    cbn [AIProvider.validateApiKey OpenAIFastProvider.provider].
    unfold OpenAIFastProvider.validateApiKey, OpenAIFastProvider.post, try_catch,
      bind, request.
    destruct (openaiChat w _ _) as [d|m r]; cbn; [reflexivity|].
    destruct (OpenAIFastProvider.vendorError _); reflexivity.
  - exists (GeminiProvider.generateCall (js "gemini-pro") apiKey). split; [|reflexivity].
    cbn [AIProvider.validateApiKey GeminiProvider.provider].
    unfold GeminiProvider.validateApiKey, GeminiProvider.post, try_catch, bind, request.
    destruct (geminiGenerate w _ _) as [d|m [[st [[[e|]]|]]|]]; cbn;
      repeat match goal with |- context [if ?c then _ else _] => destruct c end;
      reflexivity.
  - exists (ClaudeProvider.messagesCall apiKey). split; [|reflexivity].
    cbn [AIProvider.validateApiKey ClaudeProvider.provider].
    unfold ClaudeProvider.validateApiKey, ClaudeProvider.post, try_catch, bind, request.
    destruct (claudeMessages w _ _) as [d|m [[st [[[e|]]|]]|]]; cbn;
      repeat match goal with |- context [if ?c then _ else _] => destruct c end;
      reflexivity.
Qed.

Lemma sent_changes call s : calls (sent call s) <> calls s.
Proof.
  unfold sent. cbn [calls]. intros E.
  apply (f_equal (@List.length HttpCall)) in E.
  rewrite length_app in E. simpl in E. lia.
Qed.

(** C7, as the code has it. The registry lookup comes first: an
    unregistered provider is rejected there, with the unsupported-provider
    error. For a registered provider the format check comes next: a key
    that fails it is rejected with the format error and nothing is sent.
    A request goes out only for a registered provider and a key that
    passes the format check, and then exactly one. A well-formed key the
    vendor refuses comes back [isValid: false] with the vendor's error. *)
Theorem validateApiKey_format_before_network
        (w : World) (s : State) (provider apiKey : jsstring) :
  (get providers provider = None ->
   validateApiKey provider apiKey w s = (Normal (rejectedAtLookup provider), s))
  /\ (forall aiProvider,
        get providers provider = Some aiProvider ->
        (Validation.validateApiKey provider apiKey = Normal false ->
         validateApiKey provider apiKey w s = (Normal (rejectedByFormat provider), s))
        /\ (Validation.validateApiKey provider apiKey = Normal true ->
            exists call,
              snd (validateApiKey provider apiKey w s) = sent call s
              /\ credential call = apiKey))
  /\ (forall outcome s',
        validateApiKey provider apiKey w s = (outcome, s') ->
        calls s' <> calls s ->
        exists aiProvider,
          get providers provider = Some aiProvider
          /\ Validation.validateApiKey provider apiKey = Normal true)
  /\ (forall e status,
        Validation.validateApiKey provider apiKey = Normal true ->
        (provider = js "openai" ->
         vendorRejects (openaiChat w (List.length (calls s)) (OpenAIProvider.chatCall apiKey)) e status ->
         err_code e = VStr (js "invalid_api_key") ->
         validateApiKey provider apiKey w s
         = (Normal {| kv_success := true; kv_isValid := false;
                      kv_error := Some (js "Invalid OpenAI API key");
                      kv_provider := provider;
                      kv_details := Some [ (js "code", VStr (js "invalid_key"));
                                           (js "originalError", VStr (js "invalid_api_key"));
                                           (js "status", VNum status) ] |},
            sent (OpenAIProvider.chatCall apiKey) s))
        /\ (provider = js "gemini" ->
            vendorRejects (geminiGenerate w (List.length (calls s))
                             (GeminiProvider.generateCall (js "gemini-pro") apiKey)) e status ->
            err_code e = VNum 403 ->
            validateApiKey provider apiKey w s
            = (Normal {| kv_success := true; kv_isValid := false;
                         kv_error := Some (js "Invalid or unauthorized Gemini API key");
                         kv_provider := provider;
                         kv_details := Some [ (js "code", VNum 403);
                                              (js "type", VStr (js "authentication_error")) ] |},
               sent (GeminiProvider.generateCall (js "gemini-pro") apiKey) s))
        /\ (provider = js "claude" ->
            vendorRejects (claudeMessages w (List.length (calls s)) (ClaudeProvider.messagesCall apiKey))
                          e status ->
            err_type e = Some (js "authentication_error") ->
            validateApiKey provider apiKey w s
            = (Normal {| kv_success := true; kv_isValid := false;
                         kv_error := Some (js "Invalid Claude API key provided");
                         kv_provider := provider;
                         kv_details := Some [ (js "type", VStr (js "authentication_error"));
                                              (js "status", VNum 401) ] |},
               sent (ClaudeProvider.messagesCall apiKey) s))).
Proof.
  split; [|split; [|split]].
  - intros H. rewrite validateApiKey_run, H. reflexivity.
  - intros aiProvider H. split; intros Hf; rewrite validateApiKey_run, H, Hf.
    + reflexivity.
    + destruct (adapter_validate_sends w s provider aiProvider apiKey H)
        as (call & Hs & Hc).
      exists call. split; [|assumption]. rewrite <- Hs.
      destruct (AIProvider.validateApiKey aiProvider apiKey w s) as [[check|e] s'];
        reflexivity.
  - intros outcome s'. rewrite validateApiKey_run.
    destruct (get providers provider) as [aiProvider|] eqn:H;
      [|intros [= _ <-] Hc; congruence].
    destruct (Validation.validateApiKey provider apiKey) as [[|]|e];
      try (intros [= _ <-] Hc; congruence).
    intros _ _. now exists aiProvider.
  - intros e status Hf. split; [|split]; intros -> (m & Hout) He;
      rewrite validateApiKey_run, Hf.
    + change (get providers (js "openai")) with (Some OpenAIProvider.provider).
      cbn [AIProvider.validateApiKey OpenAIProvider.provider].
      unfold OpenAIProvider.validateApiKey, OpenAIProvider.post, try_catch, bind, request.
      fold (OpenAIProvider.chatCall apiKey). rewrite Hout. cbn. rewrite He. reflexivity.
    + change (get providers (js "gemini")) with (Some GeminiProvider.provider).
      cbn [AIProvider.validateApiKey GeminiProvider.provider].
      unfold GeminiProvider.validateApiKey, GeminiProvider.post, try_catch, bind, request.
      fold (GeminiProvider.generateCall (js "gemini-pro") apiKey). rewrite Hout. cbn. rewrite He.
      reflexivity.
    + change (get providers (js "claude")) with (Some ClaudeProvider.provider).
      cbn [AIProvider.validateApiKey ClaudeProvider.provider].
      unfold ClaudeProvider.validateApiKey, ClaudeProvider.post, try_catch, bind, request.
      fold (ClaudeProvider.messagesCall apiKey). rewrite Hout. cbn. rewrite He. reflexivity.
Qed.

Lemma validateApiKey_format_before_network_witness :
  validateApiKey (js "openai") (js "sk-abcdefghij1234") revokingWorld initial
  = (Normal {| kv_success := true; kv_isValid := false;
               kv_error := Some (js "Invalid OpenAI API key");
               kv_provider := js "openai";
               kv_details := Some [ (js "code", VStr (js "invalid_key"));
                                    (js "originalError", VStr (js "invalid_api_key"));
                                    (js "status", VNum 401) ] |},
     sent (OpenAIProvider.chatCall (js "sk-abcdefghij1234")) initial)
  /\ validateApiKey (js "openai") (js "short") revokingWorld initial
     = (Normal (rejectedByFormat (js "openai")), initial).
Proof.
  pose proof (validateApiKey_format_before_network revokingWorld initial
                (js "openai") (js "sk-abcdefghij1234")) as (_ & _ & _ & Hrevoked).
  pose proof (validateApiKey_format_before_network revokingWorld initial
                (js "openai") (js "short")) as (_ & Hformat & _).
  split.
  - apply (proj1 (Hrevoked invalidKeyError 401%Z ltac:(vm_compute; reflexivity))).
    + reflexivity.
    + eexists. reflexivity.
    + reflexivity.
  - apply (proj1 (Hformat OpenAIProvider.provider eq_refl)).
    vm_compute. reflexivity.
Defined.

(** C7 as stated fails for a provider id outside the registry: the key
    [short] fails the format check, yet the answer is not the format
    error but the unsupported-provider error, with [success: false]. *)
Lemma validateApiKey_unregistered_counterexample :
  Validation.validateApiKey (js "midjourney") (js "short") = Normal false
  /\ validateApiKey (js "midjourney") (js "short") revokingWorld initial
     = (Normal {| kv_success := false; kv_isValid := false;
                  kv_error := Some (js "Unsupported AI provider: midjourney. Supported providers: openai, openai-fast, gemini, claude");
                  kv_provider := js "midjourney";
                  kv_details := None |},
        initial)
  /\ js "Unsupported AI provider: midjourney. Supported providers: openai, openai-fast, gemini, claude"
     <> invalidFormat (js "midjourney").
Proof.
  split; [vm_compute; reflexivity|]. split; [vm_compute; reflexivity|].
  vm_compute. discriminate.
Qed.

Lemma generatePrompt_envelope_witness :
  (exists response s',
      generatePrompt (js "openai") (js "   ") sampleRequest bareWorld initial
      = (Normal response, s')
      /\ success response = false
      /\ error response = Some (js "API key is required")
      /\ calls s' = [])
  /\ (exists response s',
        generatePrompt (js "openai") (js "sk-abcdefghij1234") sampleRequest
                       answeringWorld initial
        = (Normal response, s')
        /\ success response = true
        /\ prompt response
           = js "A red fox crossing a snowy field at dawn, soft light").
Proof.
  split.
  - destruct (generatePrompt_envelope bareWorld initial (js "openai") (js "   ")
                sampleRequest)
      as (response & s' & Hrun & _ & _ & Hblank & Hmessage & _).
    exists response, s'. split; [exact Hrun|].
    destruct (Hblank (or_introl eq_refl)) as [Hs Hc].
    split; [exact Hs|]. split; [|exact Hc].
    exact (proj1 (Hmessage OpenAIProvider.provider eq_refl) eq_refl).
  - destruct (generatePrompt_envelope answeringWorld initial (js "openai")
                (js "sk-abcdefghij1234") sampleRequest)
      as (response & s' & Hrun & _ & _ & _ & _ & Hwrap & _).
    exists response, s'. split; [exact Hrun|].
    destruct (OpenAIProvider.analyzeAndGeneratePrompt (js "sk-abcdefghij1234")
                sampleRequest answeringWorld (tick initial))
      as [[result|e] s1] eqn:Hadapter; [|vm_compute in Hadapter; discriminate].
    destruct (proj1 (Hwrap OpenAIProvider.provider eq_refl
                       ltac:(discriminate) ltac:(discriminate))
                    result s1 Hadapter) as [-> _].
    split; [reflexivity|]. cbn [prompt].
    vm_compute in Hadapter. injection Hadapter as <- _. reflexivity.
Defined.

End Manager.


(** ** Binary64 arithmetic *)

Section Numbers.
Import NumberSpec JSNumber.
Local Open Scope Z_scope.

(** Rounding never yields NaN: shifting and rounding a non-negative
    mantissa keeps it non-negative. *)
Lemma shr_1_nonneg r : 0 <= shr_m r -> 0 <= shr_m (shr_1 r).
Proof.
  destruct r as [m rb sb]. simpl. intros H.
  destruct m as [|p|p]; simpl; try lia; destruct p; simpl; lia.
Qed.

Lemma iter_pos_nonneg p : forall r, 0 <= shr_m r -> 0 <= shr_m (iter_pos shr_1 p r).
Proof.
  induction p as [p IH|p IH|]; intros r H; simpl.
  - apply IH, IH, shr_1_nonneg, H.
  - apply IH, IH, H.
  - apply shr_1_nonneg, H.
Qed.

Lemma shr_nonneg r e n : 0 <= shr_m r -> 0 <= shr_m (fst (shr r e n)).
Proof.
  intros H. unfold shr. destruct n; simpl; try assumption.
  now apply iter_pos_nonneg.
Qed.

Lemma shr_record_of_loc_m m l : shr_m (shr_record_of_loc m l) = m.
Proof. destruct l as [|[| |]]; reflexivity. Qed.

Lemma shr_fexp_nonneg prec emax m e l :
  0 <= m -> 0 <= shr_m (fst (shr_fexp prec emax m e l)).
Proof.
  intros H. unfold shr_fexp. apply shr_nonneg. now rewrite shr_record_of_loc_m.
Qed.

Lemma round_nearest_even_nonneg m l : 0 <= m -> 0 <= round_nearest_even m l.
Proof.
  intros H. unfold round_nearest_even. destruct l as [|[| |]]; try lia.
  destruct (Z.even m); lia.
Qed.

Lemma binary_round_aux_nonnan prec emax sx mx ex lx :
  0 <= mx -> nonnan (binary_round_aux prec emax sx mx ex lx).
Proof.
  intros H. unfold binary_round_aux.
  pose proof (shr_fexp_nonneg prec emax mx ex lx H) as H1.
  destruct (shr_fexp prec emax mx ex lx) as [mrs' e']. simpl in H1.
  pose proof (shr_fexp_nonneg prec emax _ e' loc_Exact
                (round_nearest_even_nonneg _ (loc_of_shr_record mrs') H1)) as H2.
  destruct (shr_fexp prec emax _ e' loc_Exact) as [mrs'' e'']. simpl in H2.
  destruct (shr_m mrs''); [discriminate | | lia].
  destruct (e'' <=? emax - prec); discriminate.
Qed.

Lemma binary_normalize_nonnan prec emax m e sz :
  nonnan (binary_normalize prec emax m e sz).
Proof.
  unfold binary_normalize, binary_round.
  destruct m; [discriminate | |];
    destruct (shl_align _ _ _); apply binary_round_aux_nonnan; lia.
Qed.

Lemma SFadd_nonnan prec emax x y :
  nonnan x -> finite y -> nonnan (SFadd prec emax x y).
Proof.
  intros Hx Hy. destruct y as [| | |sy my ey]; try contradiction.
  destruct x as [sx|sx| |sx mx ex]; simpl; try discriminate; try congruence.
  apply binary_normalize_nonnan.
Qed.

Lemma SFsub_nonnan prec emax x y :
  nonnan x -> finite y -> nonnan (SFsub prec emax x y).
Proof.
  intros Hx Hy. destruct y as [| | |sy my ey]; try contradiction.
  destruct x as [sx|sx| |sx mx ex]; simpl; try discriminate; try congruence.
  apply binary_normalize_nonnan.
Qed.

Lemma SFcompare_refl x : nonnan x -> SFcompare x x = Some Eq.
Proof.
  destruct x as [s|s| |s m e]; simpl; intros H; try congruence.
  - now destruct s.
  - rewrite Z.compare_refl, Pos.compare_cont_refl. now destruct s.
Qed.

Lemma is_nan_spec x : PrimFloat.is_nan x = false <-> nonnan (Prim2SF x).
Proof.
  unfold PrimFloat.is_nan. rewrite eqb_spec. unfold SFeqb, nonnan. split.
  - intros H E. rewrite E in H. discriminate.
  - intros H. now rewrite (SFcompare_refl _ H).
Qed.

Lemma SFcompare_antisym x y :
  SFcompare y x = option_map CompOpp (SFcompare x y).
Proof.
  destruct x as [s1|s1| |s1 m1 e1], y as [s2|s2| |s2 m2 e2]; simpl;
    try reflexivity; try (destruct s1; reflexivity); try (destruct s2; reflexivity);
    try (destruct s1, s2; reflexivity).
  f_equal. rewrite (Z.compare_antisym e1 e2).
  assert (Pos.compare_cont Eq m2 m1 = CompOpp (Pos.compare_cont Eq m1 m2)) as ->
    by (symmetry; apply (Pos.compare_cont_antisym m1 m2 Eq)).
  destruct s1, s2; simpl; try reflexivity;
    destruct (e1 ?= e2); simpl; try reflexivity;
    destruct (Pos.compare_cont Eq m1 m2); reflexivity.
Qed.

Lemma ltb_false_leb x y :
  PrimFloat.is_nan x = false -> PrimFloat.is_nan y = false ->
  (x <? y)%float = false -> (y <=? x)%float = true.
Proof.
  rewrite !is_nan_spec, ltb_spec, leb_spec. unfold SFltb, SFleb, nonnan.
  intros Hx Hy. rewrite (SFcompare_antisym (Prim2SF x) (Prim2SF y)).
  destruct (SFcompare (Prim2SF x) (Prim2SF y)) as [[| |]|] eqn:E; simpl;
    try reflexivity; try discriminate.
  intros _. destruct (Prim2SF x), (Prim2SF y); simpl in E; congruence.
Qed.

Lemma add_nonnan x y :
  PrimFloat.is_nan x = false -> finite (Prim2SF y) ->
  PrimFloat.is_nan (x + y)%float = false.
Proof.
  rewrite !is_nan_spec, add_spec. apply SFadd_nonnan.
Qed.

Lemma sub_nonnan x y :
  PrimFloat.is_nan x = false -> finite (Prim2SF y) ->
  PrimFloat.is_nan (x - y)%float = false.
Proof.
  rewrite !is_nan_spec, sub_spec. apply SFsub_nonnan.
Qed.


Lemma ltb_leb x y : (x <? y)%float = true -> (x <=? y)%float = true.
Proof.
  rewrite ltb_spec, leb_spec. unfold SFltb, SFleb.
  now destruct (SFcompare (Prim2SF x) (Prim2SF y)) as [[| |]|].
Qed.

(** The clamp of the confidence heuristics. *)
Lemma clamp_range c :
  PrimFloat.is_nan c = false ->
  (0 <=? Math_min (Math_max c 0) 1.0)%float = true
  /\ (Math_min (Math_max c 0) 1.0 <=? 1)%float = true.
Proof.
  intros Hc.
  assert (PrimFloat.is_nan 0%float = false) as H0 by reflexivity.
  assert (PrimFloat.is_nan 1%float = false) as H1 by reflexivity.
  assert (forall m, (m = 0%float \/ (m = c /\ (c <? 0)%float = false)) ->
            (0 <=? Math_min m 1.0)%float = true
            /\ (Math_min m 1.0 <=? 1)%float = true) as Hmin.
  { intros m [->|[-> Hlt]]; [split; reflexivity|].
    pose proof (ltb_false_leb c 0%float Hc H0 Hlt) as Hpos.
    unfold Math_min. rewrite Hc. cbn [orb].
    change (PrimFloat.is_nan 1.0) with false. cbv iota.
    destruct (c <? 1.0)%float eqn:E1; [split; [assumption | now apply ltb_leb]|].
    destruct (1.0 <? c)%float eqn:E2; [split; reflexivity|].
    pose proof (ltb_false_leb 1%float c H1 Hc E2) as Hle.
    destruct (get_sign c); [split; assumption | split; reflexivity]. }
  apply Hmin. unfold Math_max. rewrite Hc. cbn [orb].
  change (PrimFloat.is_nan 0) with false. cbv iota.
  destruct (c <? 0)%float eqn:E1; [now left|].
  destruct (0 <? c)%float; [now right|].
  destruct (get_sign c); [now left | now right].
Qed.

End Numbers.

(** ** The provider adapters *)

Section Adapters.
Import Types Effects Effects.Notations AIProvider AIProviderManager.
Import NumberSpec JSNumber ManagerSpec Fixtures.

Lemma openai_confidence_range data :
  unit_interval (OpenAIProvider.calculateConfidence data).
Proof.
  unfold OpenAIProvider.calculateConfidence.
  destruct (OpenAIData.choices data) as [[|choice rest]|]; try (split; reflexivity).
  cbv zeta.
  destruct (_ && _); [|destruct (_ && _)];
    destruct (str_is _ _); split; reflexivity.
Qed.

Lemma openai_fast_confidence_range data :
  unit_interval (OpenAIFastProvider.calculateConfidence data).
Proof.
  unfold OpenAIFastProvider.calculateConfidence.
  destruct (OpenAIData.choices data) as [[|choice rest]|]; try (split; reflexivity).
  destruct (str_is _ _); split; reflexivity.
Qed.

(** Each flagged safety rating takes 0.1 off; the running value stays a
    number. *)
Lemma ratings_nonnan ratings : forall c,
  PrimFloat.is_nan c = false ->
  PrimFloat.is_nan
    (fold_left (fun confidence rating =>
                  if GeminiProvider.flagged rating
                  then (confidence - 0.1)%float else confidence)
               ratings c) = false.
Proof.
  induction ratings as [|rating ratings IH]; intros c Hc; [exact Hc|].
  cbn [fold_left]. apply IH.
  destruct (GeminiProvider.flagged rating); [|exact Hc].
  apply sub_nonnan; [exact Hc | now vm_compute].
Qed.

Lemma gemini_confidence_range candidate :
  unit_interval (GeminiProvider.calculateConfidence candidate).
Proof.
  unfold GeminiProvider.calculateConfidence. cbv zeta. apply clamp_range.
  assert (PrimFloat.is_nan 0.75%float = false) as Hbase by reflexivity.
  destruct (GeminiData.safetyRatings candidate) as [ratings|];
    [pose proof (ratings_nonnan ratings 0.75%float Hbase) as Hc | pose proof Hbase as Hc];
    destruct (_ && _);
    (destruct (str_is _ (js "STOP")); [|destruct (str_is _ (js "MAX_TOKENS"))]);
    repeat first [ exact Hc
                 | apply add_nonnan; [|now vm_compute]
                 | apply sub_nonnan; [|now vm_compute] ].
Qed.

Lemma claude_confidence_range data :
  unit_interval (ClaudeProvider.calculateConfidence data).
Proof.
  unfold ClaudeProvider.calculateConfidence. cbv zeta.
  destruct (str_is _ (js "end_turn")); [|destruct (str_is _ (js "max_tokens"))];
    (destruct (_ && _); [|destruct (_ <? 50)%nat]);
    (destruct (ClaudeData.usage data) as [u|];
     [destruct (_ && _)%bool|]); split; reflexivity.
Qed.

Lemma generateVariations_total w s apiKey originalPrompt style :
  exists v s',
    OpenAIProvider.generateVariations apiKey originalPrompt style w s = (Normal v, s')
    /\ (List.length v <= 2)%nat.
Proof.
  unfold OpenAIProvider.generateVariations, try_catch, bind, ret.
  destruct (OpenAIProvider.post apiKey w s) as [[response|e] s1].
  - destruct (OpenAIProvider.firstContent response) as [text|].
    + destruct (truthy text).
      * eexists; eexists. split; [reflexivity|].
        rewrite length_firstn. apply Nat.le_min_l.
      * eexists; eexists. split; [reflexivity|]. simpl. lia.
    + eexists; eexists. split; [reflexivity|]. simpl. lia.
  - eexists; eexists. split; [reflexivity|]. simpl. lia.
Qed.

Lemma generateQuickVariation_total w s apiKey originalPrompt :
  exists v s',
    OpenAIFastProvider.generateQuickVariation apiKey originalPrompt w s = (Normal v, s')
    /\ (List.length v <= 2)%nat.
Proof.
  unfold OpenAIFastProvider.generateQuickVariation, try_catch, bind, ret.
  destruct (OpenAIFastProvider.post apiKey w s) as [[response|e] s1].
  - destruct (OpenAIProvider.firstContent response) as [text|].
    + destruct (truthy text); eexists; eexists; (split; [reflexivity|]); simpl; lia.
    + eexists; eexists. split; [reflexivity|]. simpl. lia.
  - eexists; eexists. split; [reflexivity|]. simpl. lia.
Qed.

Lemma openai_rethrow_throws A e w s :
  exists e', @OpenAIProvider.rethrow A e w s = (Throw e', s).
Proof.
  unfold OpenAIProvider.rethrow, throw.
  destruct (exn_response e) as [[st [[[v|]]|]]|]; cbn [resp_data body_error];
    repeat match goal with |- context [if ?c then _ else _] => destruct c end;
    eexists; reflexivity.
Qed.

Lemma gemini_rethrow_throws A e w s :
  exists e', @GeminiProvider.rethrow A e w s = (Throw e', s).
Proof.
  unfold GeminiProvider.rethrow, throw.
  destruct (exn_response e) as [[st [[[v|]]|]]|]; cbn [resp_data body_error];
    repeat match goal with |- context [if ?c then _ else _] => destruct c end;
    eexists; reflexivity.
Qed.

Lemma claude_rethrow_throws A e w s :
  exists e', @ClaudeProvider.rethrow A e w s = (Throw e', s).
Proof.
  unfold ClaudeProvider.rethrow, throw.
  destruct (exn_response e) as [[st [[[v|]]|]]|]; cbn [resp_data body_error];
    cbv zeta;
    repeat match goal with |- context [if ?c then _ else _] => destruct c end;
    eexists; reflexivity.
Qed.

Ltac thrown H lemma :=
  match type of H with
  | ?r _ ?e ?w ?s = _ =>
      let e' := fresh in let E := fresh in
      destruct (lemma Generated e w s) as [e' E]; rewrite E in H; discriminate
  end.

Lemma openai_result_range w s apiKey request result s' :
  OpenAIProvider.analyzeAndGeneratePrompt apiKey request w s = (Normal result, s') ->
  inRange result.
Proof.
  unfold OpenAIProvider.analyzeAndGeneratePrompt, try_catch, bind, throw.
  destruct (OpenAIProvider.post apiKey w s) as [[response|e] s1];
    [|intros H; thrown H openai_rethrow_throws].
  destruct response as [data|]; [|intros H; thrown H openai_rethrow_throws].
  destruct (OpenAIData.choices data) as [[|choice rest]|] eqn:Hc;
    try (intros H; thrown H openai_rethrow_throws).
  destruct (OpenAIData.message choice) as [m|];
    [|intros H; thrown H openai_rethrow_throws].
  destruct (OpenAIData.content m) as [generatedPrompt|];
    [|intros H; thrown H openai_rethrow_throws].
  destruct (negb (truthy generatedPrompt));
    [intros H; thrown H openai_rethrow_throws|].
  destruct (generateVariations_total w s1 apiKey generatedPrompt (promptStyle request))
    as (v & s2 & -> & Hv).
  unfold ret. intros [= <- _]. split; [exact Hv | apply openai_confidence_range].
Qed.

Lemma openai_fast_result_range w s apiKey request result s' :
  OpenAIFastProvider.analyzeAndGeneratePrompt apiKey request w s = (Normal result, s') ->
  inRange result.
Proof.
  unfold OpenAIFastProvider.analyzeAndGeneratePrompt, try_catch, bind, throw.
  destruct (OpenAIFastProvider.post apiKey w s) as [[response|e] s1];
    [|intros H; thrown H openai_rethrow_throws].
  destruct response as [data|]; [|intros H; thrown H openai_rethrow_throws].
  destruct (OpenAIData.choices data) as [[|choice rest]|] eqn:Hc;
    try (intros H; thrown H openai_rethrow_throws).
  destruct (OpenAIData.message choice) as [m|];
    [|intros H; thrown H openai_rethrow_throws].
  destruct (OpenAIData.content m) as [generatedPrompt|];
    [|intros H; thrown H openai_rethrow_throws].
  destruct (negb (truthy generatedPrompt));
    [intros H; thrown H openai_rethrow_throws|].
  destruct (generateQuickVariation_total w s1 apiKey generatedPrompt)
    as (v & s2 & -> & Hv).
  unfold ret. intros [= <- _]. split; [exact Hv | apply openai_fast_confidence_range].
Qed.

Lemma gemini_result_range w s apiKey request result s' :
  GeminiProvider.analyzeAndGeneratePrompt apiKey request w s = (Normal result, s') ->
  inRange result.
Proof.
  unfold GeminiProvider.analyzeAndGeneratePrompt, try_catch, bind, throw.
  destruct (GeminiProvider.post _ apiKey w s) as [[response|e] s1];
    [|intros H; thrown H gemini_rethrow_throws].
  destruct response as [data|]; [|intros H; thrown H gemini_rethrow_throws].
  destruct (GeminiData.candidates data) as [[|candidate rest]|];
    try (intros H; thrown H gemini_rethrow_throws).
  destruct (GeminiData.content candidate) as [c|];
    [|intros H; thrown H gemini_rethrow_throws].
  destruct (GeminiData.parts c) as [[|part parts]|];
    try (intros H; thrown H gemini_rethrow_throws).
  destruct (GeminiData.text part) as [generatedPrompt|];
    [|intros H; thrown H gemini_rethrow_throws].
  destruct (negb (truthy generatedPrompt));
    [intros H; thrown H gemini_rethrow_throws|].
  unfold ret. intros [= <- _]. split; [simpl; lia | apply gemini_confidence_range].
Qed.

Lemma claude_result_range w s apiKey request result s' :
  ClaudeProvider.analyzeAndGeneratePrompt apiKey request w s = (Normal result, s') ->
  inRange result.
Proof.
  unfold ClaudeProvider.analyzeAndGeneratePrompt, try_catch, bind, throw.
  destruct (ClaudeProvider.post apiKey w s) as [[response|e] s1];
    [|intros H; thrown H claude_rethrow_throws].
  destruct response as [data|]; [|intros H; thrown H claude_rethrow_throws].
  destruct (ClaudeData.content data) as [[|block rest]|];
    try (intros H; thrown H claude_rethrow_throws).
  destruct (negb (str_is (ClaudeData.type block) (js "text")));
    [intros H; thrown H claude_rethrow_throws|].
  destruct (ClaudeData.text block) as [generatedPrompt|];
    [|intros H; thrown H claude_rethrow_throws].
  destruct (negb (truthy generatedPrompt));
    [intros H; thrown H claude_rethrow_throws|].
  unfold ret. intros [= <- _]. split; [simpl; lia | apply claude_confidence_range].
Qed.

(** C8. Whatever the vendor answers, the result of every registered
    adapter has at most two variations and a confidence between 0 and 1;
    and so has each adapter's confidence function on every response
    body. *)
Theorem adapter_result_in_range :
  (forall (w : World) (s : State) (provider : jsstring) (aiProvider : AIProvider)
          (apiKey : jsstring) (request : AIAnalysisRequest)
          (result : Generated) (s' : State),
      get providers provider = Some aiProvider ->
      analyzeAndGeneratePrompt aiProvider apiKey request w s = (Normal result, s') ->
      inRange result)
  /\ (forall data, unit_interval (OpenAIProvider.calculateConfidence data))
  /\ (forall data, unit_interval (OpenAIFastProvider.calculateConfidence data))
  /\ (forall candidate, unit_interval (GeminiProvider.calculateConfidence candidate))
  /\ (forall data, unit_interval (ClaudeProvider.calculateConfidence data)).
Proof.
  split; [|repeat split;
           first [apply openai_confidence_range | apply openai_fast_confidence_range
                 | apply gemini_confidence_range | apply claude_confidence_range]].
  intros w s provider aiProvider apiKey request result s' Hget Hrun.
  apply get_providers in Hget as [[_ ->]|[[_ ->]|[[_ ->]|[_ ->]]]].
  - exact (openai_result_range w s apiKey request result s' Hrun).
  - exact (openai_fast_result_range w s apiKey request result s' Hrun).
  - exact (gemini_result_range w s apiKey request result s' Hrun).
  - exact (claude_result_range w s apiKey request result s' Hrun).
Qed.

Lemma adapter_result_in_range_witness :
  exists result s',
    analyzeAndGeneratePrompt OpenAIProvider.provider (js "sk-abcdefghij1234")
      sampleRequest answeringWorld initial = (Normal result, s')
    /\ AIProvider.variations result
       = Some [js "A red fox at dusk"; js "A fox in deep snow"]
    /\ inRange result.
Proof.
  destruct (analyzeAndGeneratePrompt OpenAIProvider.provider (js "sk-abcdefghij1234")
              sampleRequest answeringWorld initial) as [[result|e] s'] eqn:Hrun;
    [|vm_compute in Hrun; discriminate].
  exists result, s'. split; [reflexivity|]. split.
  - vm_compute in Hrun. injection Hrun as <- _. reflexivity.
  - exact (proj1 adapter_result_in_range answeringWorld initial (js "openai")
             OpenAIProvider.provider (js "sk-abcdefghij1234") sampleRequest
             result s' eq_refl Hrun).
Defined.

End Adapters.

(** ** The first match of a pattern *)

Section ExecFacts.
Import RegexExec.

Lemma first_some_Some {A B} (f : A -> option B) l b :
  first_some f l = Some b -> exists a, In a l /\ f a = Some b.
Proof.
  induction l as [|a l IH]; cbn; [discriminate|].
  destruct (f a) eqn:E.
  - intros [= <-]. exists a. auto.
  - intros H. destruct (IH H) as (a' & Hin & Ha). exists a'. auto.
Qed.

Lemma first_some_None {A B} (f : A -> option B) l :
  first_some f l = None <-> forall a, In a l -> f a = None.
Proof.
  induction l as [|a l IH]; cbn.
  - split; [intros _ a []|reflexivity].
  - destruct (f a) eqn:E.
    + split; [discriminate|]. intros H. rewrite <- E. apply H. auto.
    + rewrite IH. split.
      * intros H a' [<-|Hin]; auto.
      * intros H a' Hin. apply H. auto.
Qed.

Lemma first_some_head {A B} (f : A -> option B) a l b :
  f a = Some b -> first_some f (a :: l) = Some b.
Proof. intros E. cbn. now rewrite E. Qed.

Lemma downto_In k n min : In k (downto n min) <-> (min <= k <= n)%nat.
Proof.
  induction n as [|n IH].
  - cbn [downto]. destruct (Nat.ltb_spec 0 min); cbn [In]; [lia|].
    split; [intros [<-|[]]; lia|intros ?; left; lia].
  - destruct (Nat.ltb_spec (S n) min) as [Hlt|Hge].
    + rewrite downto_lt by lia. cbn. lia.
    + rewrite downto_S by lia. cbn [In]. rewrite IH. lia.
Qed.

Lemma run_le ci r : forall start s k,
  In k (run ci r start s) -> (k <= List.length s)%nat.
Proof.
  induction r as [|p|cs min|cs min|r1 IH1 r2 IH2|r1 IH1 r2 IH2| |];
    intros start s k; cbn [run].
  - intros [<-|[]]. lia.
  - destruct s as [|c s]; [intros []|].
    destruct (chr_match ci p c); [|intros []]. intros [<-|[]]. cbn. lia.
  - rewrite downto_In. intros [_ H]. pose proof (span_len_le (in_charset cs) s). lia.
  - rewrite <- in_rev, downto_In. intros [_ H].
    pose proof (span_len_le (in_charset cs) s). lia.
  - rewrite in_flat_map. intros (k1 & H1 & H2).
    apply in_map_iff in H2. destruct H2 as (k2 & <- & H2).
    apply IH1 in H1. apply IH2 in H2. rewrite length_skipn in H2. lia.
  - rewrite in_app_iff. intros [H|H]; eauto.
  - destruct start; [|intros []]. intros [<-|[]]. lia.
  - destruct s; [|intros []]. intros [<-|[]]. cbn. lia.
Qed.

Lemma firstn_span p : forall k s,
  (k <= span_len p s)%nat ->
  forallb p (firstn k s) = true /\ List.length (firstn k s) = k.
Proof.
  induction k as [|k IH]; intros s H; [now destruct s|].
  destruct s as [|c s]; cbn in H; [lia|].
  destruct (p c) eqn:E; [|lia].
  destruct (IH s ltac:(lia)) as [H1 H2]. cbn. rewrite E, H1, H2. auto.
Qed.

Lemma infix_firstn_skipn (s : jsstring) k1 k2 : infix (firstn k2 (skipn k1 s)) s.
Proof.
  exists (firstn k1 s), (skipn k2 (skipn k1 s)).
  now rewrite firstn_skipn, firstn_skipn.
Qed.

Lemma infix_cons (c : code_unit) s t : infix s t -> infix s (c :: t).
Proof. intros (a & b & ->). now exists (c :: a), b. Qed.

(** What a group [cs{min,}] captures. *)
Lemma capture_here_rep ci p cs min start s c :
  cap p = Rep cs min ->
  capture_here ci p start s = Some c ->
  forallb (in_charset cs) c = true /\ (min <= List.length c)%nat /\ infix c s.
Proof.
  intros Hcap H. unfold capture_here in H.
  apply first_some_Some in H. destruct H as (k1 & _ & H).
  apply first_some_Some in H. destruct H as (k2 & Hk2 & H).
  rewrite Hcap in Hk2. cbn [run] in Hk2. apply downto_In in Hk2.
  destruct (run ci (post p) _ _); [discriminate|]. injection H as <-.
  destruct (firstn_span (in_charset cs) k2 (skipn k1 s)) as [H1 H2]; [lia|].
  rewrite H1, H2. repeat split; [lia|apply infix_firstn_skipn].
Qed.

Lemma capture_rep ci p cs min s : forall start c,
  cap p = Rep cs min ->
  capture ci p start s = Some c ->
  forallb (in_charset cs) c = true /\ (min <= List.length c)%nat /\ infix c s.
Proof.
  induction s as [|x s IH]; intros start c Hcap; cbn [capture].
  - destruct (capture_here ci p start []) eqn:E; [|discriminate].
    intros [= <-]. eapply capture_here_rep; eauto.
  - destruct (capture_here ci p start (x :: s)) eqn:E.
    + intros [= <-]. eapply capture_here_rep; eauto.
    + intros H. destruct (IH _ _ Hcap H) as (H1 & H2 & H3).
      repeat split; auto using infix_cons.
Qed.

(** The group matcher agrees with the matcher of the whole pattern. *)
Lemma capture_here_run ci p start s :
  capture_here ci p start s = None <-> run ci (whole p) start s = [].
Proof.
  unfold capture_here, whole. cbn [run]. rewrite first_some_None.
  split.
  - intros H. induction (run ci (pre p) start s) as [|k1 l IH]; [reflexivity|].
    cbn [flat_map]. rewrite IH by (intros; apply H; cbn; auto).
    rewrite app_nil_r. specialize (H k1 (or_introl eq_refl)).
    rewrite first_some_None in H.
    induction (run ci (cap p) (start && (k1 =? 0)%nat) (skipn k1 s)) as [|k2 l2 IH2];
      [reflexivity|].
    cbn [flat_map map]. rewrite map_app, IH2 by (intros; apply H; cbn; auto).
    rewrite app_nil_r. specialize (H k2 (or_introl eq_refl)).
    destruct (run ci (post p) _ _); [reflexivity|discriminate].
  - intros H k1 Hk1. rewrite first_some_None. intros k2 Hk2.
    destruct (run ci (post p) (start && (k1 =? 0)%nat && (k2 =? 0)%nat)
                  (skipn k2 (skipn k1 s))) as [|k3 l3] eqn:E; [reflexivity|].
    exfalso.
    assert (Hin : In (k1 + (k2 + k3))%nat
                     (flat_map
                        (fun k => map (Nat.add k)
                           (flat_map
                              (fun k0 => map (Nat.add k0)
                                 (run ci (post p) (start && (k =? 0)%nat && (k0 =? 0)%nat)
                                      (skipn k0 (skipn k s))))
                              (run ci (cap p) (start && (k =? 0)%nat) (skipn k s))))
                        (run ci (pre p) start s))).
    { apply in_flat_map. exists k1. split; [assumption|].
      apply in_map. apply in_flat_map. exists k2. split; [assumption|].
      apply in_map. rewrite E. now left. }
    rewrite H in Hin. destruct Hin.
Qed.

Lemma capture_search ci p s : forall start,
  capture ci p start s = None <-> search ci (whole p) start s = false.
Proof.
  induction s as [|x s IH]; intros start; cbn [capture search].
  - destruct (capture_here ci p start []) eqn:E.
    + destruct (run ci (whole p) start []) eqn:R.
      * apply capture_here_run in R. congruence.
      * split; discriminate.
    + apply capture_here_run in E. rewrite E. tauto.
  - destruct (capture_here ci p start (x :: s)) eqn:E.
    + destruct (run ci (whole p) start (x :: s)) eqn:R.
      * apply capture_here_run in R. congruence.
      * split; discriminate.
    + apply capture_here_run in E. rewrite E. apply IH.
Qed.

End ExecFacts.

(** ** extractStockId *)

Section StockIdFacts.
Import RegexExec StockId StockIdSpec.

Lemma in_digit c : in_charset digit c = is_digit c.
Proof. cbn. unfold is_digit. apply orb_false_r. Qed.

Lemma forallb_digit s : forallb (in_charset digit) s = forallb is_digit s.
Proof. induction s as [|c s IH]; [reflexivity|]. cbn [forallb]. now rewrite in_digit, IH. Qed.

Lemma span_len_digit s : span_len (in_charset digit) s = span_len is_digit s.
Proof. induction s as [|c s IH]; [reflexivity|]. cbn [span_len]. now rewrite in_digit, IH. Qed.

Lemma patterns_cap p :
  In p patterns -> exists min, cap p = Rep digit min /\ (1 <= min)%nat.
Proof.
  unfold patterns. cbn [In].
  intros H. repeat destruct H as [<-|H]; try destruct H; cbn [cap]; eexists; split;
    try reflexivity; lia.
Qed.

Lemma capture_unfold ci p start s :
  capture ci p start s =
  match capture_here ci p start s with
  | Some c => Some c
  | None => match s with [] => None | _ :: s' => capture ci p false s' end
  end.
Proof. destruct s; reflexivity. Qed.

Lemma span_len_app p d b :
  forallb p d = true -> span_len p (d ++ b) = (List.length d + span_len p b)%nat.
Proof.
  induction d as [|c d IH]; [reflexivity|]. cbn. destruct (p c); [|discriminate].
  intros H. now rewrite IH.
Qed.

Lemma downto_head n min : (min <= n)%nat -> exists l, downto n min = n :: l.
Proof.
  destruct n as [|n]; intros H.
  - assert (min = 0)%nat as -> by lia. cbn. eauto.
  - rewrite downto_S by lia. eauto.
Qed.

Lemma extractStockId_cases url :
  (extractStockId url = []
   /\ forall p, In p patterns -> capture false p true url = None)
  \/ exists n, decides n url (extractStockId url).
Proof.
  unfold extractStockId.
  assert (G : forall l done,
             patterns = done ++ l ->
             (forall q, In q done -> capture false q true url = None) ->
             (first_some (fun p => capture false p true url) l = None
              /\ forall p, In p patterns -> capture false p true url = None)
             \/ exists n id,
                  first_some (fun p => capture false p true url) l = Some id
                  /\ decides n url id).
  { induction l as [|p l IH]; intros done E Hdone.
    - left. split; [reflexivity|]. rewrite E, app_nil_r. exact Hdone.
    - cbn [first_some]. destruct (capture false p true url) as [id|] eqn:C.
      + right. exists (List.length done), id. split; [reflexivity|].
        exists p. rewrite E. repeat split.
        * rewrite nth_error_app2, Nat.sub_diag by lia. reflexivity.
        * exact C.
        * intros q. rewrite firstn_app, Nat.sub_diag, firstn_all, app_nil_r. apply Hdone.
      + apply (IH (done ++ [p])).
        * now rewrite <- app_assoc.
        * intros q Hq. apply in_app_iff in Hq. destruct Hq as [Hq|[<-|[]]]; auto. }
  destruct (G patterns [] eq_refl ltac:(intros q [])) as [[E H]|(n & id & E & D)].
  - left. now rewrite E.
  - right. exists n. now rewrite E.
Qed.

Lemma decides_digits n url id :
  decides n url id ->
  forallb is_digit id = true /\ id <> [] /\ infix id url.
Proof.
  intros (p & Hp & C & _). apply nth_error_In in Hp.
  destruct (patterns_cap p Hp) as (min & Hcap & Hmin).
  destruct (capture_rep false p digit min url true id Hcap C) as (H1 & H2 & H3).
  rewrite forallb_digit in H1. repeat split; auto.
  intros ->. cbn in H2. lia.
Qed.

End StockIdFacts.

Section StockIdTheorems.
Import RegexExec StockId StockIdSpec.

(** X1. The stock id read off a URL is a run of decimal digits that
    occurs in the URL; a URL without digits has the empty id. *)
Theorem extractStockId_digits_of_url (url : jsstring) :
  forallb is_digit (extractStockId url) = true
  /\ infix (extractStockId url) url
  /\ (forallb (fun c => negb (is_digit c)) url = true -> extractStockId url = []).
Proof.
  assert (H : forallb is_digit (extractStockId url) = true
              /\ infix (extractStockId url) url).
  { destruct (extractStockId_cases url) as [[E _]|[n D]].
    - rewrite E. split; [reflexivity|]. now exists [], url.
    - apply decides_digits in D. tauto. }
  destruct H as [Hd Hi]. repeat split; auto.
  intros Hno. destruct (extractStockId url) as [|c id]; [reflexivity|].
  destruct Hi as (a & b & ->). rewrite forallb_app in Hno.
  cbn in Hd, Hno. destruct (is_digit c); [|discriminate].
  cbn in Hno. now rewrite andb_false_r in Hno.
Qed.

Lemma head_not_digit front d rest :
  no_numeric_segment (47%N :: front) = true ->
  span_len (in_charset digit) (front ++ 47%N :: d ++ rest) = 0%nat.
Proof.
  rewrite span_len_digit. destruct front as [|c front]; [reflexivity|].
  cbn. destruct (is_digit c); [discriminate|reflexivity].
Qed.

Lemma capture_segment d rest :
  d <> [] -> forallb is_digit d = true -> segment_end rest = true ->
  forall front start,
    no_numeric_segment front = true ->
    capture false (Build_Captured (Chr 47%N) (Rep digit 1)
                     (Alt (Chr 63%N) (Alt Eol (Chr 47%N))))
            start (front ++ 47%N :: d ++ rest) = Some d.
Proof.
  intros Hne Hd Hend. induction front as [|c front IH]; intros start Hfront.
  - rewrite capture_unfold. unfold capture_here. cbn [pre cap post app].
    cbn [run chr_match]. rewrite N.eqb_refl. cbn [first_some skipn].
    cbn [run]. rewrite span_len_app by now rewrite forallb_digit.
    assert (span_len (in_charset digit) rest = 0%nat) as ->.
    { rewrite span_len_digit. destruct rest as [|x rest]; [reflexivity|].
      cbn in Hend |- *. apply orb_true_iff in Hend.
      destruct Hend as [E|E]; apply N.eqb_eq in E; subst x; reflexivity. }
    rewrite Nat.add_0_r.
    destruct (downto_head (List.length d) 1) as [l ->].
    { destruct d; [congruence|cbn; lia]. }
    cbn [first_some]. rewrite skipn_app, skipn_all, Nat.sub_diag. cbn [app skipn].
    rewrite firstn_app, firstn_all, Nat.sub_diag. cbn [firstn]. rewrite app_nil_r.
    destruct rest as [|x rest]; [reflexivity|].
    cbn in Hend. cbn [run chr_match].
    destruct (63 =? x)%N eqn:E1; [reflexivity|].
    destruct (47 =? x)%N eqn:E2; [reflexivity|].
    rewrite N.eqb_sym in E1. rewrite N.eqb_sym in E2. now rewrite E1, E2 in Hend.
  - cbn [app]. rewrite capture_unfold.
    assert (capture_here false
              (Build_Captured (Chr 47%N) (Rep digit 1)
                 (Alt (Chr 63%N) (Alt Eol (Chr 47%N))))
              start (c :: front ++ 47%N :: d ++ rest) = None) as ->.
    { unfold capture_here. cbn [pre cap post]. cbn [run chr_match].
      destruct (47 =? c)%N eqn:E; [|reflexivity].
      apply N.eqb_eq in E. subst c.
      cbn [first_some skipn]. cbn [run].
      rewrite head_not_digit by assumption. reflexivity. }
    apply IH. cbn in Hfront. apply andb_true_iff in Hfront. tauto.
Qed.

(** X2. When no earlier [/] of the URL is directly followed by a digit,
    the first path segment made of digits is the stock id. *)
Theorem extractStockId_first_numeric_segment (front d rest : jsstring) :
  no_numeric_segment front = true ->
  d <> [] -> forallb is_digit d = true ->
  segment_end rest = true ->
  extractStockId (front ++ 47%N :: d ++ rest) = d.
Proof.
  intros Hfront Hne Hd Hend. unfold extractStockId, patterns.
  cbn [first_some]. now rewrite capture_segment.
Qed.

Lemma extractStockId_first_numeric_segment_witness :
  extractStockId (js "https://stock.adobe.com/images/red-fox/123456?prev_url=detail")
  = js "123456".
Proof.
  apply (extractStockId_first_numeric_segment
           (js "https://stock.adobe.com/images/red-fox")
           (js "123456") (js "?prev_url=detail"));
    [reflexivity|discriminate|reflexivity|reflexivity].
Defined.

Lemma capture_long d b :
  forallb is_digit d = true -> (7 <= List.length d)%nat ->
  forall a start,
    capture false (Build_Captured Empty (Rep digit 7) Empty) start (a ++ d ++ b)
    <> None.
Proof.
  intros Hd Hlen. induction a as [|c a IH]; intros start.
  - rewrite capture_unfold. unfold capture_here. cbn [pre cap post app].
    cbn [run first_some skipn].
    rewrite span_len_app by now rewrite forallb_digit.
    destruct (downto_head (List.length d + span_len (in_charset digit) b) 7) as [l ->];
      [lia|].
    cbn [first_some]. discriminate.
  - cbn [app]. rewrite capture_unfold.
    destruct (capture_here _ _ _ _); [discriminate|]. apply IH.
Qed.

(** X3. A URL with seven or more consecutive digits never has the
    empty stock id. *)
Theorem extractStockId_long_number (a d b : jsstring) :
  forallb is_digit d = true -> (7 <= List.length d)%nat ->
  extractStockId (a ++ d ++ b) <> [].
Proof.
  intros Hd Hlen.
  destruct (extractStockId_cases (a ++ d ++ b)) as [[_ H]|[n D]].
  - exfalso. apply (capture_long d b Hd Hlen a true).
    apply H. unfold patterns. cbn. tauto.
  - apply decides_digits in D. tauto.
Qed.

Lemma extractStockId_long_number_witness :
  extractStockId (js "https://www.shutterstock.com/image-photo/red-fox-snow-1234567890")
  <> [].
Proof.
  apply (extractStockId_long_number
           (js "https://www.shutterstock.com/image-photo/red-fox-snow-")
           (js "1234567890") []); [reflexivity|cbn; lia].
Defined.

End StockIdTheorems.

Section Shadowing.
Import RegexExec RegexSpec StockId StockIdSpec.

Lemma run_unanchored ci r :
  unanchored r = true -> forall b b' s, run ci r b s = run ci r b' s.
Proof.
  induction r as [|p|cs min|cs min|r1 IH1 r2 IH2|r1 IH1 r2 IH2| |];
    cbn [unanchored run];
    try reflexivity; try discriminate.
  - intros H b b' s. apply andb_true_iff in H. destruct H as [H1 H2].
    rewrite (IH1 H1 b b' s). apply flat_map_ext. intros k.
    now rewrite (IH2 H2 (b && (k =? 0)%nat) (b' && (k =? 0)%nat)).
  - intros H b b' s. apply andb_true_iff in H. destruct H as [H1 H2].
    now rewrite (IH1 H1 b b' s), (IH2 H2 b b' s).
Qed.

Lemma search_unfold ci r start s :
  search ci r start s =
  match run ci r start s with
  | _ :: _ => true
  | [] => match s with [] => false | _ :: s' => search ci r false s' end
  end.
Proof. destruct s; reflexivity. Qed.

Lemma search_intro ci r :
  unanchored r = true ->
  forall front start suf,
    run ci r false suf <> [] -> search ci r start (front ++ suf) = true.
Proof.
  intros Hr. induction front as [|c front IH]; intros start suf H.
  - cbn [app]. rewrite search_unfold, (run_unanchored ci r Hr start false).
    destruct (run ci r false suf); congruence.
  - cbn [app search]. destruct (run ci r start (c :: front ++ suf)); auto.
Qed.

Lemma search_elim ci r s : forall start,
  search ci r start s = true ->
  exists front suf b, s = front ++ suf /\ run ci r b suf <> [].
Proof.
  induction s as [|c s IH]; intros start; cbn [search].
  - destruct (run ci r start []) eqn:E; [discriminate|].
    intros _. exists [], [], start. split; [reflexivity|congruence].
  - destruct (run ci r start (c :: s)) eqn:E.
    + intros H. destruct (IH _ H) as (front & suf & b & -> & Hrun).
      now exists (c :: front), suf, b.
    + intros _. exists [], (c :: s), start. split; [reflexivity|congruence].
Qed.

(** A match of [L O P R] holds a match of [P R]. *)
Lemma seq_tail ci L O P R b s :
  unanchored P = true -> unanchored R = true ->
  run ci (Seq (Seq L (Seq O P)) R) b s <> [] ->
  exists front suf, s = front ++ suf /\ run ci (Seq P R) false suf <> [].
Proof.
  intros HP HR H.
  destruct (run ci (Seq (Seq L (Seq O P)) R) b s) as [|k l] eqn:E; [congruence|].
  assert (Hin : In k (run ci (Seq (Seq L (Seq O P)) R) b s)) by (rewrite E; now left).
  clear E H. cbn [run] in Hin.
  apply in_flat_map in Hin. destruct Hin as (k1 & H1 & H2).
  apply in_map_iff in H2. destruct H2 as (kR & _ & HkR).
  apply in_flat_map in H1. destruct H1 as (kL & _ & H1).
  apply in_map_iff in H1. destruct H1 as (j & <- & Hj).
  apply in_flat_map in Hj. destruct Hj as (kO & _ & Hj).
  apply in_map_iff in Hj. destruct Hj as (kP & <- & HkP).
  exists (firstn (kO + kL) s), (skipn (kO + kL) s).
  split; [now rewrite firstn_skipn|].
  rewrite skipn_skipn in HkP.
  assert (Hin : In (kP + kR)%nat (run ci (Seq P R) false (skipn (kO + kL) s))).
  { cbn [run]. apply in_flat_map. exists kP. split.
    - now rewrite (run_unanchored ci P HP false (b && (kL =? 0)%nat && (kO =? 0)%nat)).
    - apply in_map. rewrite skipn_skipn.
      rewrite (run_unanchored ci R HR _ (b && (kL + (kO + kP) =? 0)%nat)).
      now replace (kP + (kO + kL))%nat with (kL + (kO + kP))%nat by lia. }
  intros E. rewrite E in Hin. destruct Hin.
Qed.

(** X4. The fifth pattern of [extractStockId] never decides the result:
    whenever it matches, the fourth pattern matches too and is tried
    first. *)
Theorem extractStockId_stock_id_pattern_shadowed (url id : jsstring) :
  ~ decides 4 url id.
Proof.
  intros (p & Hp & C & Hprev). cbn in Hp. injection Hp as <-.
  pose (p4 := {| pre := Seq (lit (js "id")) (either 61%N 58%N);
                 cap := Rep digit 1; post := Empty |}).
  assert (H4 : capture false p4 true url = None).
  { apply Hprev. cbn. tauto. }
  apply capture_search in H4.
  match type of C with capture _ ?q _ _ = _ => set (p5 := q) in * end.
  assert (H5 : search false (whole p5) true url = true).
  { destruct (search false (whole p5) true url) eqn:E; [reflexivity|].
    apply capture_search in E. congruence. }
  apply search_elim in H5. destruct H5 as (front & suf & b & -> & Hrun).
  apply (seq_tail false (lit (js "stock")) (Alt (either 95%N 45%N) Empty)
                  (pre p4) (Seq (cap p4) (post p4)) b suf eq_refl eq_refl) in Hrun.
  destruct Hrun as (front' & suf' & -> & Hrun).
  rewrite app_assoc in H4.
  rewrite (search_intro false (whole p4) eq_refl (front ++ front') true suf' Hrun) in H4.
  discriminate.
Qed.

End Shadowing.

(** ** cleanText, further *)

Section CleanTextMore.
Import TextSpec PlatformScraper.

Lemma space_not_word c : is_space c = true -> is_word c = false.
Proof.
  intros H. destruct (is_word c) eqn:E; [|reflexivity].
  apply word_not_space in E. congruence.
Qed.

(** The collapsing pass keeps the word characters and does not lengthen
    the text. *)
Lemma collapse_keeps s : forall start k,
  (k <= span_len is_space s)%nat ->
  filter is_word (replace_go false re_spaces [SPACE] start k s) = filter is_word s
  /\ (List.length (replace_go false re_spaces [SPACE] start k s) + k
      <= List.length s)%nat.
Proof.
  induction s as [|c s IH]; intros start k Hk.
  - cbn in Hk. assert (k = 0)%nat as -> by lia. cbn. auto.
  - destruct k as [|k].
    + rewrite replace_go_0, run_spaces. cbn [span_len].
      destruct (is_space c) eqn:Ec.
      * rewrite downto_S by lia. cbn [app].
        destruct (IH false (span_len is_space s) (Nat.le_refl _)) as [IH1 IH2].
        cbn [filter List.length]. rewrite (space_not_word c Ec), IH1.
        split; [reflexivity|]. cbn. lia.
      * rewrite downto_lt by lia.
        destruct (IH false 0%nat (Nat.le_0_l _)) as [IH1 IH2].
        cbn [filter List.length]. rewrite IH1. split; [reflexivity|]. lia.
    + cbn [span_len] in Hk. destruct (is_space c) eqn:Ec; [|lia].
      change (replace_go false re_spaces [SPACE] start (S k) (c :: s))
        with (replace_go false re_spaces [SPACE] false k s).
      destruct (IH false k ltac:(lia)) as [IH1 IH2].
      cbn [filter List.length]. rewrite (space_not_word c Ec).
      split; [assumption|lia].
Qed.

Lemma filter_word_nonword s : forallb nonword s = true -> filter is_word s = [].
Proof.
  induction s as [|c s IH]; [reflexivity|]. cbn. unfold nonword at 1.
  destruct (is_word c); [discriminate|]. exact IH.
Qed.

Lemma nonword_filter_word s : filter is_word s = [] -> forallb nonword s = true.
Proof.
  induction s as [|c s IH]; [reflexivity|]. cbn. unfold nonword at 1.
  destruct (is_word c); [discriminate|]. exact IH.
Qed.

Lemma dropWhile_nonword_keeps s :
  filter is_word (dropWhile nonword s) = filter is_word s
  /\ (List.length (dropWhile nonword s) <= List.length s)%nat.
Proof.
  induction s as [|c s [IH1 IH2]]; [auto|]. cbn [dropWhile]. unfold nonword at 1 3.
  destruct (is_word c) eqn:E; cbn [negb].
  - auto.
  - cbn [filter List.length]. rewrite E. split; [assumption|lia].
Qed.

Lemma stripTail_keeps s :
  filter is_word (stripTail s) = filter is_word s
  /\ (List.length (stripTail s) <= List.length s)%nat.
Proof.
  induction s as [|c s [IH1 IH2]]; [auto|]. cbn [stripTail].
  destruct (forallb nonword (c :: s)) eqn:E.
  - rewrite (filter_word_nonword _ E). cbn. split; [reflexivity|lia].
  - cbn [filter List.length]. rewrite IH1. split; [reflexivity|lia].
Qed.

Lemma cleanText_word_chars s : filter is_word (cleanText s) = filter is_word s.
Proof.
  rewrite cleanText_edges, replace_edges_start.
  rewrite (proj1 (stripTail_keeps _)), (proj1 (dropWhile_nonword_keeps _)).
  exact (proj1 (collapse_keeps s true 0 (Nat.le_0_l _))).
Qed.

(** X5. [cleanText] removes or replaces non-word characters only: the
    word characters of the text are kept, in their order, and the text
    does not get longer. *)
Theorem cleanText_keeps_word_characters (s : jsstring) :
  filter is_word (cleanText s) = filter is_word s
  /\ (List.length (cleanText s) <= List.length s)%nat.
Proof.
  rewrite cleanText_edges, replace_edges_start.
  destruct (collapse_keeps s true 0 (Nat.le_0_l _)) as [C1 C2].
  fold (replace_all false re_spaces [SPACE] s) in C1, C2.
  destruct (dropWhile_nonword_keeps (replace_all false re_spaces [SPACE] s)) as [D1 D2].
  destruct (stripTail_keeps (dropWhile nonword (replace_all false re_spaces [SPACE] s)))
    as [S1 S2].
  split; [congruence|lia].
Qed.

(** X6. [cleanText] answers the empty text exactly for the texts without
    a word character. *)
Theorem cleanText_empty_iff_no_word_character (s : jsstring) :
  cleanText s = [] <-> forallb (fun c => negb (is_word c)) s = true.
Proof.
  change (fun c => negb (is_word c)) with nonword.
  pose proof (cleanText_word_chars s) as K. split.
  - intros E. rewrite E in K. apply nonword_filter_word. now rewrite <- K.
  - intros H. apply filter_word_nonword in H. rewrite H in K.
    destruct (cleanText_clean s) as (Hh & _).
    destruct (cleanText s) as [|c t]; [reflexivity|].
    cbn in Hh, K. rewrite Hh in K. discriminate.
Qed.

End CleanTextMore.

(** ** Selector-driven extraction, further *)

Section ExtractionMore.
Import Types Dom PlatformScraper TextSpec.

Lemma pushTag_In results el t :
  In t (pushTag results el)
  <-> In t results \/ (t <> [] /\ trim (textContent el) = t).
Proof.
  unfold pushTag.
  destruct (truthy (trim (textContent el))) eqn:Et; cbn [andb].
  - apply truthy_true in Et.
    destruct (includes results (trim (textContent el))) eqn:Ei; cbn [negb].
    + apply includes_In in Ei. split; [auto|].
      intros [H|[_ <-]]; assumption.
    + rewrite in_app_iff. cbn [In]. split.
      * intros [H|[<-|[]]]; auto.
      * intros [H|[_ <-]]; auto.
  - split; [auto|]. intros [H|[Hne E]]; [assumption|].
    subst t. destruct (trim (textContent el)); [congruence|discriminate].
Qed.

Lemma fold_pushTag_In els : forall results t,
  In t (fold_left pushTag els results)
  <-> In t results \/ (t <> [] /\ exists el, In el els /\ trim (textContent el) = t).
Proof.
  induction els as [|el els IH]; intros results t; cbn [fold_left].
  - split; [auto|]. intros [H|(_ & el & [] & _)]. assumption.
  - rewrite IH, pushTag_In. split.
    + intros [[H|[Hne E]]|(Hne & el' & Hin & E)]; auto.
      * right. split; [assumption|]. exists el. cbn. auto.
      * right. split; [assumption|]. exists el'. cbn. auto.
    + intros [H|(Hne & el' & [<-|Hin] & E)]; auto.
      right. split; [assumption|]. now exists el'.
Qed.

Lemma extractArray_In (dom : Root) selectors : forall results t,
  In t (fold_left (fun results selector => fold_left pushTag (dom selector) results)
                  selectors results)
  <-> In t results
      \/ (t <> [] /\ exists selector el,
            In selector selectors /\ In el (dom selector)
            /\ trim (textContent el) = t).
Proof.
  induction selectors as [|sel selectors IH]; intros results t; cbn [fold_left].
  - split; [auto|]. intros [H|(_ & sel & el & [] & _)]. assumption.
  - rewrite IH, fold_pushTag_In. split.
    + intros [[H|(Hne & el & Hin & E)]|(Hne & sel' & el & Hs & Hin & E)]; auto.
      * right. split; [assumption|]. exists sel, el. cbn. auto.
      * right. split; [assumption|]. exists sel', el. cbn. auto.
    + intros [H|(Hne & sel' & el & [<-|Hs] & Hin & E)]; auto.
      * left. right. split; [assumption|]. now exists el.
      * right. split; [assumption|]. now exists sel', el.
Qed.

(** X7. [extractArrayWithSelectors] collects, without repetition, exactly
    the non-empty trimmed texts of the elements the selectors match. *)
Theorem extractArrayWithSelectors_collects (dom : Root) (selectors : list jsstring) :
  NoDup (extractArrayWithSelectors dom selectors)
  /\ forall t,
       In t (extractArrayWithSelectors dom selectors)
       <-> t <> []
           /\ exists selector el,
                In selector selectors /\ In el (dom selector)
                /\ trim (textContent el) = t.
Proof.
  split; [apply extractArrayWithSelectors_NoDup|].
  intros t. unfold extractArrayWithSelectors. rewrite extractArray_In.
  cbn [In]. tauto.
Qed.

(** X8. The text fields [extractGenericMetadata] fills are normalised:
    title, description and category have the shape [cleanText] produces,
    every tag is a non-empty cleaned text of a matched element, and no
    image is attached. *)
Theorem extractGenericMetadata_normalised
        (info : PlatformInfo) (dom : Root) (url : jsstring) (now : Z) :
  clean (title (extractGenericMetadata StockId.extractStockId info dom url now))
  /\ clean (description (extractGenericMetadata StockId.extractStockId info dom url now))
  /\ clean (category (extractGenericMetadata StockId.extractStockId info dom url now))
  /\ (forall tag,
        In tag (tags (extractGenericMetadata StockId.extractStockId info dom url now)) ->
        tag <> [] /\ clean tag
        /\ exists raw,
             In raw (extractArrayWithSelectors dom (sel_tags (selectors info)))
             /\ tag = cleanText raw)
  /\ imageBase64 (extractGenericMetadata StockId.extractStockId info dom url now) = None
  /\ platform (extractGenericMetadata StockId.extractStockId info dom url now) = id info.
Proof.
  unfold extractGenericMetadata. cbn [title description category tags imageBase64 platform].
  split; [apply cleanText_clean|]. split; [apply cleanText_clean|].
  split.
  { destruct (sel_category (selectors info)); [apply cleanText_clean|].
    repeat split. intros pre c E. now destruct pre. }
  split; [|split; reflexivity].
  intros tag Hin. unfold genericTags in Hin. apply filter_In in Hin.
  destruct Hin as [Hin Hlen]. apply in_map_iff in Hin. destruct Hin as (raw & <- & Hraw).
  split; [|split].
  - intros E. rewrite E in Hlen. discriminate.
  - apply cleanText_clean.
  - now exists raw.
Qed.

End ExtractionMore.

(** ** Platform identification, further *)

Section IdentifyMore.
Import Types Effects WebScrapingEngine TextSpec EngineSpec.

Lemma ci_eq_sym a b : ci_eq a b -> ci_eq b a.
Proof. unfold ci_eq. induction 1; constructor; auto. Qed.

Lemma ci_eq_trans a b c : ci_eq a b -> ci_eq b c -> ci_eq a c.
Proof.
  unfold ci_eq. intros H. revert c.
  induction H as [|x y a b Hxy _ IH]; intros c Hc; inversion Hc; subst; constructor.
  - congruence.
  - now apply IH.
Qed.

Lemma occurs_ci alt url url' : ci_eq url url' -> occurs alt url -> occurs alt url'.
Proof.
  intros Hci (pre & block & post & -> & Halt). unfold ci_eq in Hci.
  apply Forall2_app_inv_l in Hci. destruct Hci as (pre' & rest' & _ & Hrest & ->).
  apply Forall2_app_inv_l in Hrest. destruct Hrest as (block' & post' & Hblock & _ & ->).
  exists pre', block', post'. split; [reflexivity|].
  now apply (ci_eq_trans alt block block').
Qed.

Lemma test_ci p url url' :
  ci_eq url url' ->
  test true (pattern_regex p) url = test true (pattern_regex p) url'.
Proof.
  intros Hci.
  destruct (test true (pattern_regex p) url) eqn:E1,
           (test true (pattern_regex p) url') eqn:E2; try reflexivity.
  - apply test_pattern_occurs in E1. destruct E1 as (alt & Hin & Hocc).
    assert (test true (pattern_regex p) url' = true) as H.
    { apply test_pattern_occurs. exists alt. split; [assumption|].
      now apply (occurs_ci alt url url'). }
    congruence.
  - apply test_pattern_occurs in E2. destruct E2 as (alt & Hin & Hocc).
    assert (test true (pattern_regex p) url = true) as H.
    { apply test_pattern_occurs. exists alt. split; [assumption|].
      apply (occurs_ci alt url' url); [now apply ci_eq_sym|assumption]. }
    congruence.
Qed.

Lemma firstMatch_ci url url' table :
  ci_eq url url' -> firstMatch table url = firstMatch table url'.
Proof.
  intros Hci. induction table as [|[platform pattern] table IH]; [reflexivity|].
  cbn [firstMatch]. rewrite (test_ci pattern url url' Hci), IH. reflexivity.
Qed.

(** X9. [identifyPlatform] does not look at the case of ASCII letters:
    two URLs that differ only there get the same answer. *)
Theorem identifyPlatform_ignores_case (url url' : jsstring) :
  ci_eq url url' -> identifyPlatform url = identifyPlatform url'.
Proof.
  intros Hci. unfold identifyPlatform. now rewrite (firstMatch_ci url url' _ Hci).
Qed.

Lemma identifyPlatform_ignores_case_witness :
  identifyPlatform (js "HTTPS://WWW.Shutterstock.COM/Image-Photo/Fox-123")
  = identifyPlatform (js "https://www.shutterstock.com/image-photo/fox-123").
Proof.
  apply identifyPlatform_ignores_case.
  unfold ci_eq. repeat constructor.
Defined.

Lemma firstMatch_key url : forall table platform,
  firstMatch table url = Some platform -> In platform (keys table).
Proof.
  induction table as [|[p pattern] table IH]; intros platform; cbn [firstMatch].
  - discriminate.
  - destruct (test true (pattern_regex pattern) url).
    + intros [= <-]. now left.
    + intros H. right. now apply IH.
Qed.

(** X10. Every platform [identifyPlatform] can answer has a registered
    scraper and is listed by [getSupportedPlatforms]: the lookup of
    [scrapeStockURL] after a successful identification never misses. *)
Theorem identifyPlatform_registered (url platform : jsstring) :
  identifyPlatform url = Normal platform ->
  (exists scraper, get platformScrapers platform = Some scraper)
  /\ (exists sp, In sp getSupportedPlatforms /\ sp_id sp = platform)
  /\ In platform (keys platformPatterns).
Proof.
  unfold identifyPlatform.
  destruct (firstMatch platformPatterns url) as [p|] eqn:E; [|discriminate].
  intros [= <-]. apply firstMatch_key in E.
  split; [|split; [|assumption]].
  - cbn in E. repeat destruct E as [<-|E]; try destruct E; cbn; eauto.
  - assert (H : existsb (fun sp => eqs (sp_id sp) p) getSupportedPlatforms = true).
    { cbn in E. repeat destruct E as [<-|E]; try destruct E; reflexivity. }
    apply existsb_exists in H. destruct H as (sp & Hin & Hid).
    apply eqs_true in Hid. now exists sp.
Qed.

Lemma identifyPlatform_registered_witness :
  (exists scraper, get platformScrapers (js "creative-fabrica") = Some scraper)
  /\ (exists sp, In sp getSupportedPlatforms /\ sp_id sp = js "creative-fabrica")
  /\ In (js "creative-fabrica") (keys platformPatterns).
Proof.
  apply (identifyPlatform_registered (js "https://www.creativefabrica.com/product/fox/")).
  reflexivity.
Defined.

End IdentifyMore.

(** ** The scraping engine, further *)

Section EngineMore.
Import Types Effects Effects.Notations WebScrapingEngine EngineSpec Fixtures MoreFixtures.

Lemma scrapeStockURL_outcome w s url :
  exists result s',
    scrapeStockURL url w s = (Normal result, s')
    /\ processingTime result
       = (clock w (Nat.pred (ticks s')) - clock w (ticks s))%Z
    /\ ((success result = true /\ error result = None
         /\ exists metadata,
              data result = Some metadata
              /\ (title metadata <> [] \/ imageUrl metadata <> []))
        \/ (success result = false /\ data result = None
            /\ exists message, error result = Some message)).
Proof.
  assert (F : forall message s1,
             exists result s',
               failed w (clock w (ticks s)) message s1 = (Normal result, s')
               /\ processingTime result
                  = (clock w (Nat.pred (ticks s')) - clock w (ticks s))%Z
               /\ ((success result = true /\ error result = None
                    /\ exists metadata,
                         data result = Some metadata
                         /\ (title metadata <> [] \/ imageUrl metadata <> []))
                   \/ (success result = false /\ data result = None
                       /\ exists message, error result = Some message))).
  { intros message s1. unfold failed.
    eexists; eexists; split; [reflexivity|]. split; [reflexivity|].
    right. repeat split. now exists message. }
  rewrite scrapeStockURL_run. cbv zeta.
  destruct (negb (validProtocol w url)); [apply F|].
  destruct (identifyPlatform url) as [platform|e]; [|apply F].
  destruct (get platformScrapers platform) as [scraper|]; [|apply F].
  destruct (scraper url w (tick s)) as [[metadata|e] s1]; [|apply F].
  destruct (negb (truthy (title metadata)) && negb (truthy (imageUrl metadata))) eqn:E;
    [apply F|].
  destruct (attachImage_total w s1 metadata) as (metadata' & s2 & -> & Ht & Hi).
  eexists; eexists; split; [reflexivity|]. split; [reflexivity|].
  left. repeat split. exists metadata'. split; [reflexivity|].
  rewrite Ht, Hi. apply andb_false_iff in E.
  destruct E as [E|E]; apply negb_false_iff, truthy_true in E; auto.
Qed.

(** X11. [scrapeStockURL] never throws: every run ends with an envelope
    that either reports success with data and no error, or failure with
    an error message and no data; the reported time is the distance
    between the first and the last reading of the clock. *)
Theorem scrapeStockURL_envelope (w : World) (s : State) (url : jsstring) :
  exists result s',
    scrapeStockURL url w s = (Normal result, s')
    /\ processingTime result
       = (clock w (Nat.pred (ticks s')) - clock w (ticks s))%Z
    /\ ((success result = true /\ error result = None
         /\ exists metadata, data result = Some metadata)
        \/ (success result = false /\ data result = None
            /\ exists message, error result = Some message)).
Proof.
  destruct (scrapeStockURL_outcome w s url) as (result & s' & E & T & H).
  exists result, s'. split; [exact E|]. split; [exact T|].
  destruct H as [(H1 & H2 & metadata & H3 & _)|H]; [left|right; exact H].
  repeat split; try assumption. now exists metadata.
Qed.

(** What the site scrapers send. *)
Lemma extractGenericMetadata_run platformInfo url w s :
  BaseScraper.extractGenericMetadata platformInfo url w s
  = match pageGet w (List.length (calls s)) url with
    | PageFailed m =>
        (Throw (Error (js "Failed to fetch HTML: " ++ m)),
         sent (BaseScraper.pageCall url) s)
    | PageLoaded dom =>
        (Normal (PlatformScraper.extractGenericMetadata StockId.extractStockId
                   platformInfo dom url (clock w (ticks s))),
         tick (sent (BaseScraper.pageCall url) s))
    end.
Proof.
  unfold BaseScraper.extractGenericMetadata, BaseScraper.fetchHTML, bind, now, ret.
  destruct (pageGet w (List.length (calls s)) url); reflexivity.
Qed.

Lemma fetchHTML_sent url w s :
  exists outcome,
    BaseScraper.fetchHTML url w s = (outcome, sent (BaseScraper.pageCall url) s).
Proof.
  unfold BaseScraper.fetchHTML.
  destruct (pageGet w (List.length (calls s)) url); eexists; reflexivity.
Qed.

Ltac one_page :=
  intros outcome s1;
  unfold try_catch, bind, ret, throw; rewrite extractGenericMetadata_run;
  match goal with
  | |- context [pageGet ?w ?n ?url] => destruct (pageGet w n url)
  end;
  [ intros [= _ <-]; reflexivity
  | match goal with
    | |- context [if ?b then _ else _] => destruct b
    end; intros [= _ <-]; reflexivity ].

Lemma iconscout_sends url w s outcome s1 :
  IconscoutExtract.extractMetadata url w s = (outcome, s1) ->
  calls s1 = calls s ++ [BaseScraper.pageCall url].
Proof. revert outcome s1. unfold IconscoutExtract.extractMetadata. one_page. Qed.

Lemma arabstock_sends url w s outcome s1 :
  ArabstockScraper.extractMetadata url w s = (outcome, s1) ->
  calls s1 = calls s ++ [BaseScraper.pageCall url].
Proof. revert outcome s1. unfold ArabstockScraper.extractMetadata. one_page. Qed.

Lemma dreamstime_sends url w s outcome s1 :
  DreamstimeScraper.extractMetadata url w s = (outcome, s1) ->
  calls s1 = calls s ++ [BaseScraper.pageCall url].
Proof. revert outcome s1. unfold DreamstimeScraper.extractMetadata. one_page. Qed.

Lemma getty_sends url w s outcome s1 :
  GettyImagesScraper.extractMetadata url w s = (outcome, s1) ->
  calls s1 = calls s ++ [BaseScraper.pageCall url].
Proof. revert outcome s1. unfold GettyImagesScraper.extractMetadata. one_page. Qed.

Lemma pond5_sends url w s outcome s1 :
  Pond5Scraper.extractMetadata url w s = (outcome, s1) ->
  calls s1 = calls s ++ [BaseScraper.pageCall url].
Proof. revert outcome s1. unfold Pond5Scraper.extractMetadata. one_page. Qed.

Lemma vecteezy_sends url w s outcome s1 :
  VecteezyScraper.extractMetadata url w s = (outcome, s1) ->
  calls s1 = calls s ++ [BaseScraper.pageCall url].
Proof. revert outcome s1. unfold VecteezyScraper.extractMetadata. one_page. Qed.

Lemma creative_fabrica_sends url w s outcome s1 :
  CreativeFabricaScraper.extractMetadata url w s = (outcome, s1) ->
  calls s1 = calls s ++ [BaseScraper.pageCall url].
Proof. revert outcome s1. unfold CreativeFabricaScraper.extractMetadata. one_page. Qed.

Ltac two_pages :=
  intros outcome s1;
  unfold try_catch, bind, ret, throw, ask; rewrite extractGenericMetadata_run;
  match goal with
  | |- context [pageGet ?w (List.length (calls ?s)) ?url] =>
      destruct (pageGet w (List.length (calls s)) url);
      [ intros [= _ <-]; exists []; reflexivity
      | destruct (fetchHTML_sent url w (tick (sent (BaseScraper.pageCall url) s)))
          as [[?|?] ->];
        intros [= _ <-]; exists [BaseScraper.pageCall url];
        cbn [calls sent tick]; now rewrite <- app_assoc ]
  end.

Lemma shutterstock_sends url w s outcome s1 :
  ShutterstockScraper.extractMetadata url w s = (outcome, s1) ->
  exists rest, calls s1 = calls s ++ BaseScraper.pageCall url :: rest.
Proof. revert outcome s1. unfold ShutterstockScraper.extractMetadata. two_pages. Qed.

Lemma adobe_sends url w s outcome s1 :
  AdobeStockScraper.extractMetadata url w s = (outcome, s1) ->
  exists rest, calls s1 = calls s ++ BaseScraper.pageCall url :: rest.
Proof. revert outcome s1. unfold AdobeStockScraper.extractMetadata. two_pages. Qed.

Lemma freepik_sends url w s outcome s1 :
  FreepikScraper.extractMetadata url w s = (outcome, s1) ->
  match browse w url with
  | LaunchFailed _ => calls s1 = calls s
  | _ => calls s1 = calls s ++ [BaseScraper.pageCall url]
  end.
Proof.
  unfold FreepikScraper.extractMetadata, BaseScraper.render.
  unfold try_catch, bind, ret, throw, now.
  destruct (browse w url); cbv beta iota zeta; intros E;
    apply (f_equal snd) in E; cbn [snd] in E; subst s1; reflexivity.
Qed.

(** After extraction the log only grows. *)
Lemma attachImage_extends w s metadata outcome s' :
  attachImage metadata w s = (outcome, s') ->
  exists rest, calls s' = calls s ++ rest.
Proof.
  unfold attachImage, downloadAndConvertImage, fetchAndProcess.
  unfold try_catch, bind, ret, throw.
  destruct (truthy (imageUrl metadata)); cbv beta iota zeta.
  - destruct (imageGet w (imageUrl metadata)) as [m|len processed];
      [|destruct (maxContentLength <? len)%N; [|destruct processed]];
      cbv beta iota zeta; intros E; apply (f_equal snd) in E; cbn [snd] in E;
      subst s'; eexists; reflexivity.
  - intros E. apply (f_equal snd) in E. cbn [snd] in E. subst s'.
    exists []. now rewrite app_nil_r.
Qed.

(** A scraper of a site, Freepik's with a browser that starts, sends the
    request for the page first. *)
Lemma site_scraper_sends platform scraper url w s outcome s1 :
  get platformScrapers platform = Some scraper ->
  platform <> js "mock" ->
  (forall m, browse w url <> LaunchFailed m) ->
  scraper url w s = (outcome, s1) ->
  exists rest, calls s1 = calls s ++ BaseScraper.pageCall url :: rest.
Proof.
  intros Hget Hmock Hlaunch Hrun. unfold platformScrapers in Hget. cbn [get] in Hget.
  repeat match type of Hget with
  | (if eqs platform ?k then _ else _) = _ =>
      destruct (eqs platform k) eqn:?E;
      [ injection Hget as <- | ]
  end.
  - now apply shutterstock_sends in Hrun.
  - apply freepik_sends in Hrun.
    destruct (browse w url) as [m| | |] eqn:B;
      [destruct (Hlaunch m eq_refl) | | |]; exists []; exact Hrun.
  - now apply adobe_sends in Hrun.
  - exists []. now apply getty_sends in Hrun.
  - exists []. now apply dreamstime_sends in Hrun.
  - exists []. now apply iconscout_sends in Hrun.
  - exists []. now apply pond5_sends in Hrun.
  - exists []. now apply arabstock_sends in Hrun.
  - exists []. now apply vecteezy_sends in Hrun.
  - exists []. now apply creative_fabrica_sends in Hrun.
  - apply eqs_true in E9. contradiction.
  - discriminate.
Qed.

(** X12. The URL is checked before a scraper is looked up. A URL that
    [isValidURL] refuses is answered [Invalid URL provided], whatever it
    contains, and a valid URL in which no domain text of the pattern
    table occurs is answered with the list of supported domains; in both
    cases the clock is read twice and nothing is sent. The log tells such
    a run from one that reaches a site scraper: for a valid URL of any
    platform but the mock one, and with a browser that starts, the first
    request logged is the one for the page. *)
Theorem scrapeStockURL_rejects_before_extraction
        (w : World) (s : State) (url : jsstring) :
  (validProtocol w url = false ->
   scrapeStockURL url w s
   = failed w (clock w (ticks s)) (js "Invalid URL provided") (tick s))
  /\ (validProtocol w url = true ->
      (forall p, In p platformPatterns -> ~ pattern_occurs (snd p) url) ->
      scrapeStockURL url w s
      = failed w (clock w (ticks s)) unsupportedMessage (tick s))
  /\ (forall outcome s',
        scrapeStockURL url w s = (outcome, s') ->
        validProtocol w url = false
        \/ (forall p, In p platformPatterns -> ~ pattern_occurs (snd p) url) ->
        calls s' = calls s /\ ticks s' = S (S (ticks s)))
  /\ (forall platform outcome s',
        scrapeStockURL url w s = (outcome, s') ->
        validProtocol w url = true ->
        identifyPlatform url = Normal platform ->
        platform <> js "mock" ->
        (forall m, browse w url <> LaunchFailed m) ->
        exists rest, calls s' = calls s ++ BaseScraper.pageCall url :: rest).
Proof.
  assert (Hnone : (forall p, In p platformPatterns -> ~ pattern_occurs (snd p) url) ->
                  identifyPlatform url = Throw (Error unsupportedMessage)).
  { intros Hno. unfold identifyPlatform.
    assert (firstMatch platformPatterns url = None) as ->; [|reflexivity].
    apply firstMatch_none. intros p Hp. apply not_occurs_test. now apply Hno. }
  split; [|split; [|split]].
  - intros H. rewrite scrapeStockURL_run. cbv zeta. now rewrite H.
  - intros H Hno. rewrite scrapeStockURL_run. cbv zeta. rewrite H. cbn [negb].
    now rewrite (Hnone Hno).
  - intros outcome s'. rewrite scrapeStockURL_run. cbv zeta. unfold failed.
    destruct (validProtocol w url) eqn:V; cbn [negb].
    + intros E [H|Hno]; [discriminate|]. rewrite (Hnone Hno) in E.
      injection E as _ <-. split; reflexivity.
    + intros [= _ <-] _. split; reflexivity.
  - intros platform outcome s'. rewrite scrapeStockURL_run. cbv zeta. unfold failed.
    intros E V Hid Hmock Hlaunch. rewrite V, Hid in E. cbn [negb] in E.
    destruct (get platformScrapers platform) as [scraper|] eqn:Hget.
    + destruct (scraper url w (tick s)) as [[metadata|e] s1] eqn:Hrun;
        destruct (site_scraper_sends platform scraper url w (tick s) _ s1
                    Hget Hmock Hlaunch Hrun) as [rest Hs1];
        cbn [calls tick] in Hs1.
      * destruct (negb (truthy (title metadata)) && negb (truthy (imageUrl metadata))).
        -- injection E as _ <-. exists rest. exact Hs1.
        -- destruct (attachImage metadata w s1) as [[metadata'|e] s2] eqn:Ha;
             destruct (attachImage_extends w s1 metadata _ s2 Ha) as [more Hs2];
             injection E as _ <-; exists (rest ++ more); cbn [calls tick];
             rewrite Hs2, Hs1, <- app_assoc; reflexivity.
      * injection E as _ <-. exists rest. exact Hs1.
    + exfalso. unfold identifyPlatform in Hid.
      destruct (firstMatch platformPatterns url) as [p|] eqn:F; [|discriminate].
      injection Hid as ->. apply firstMatch_key in F.
      cbn in F. repeat destruct F as [<-|F]; try discriminate. destruct F.
Qed.

Lemma scrapeStockURL_rejects_before_extraction_witness :
  scrapeStockURL (js "ftp://shutterstock.com/image-photo/fox-123") revokingWorld initial
  = failed revokingWorld 0 (js "Invalid URL provided") (tick initial)
  /\ exists rest,
       calls (snd (scrapeStockURL (js "https://iconscout.com/icon/fox")
                                  bareWorld initial))
       = BaseScraper.pageCall (js "https://iconscout.com/icon/fox") :: rest.
Proof.
  split.
  - apply (proj1 (scrapeStockURL_rejects_before_extraction
                    revokingWorld initial
                    (js "ftp://shutterstock.com/image-photo/fox-123"))).
    reflexivity.
  - destruct (scrapeStockURL (js "https://iconscout.com/icon/fox") bareWorld initial)
      as [outcome s'] eqn:E.
    apply (proj2 (proj2 (proj2 (scrapeStockURL_rejects_before_extraction
                                  bareWorld initial
                                  (js "https://iconscout.com/icon/fox"))))
             (js "iconscout") outcome s' E).
    + reflexivity.
    + vm_compute. reflexivity.
    + discriminate.
    + discriminate.
Defined.

(** X13. When extraction succeeds with an image URL, the image server
    answers with a body within the size ceiling (the ceiling itself
    included) and the conversion succeeds, the result carries the
    extracted metadata with [imageBase64] set to the converted image,
    and exactly one request went to the image URL. *)
Theorem scrapeStockURL_attaches_image
        (w : World) (s : State) (url : jsstring)
        (metadata : ImageMetadata) (s1 : State) (len : N) (b64 : jsstring) :
  extracted w s url metadata s1 ->
  imageUrl metadata <> [] ->
  imageGet w (imageUrl metadata) = GetBody len (Normal b64) ->
  (len <= maxContentLength)%N ->
  scrapeStockURL url w s
  = (Normal {| success := true;
               data := Some (set_imageBase64 metadata b64);
               error := None;
               processingTime := clock w (ticks s1) - clock w (ticks s) |},
     tick (sent (imageCall (imageUrl metadata)) s1)).
Proof.
  intros (Hvalid & platform & scraper & Hid & Hget & Hrun) Hurl Himg Hlen.
  rewrite scrapeStockURL_run. cbv zeta.
  rewrite Hvalid, Hid, Hget, Hrun. cbn [negb].
  apply truthy_true in Hurl. rewrite Hurl. cbn [negb]. rewrite andb_false_r.
  unfold attachImage. rewrite Hurl.
  unfold downloadAndConvertImage, fetchAndProcess, try_catch, bind, ret, throw.
  rewrite Himg.
  assert ((maxContentLength <? len)%N = false) as -> by (apply N.ltb_ge; exact Hlen).
  reflexivity.
Qed.

Lemma scrapeStockURL_attaches_image_witness :
  scrapeStockURL (js "https://www.freepik.com/photo/fox-123456") servingWorld initial
  = (Normal {| success := true;
               data := Some (set_imageBase64 foxMetadata (js "/9j/4AAQSkZJRg=="));
               error := None;
               processingTime := 6 |},
     tick (sent (imageCall (js "https://img.freepik.com/fox.jpg"))
                (tick (sent (BaseScraper.pageCall
                               (js "https://www.freepik.com/photo/fox-123456"))
                            (tick initial))))).
Proof.
  apply (scrapeStockURL_attaches_image
           servingWorld initial (js "https://www.freepik.com/photo/fox-123456")
           foxMetadata
           (tick (sent (BaseScraper.pageCall
                          (js "https://www.freepik.com/photo/fox-123456"))
                       (tick initial)))
           (50 * 1024 * 1024)%N (js "/9j/4AAQSkZJRg==")).
  - split; [reflexivity|].
    exists (js "freepik"), FreepikScraper.extractMetadata.
    split; [vm_compute; reflexivity|].
    split; [reflexivity | vm_compute; reflexivity].
  - discriminate.
  - reflexivity.
  - vm_compute. discriminate.
Defined.

(** The run of the Freepik scraper, by what the browser does. *)
Lemma freepik_run url w s :
  FreepikScraper.extractMetadata url w s
  = match browse w url with
    | LaunchFailed m =>
        (Throw (Error (js "Failed to scrape Freepik: "
                         ++ js "Browser initialization failed: " ++ m)), s)
    | NavigationFailed m | EvaluateFailed m =>
        (Throw (Error (js "Failed to scrape Freepik: " ++ m)),
         sent (BaseScraper.pageCall url) s)
    | Rendered document =>
        (Normal
           {| title :=
                let t := FreepikScraper.cleanTitle
                           (FreepikScraper.firstValue FreepikScraper.titleOf document
                              FreepikScraper.titleSelectors) in
                if truthy t then t else js "Untitled";
              description :=
                FreepikScraper.firstValue FreepikScraper.descriptionOf document
                  FreepikScraper.descSelectors;
              tags :=
                filter (fun tag => (0 <? List.length tag)%nat)
                  (fold_left
                     (fun tags selector =>
                        fold_left PlatformScraper.pushTag (document selector) tags)
                     FreepikScraper.tagSelectors []);
              imageUrl := FreepikScraper.imageLoop document FreepikScraper.imgSelectors [];
              imageBase64 := None;
              category :=
                FreepikScraper.firstValue (fun element => trim (Dom.textContent element))
                  document FreepikScraper.categorySelectors;
              stockId := Some (StockId.extractStockId url);
              platform := js "freepik";
              scrapedAt := clock w (ticks s) |},
         tick (sent (BaseScraper.pageCall url) s))
    end.
Proof.
  unfold FreepikScraper.extractMetadata, BaseScraper.render.
  unfold try_catch, bind, ret, throw, now.
  destruct (browse w url); reflexivity.
Qed.

(** X31. The Freepik scraper never returns an empty title: a page
    without one is titled [Untitled]. So for a valid URL identified as
    Freepik the content check of [scrapeStockURL] never refuses: the
    scrape succeeds exactly when the browser renders the page, whatever
    the page holds, and every failure is an error of the scraper,
    reported as [Failed to scrape Freepik: ...]. *)
Theorem freepik_always_titled (w : World) (s : State) (url : jsstring) :
  (forall metadata s1,
      FreepikScraper.extractMetadata url w s = (Normal metadata, s1) ->
      title metadata <> [] /\ platform metadata = js "freepik"
      /\ exists document, browse w url = Rendered document)
  /\ (forall e s1,
        FreepikScraper.extractMetadata url w s = (Throw e, s1) ->
        (exists cause, e = Error (js "Failed to scrape Freepik: " ++ cause))
        /\ forall document, browse w url <> Rendered document)
  /\ (validProtocol w url = true ->
      identifyPlatform url = Normal (js "freepik") ->
      exists result s',
        scrapeStockURL url w s = (Normal result, s')
        /\ (success result = true <-> exists document, browse w url = Rendered document)
        /\ (success result = false ->
            exists cause,
              error result = Some (js "Failed to scrape Freepik: " ++ cause))).
Proof.
  assert (N : forall s0 metadata s1,
             FreepikScraper.extractMetadata url w s0 = (Normal metadata, s1) ->
             title metadata <> [] /\ platform metadata = js "freepik"
             /\ exists document, browse w url = Rendered document).
  { intros s0 metadata s1. rewrite freepik_run.
    destruct (browse w url) as [m|m|m|document]; try discriminate.
    intros [= <- _]. cbn [title platform]. split; [|split; [reflexivity|eauto]].
    destruct (truthy (FreepikScraper.cleanTitle _)) eqn:E; [|discriminate].
    now apply truthy_true. }
  assert (T : forall s0 e s1,
             FreepikScraper.extractMetadata url w s0 = (Throw e, s1) ->
             (exists cause, e = Error (js "Failed to scrape Freepik: " ++ cause))
             /\ forall document, browse w url <> Rendered document).
  { intros s0 e s1. rewrite freepik_run.
    destruct (browse w url) as [m|m|m|document]; try discriminate;
      intros [= <- _]; (split; [eexists; reflexivity | discriminate]). }
  split; [apply N|split; [apply T|]].
  intros V Hid. rewrite scrapeStockURL_run. cbv zeta. rewrite V, Hid. cbn [negb].
  change (get platformScrapers (js "freepik"))
    with (Some FreepikScraper.extractMetadata).
  cbv beta iota. unfold failed.
  destruct (FreepikScraper.extractMetadata url w (tick s)) as [[metadata|e] s1] eqn:R.
  - destruct (N _ _ _ R) as (Ht & _ & Hr).
    apply truthy_true in Ht. rewrite Ht. cbn [negb andb].
    destruct (attachImage_total w s1 metadata) as (metadata' & s2 & -> & _ & _).
    eexists; eexists. split; [reflexivity|]. cbn [success].
    split; [split; [intros _; exact Hr | reflexivity] | discriminate].
  - destruct (T _ _ _ R) as ((cause & ->) & Hr).
    eexists; eexists. split; [reflexivity|]. cbn [success error exn_message].
    split; [split; [discriminate | intros [d H]; destruct (Hr d H)]|].
    intros _. eexists. reflexivity.
Qed.

Lemma freepik_always_titled_witness :
  exists metadata s',
    scrapeStockURL (js "https://www.freepik.com/photo/1") bareWorld initial
    = (Normal {| success := true; data := Some metadata; error := None;
                 processingTime := 2 |}, s')
    /\ title metadata = js "Untitled"
    /\ imageUrl metadata = [].
Proof.
  destruct (proj2 (proj2 (freepik_always_titled bareWorld initial
                            (js "https://www.freepik.com/photo/1")))
              eq_refl ltac:(vm_compute; reflexivity))
    as (result & s' & E & Hs & _).
  assert (success result = true) as S by (apply Hs; eexists; reflexivity).
  vm_compute in E. injection E as <- <-.
  eexists; eexists. split; [vm_compute; reflexivity|]. split; reflexivity.
Defined.

End EngineMore.

(** ** The key format check *)

Section TrimFacts.
Import TextSpec.

Lemma dropWhile_head p s : head_ok (fun c => negb (p c)) (dropWhile p s).
Proof.
  induction s as [|c s IH]; [exact I|]. cbn [dropWhile].
  destruct (p c) eqn:E; [assumption|]. cbn. now rewrite E.
Qed.

Lemma dropWhile_app_stop p l c :
  p c = false -> exists u, dropWhile p (l ++ [c]) = u ++ [c].
Proof.
  intros Hc. induction l as [|x l [u IH]]; cbn.
  - rewrite Hc. now exists [].
  - destruct (p x); [now exists u|]. now exists (x :: l).
Qed.

Lemma trimEnd_head s : head_ok nonspace s -> head_ok nonspace (trimEnd s).
Proof.
  destruct s as [|c s]; [intros _; exact I|]. intros Hc. cbn in Hc.
  unfold trimEnd. cbn [rev].
  destruct (dropWhile_app_stop is_space (rev s) c) as [u ->].
  { now apply negb_true_iff. }
  rewrite rev_app_distr. exact Hc.
Qed.

Lemma trimEnd_last s : last_ok nonspace (trimEnd s).
Proof.
  unfold trimEnd. intros pre c E.
  apply (f_equal (@rev code_unit)) in E. rewrite rev_involutive, rev_app_distr in E.
  cbn in E. pose proof (dropWhile_head is_space (rev s)) as H.
  rewrite E in H. exact H.
Qed.

Lemma trim_head s : head_ok nonspace (trim s).
Proof. apply trimEnd_head, dropWhile_head. Qed.

Lemma trim_last s : last_ok nonspace (trim s).
Proof. apply trimEnd_last. Qed.

Lemma trim_idem s : trim (trim s) = trim s.
Proof. apply trim_id; [apply trim_head|apply trim_last]. Qed.

Lemma dropWhile_length p (s : jsstring) :
  (List.length (dropWhile p s) <= List.length s)%nat.
Proof.
  destruct (dropWhile_suffix p s) as [pre E].
  rewrite E at 2. rewrite length_app. lia.
Qed.

Lemma trim_length s : (List.length (trim s) <= List.length s)%nat.
Proof.
  unfold trim, trimEnd, trimStart. rewrite length_rev.
  pose proof (dropWhile_length is_space (rev (dropWhile is_space s))) as H1.
  rewrite length_rev in H1.
  pose proof (dropWhile_length is_space s). lia.
Qed.

End TrimFacts.

Section AnchoredPatterns.

Lemma run_lit_exact a : forall start s,
  run false (lit a) start s = if starts_with a s then [List.length a] else [].
Proof.
  induction a as [|c a IH]; intros start s; [reflexivity|].
  cbn [lit run starts_with]. destruct s as [|x s]; [reflexivity|].
  cbn [chr_match]. destruct (c =? x)%N; [|reflexivity].
  cbn [flat_map skipn andb]. rewrite IH, app_nil_r.
  destruct (starts_with a s); reflexivity.
Qed.

Lemma search_bol_false ci r s : search ci (Seq Bol r) false s = false.
Proof. induction s as [|c s IH]; [reflexivity|]. cbn [search run flat_map]. exact IH. Qed.

Lemma test_bol ci r s :
  test ci (Seq Bol r) s = true <-> run ci r true s <> [].
Proof.
  unfold test. rewrite search_unfold. cbn [run flat_map]. rewrite app_nil_r.
  cbn [Nat.eqb andb skipn].
  destruct (run ci r true s) as [|k l]; cbn [map].
  - destruct s; [|rewrite search_bol_false]; split; congruence.
  - split; [discriminate|reflexivity].
Qed.

Lemma run_rep_eol ci cs min b (t : jsstring) :
  run ci (Seq (Rep cs min) Eol) b t <> []
  <-> (min <= List.length t)%nat /\ forallb (in_charset cs) t = true.
Proof.
  rewrite <- span_len_all. cbn [run].
  pose proof (span_len_le (in_charset cs) t) as Hle.
  split.
  - intros H.
    destruct (flat_map _ _) as [|k l] eqn:E; [congruence|].
    assert (Hin : In k (k :: l)) by now left.
    rewrite <- E in Hin. apply in_flat_map in Hin. destruct Hin as (k1 & Hk1 & Hk).
    apply downto_In in Hk1.
    destruct (skipn k1 t) eqn:Es; [|destruct Hk].
    apply (f_equal (@List.length code_unit)) in Es. rewrite length_skipn in Es.
    cbn in Es. lia.
  - intros [Hmin Hall] E.
    match type of E with
    | ?l = [] => assert (Hin : In (List.length t + 0)%nat l)
    end.
    { apply in_flat_map. exists (List.length t). split.
      - apply downto_In. lia.
      - rewrite skipn_all. now left. }
    rewrite E in Hin. destruct Hin.
Qed.

(** [/^a cs{min,}$/] for a literal text [a]. *)
Lemma test_prefixed a cs min s :
  test false (Seq Bol (Seq (lit a) (Seq (Rep cs min) Eol))) s = true
  <-> exists body,
        s = a ++ body /\ (min <= List.length body)%nat
        /\ forallb (in_charset cs) body = true.
Proof.
  rewrite test_bol. cbn [run]. rewrite run_lit_exact.
  destruct (starts_with a s) eqn:Ea.
  - apply starts_with_app in Ea. destruct Ea as [rest ->].
    cbn [flat_map]. rewrite app_nil_r, skipn_app, skipn_all, Nat.sub_diag.
    cbn [skipn app].
    pose proof (run_rep_eol false cs min (true && (List.length a =? 0)%nat) rest) as R.
    cbn [run] in R. split.
    + intros H. exists rest. split; [reflexivity|]. apply R.
      intros E. apply H. now rewrite E.
    + intros (body & E & H). apply app_inv_head in E. subst body.
      apply R in H. intros E. apply H. now apply map_eq_nil in E.
  - cbn [flat_map]. split; [congruence|].
    intros (body & -> & _).
    assert (starts_with a (a ++ body) = true) by (apply starts_with_app; eauto).
    congruence.
Qed.

(** [/^cs{min,}$/] *)
Lemma test_class cs min (s : jsstring) :
  test false (Seq Bol (Seq (Rep cs min) Eol)) s = true
  <-> (min <= List.length s)%nat /\ forallb (in_charset cs) s = true.
Proof. rewrite test_bol. apply run_rep_eol. Qed.

End AnchoredPatterns.

Section FormatCheck.
Import Effects Validation ValidationSpec TextSpec.

Lemma keyChars_spec c :
  in_charset keyChars c = is_word c || (c =? 45)%N.
Proof.
  apply eq_true_iff_eq. cbn [in_charset keyChars existsb fst snd].
  unfold is_word, is_digit, between.
  repeat rewrite ?orb_true_iff, ?andb_true_iff, ?N.leb_le, ?N.eqb_eq. lia.
Qed.

Lemma openaiKeyChars_spec c :
  in_charset openaiKeyChars c = is_word c || (c =? 45)%N || (c =? 46)%N.
Proof.
  apply eq_true_iff_eq. cbn [in_charset openaiKeyChars existsb fst snd].
  unfold is_word, is_digit, between.
  repeat rewrite ?orb_true_iff, ?andb_true_iff, ?N.leb_le, ?N.eqb_eq. lia.
Qed.

Lemma keyShape_nonblank prefix cs key : keyShape prefix cs key -> trim key <> [].
Proof.
  intros (body & E & Hlen & _) H. rewrite H in E.
  symmetry in E. apply app_eq_nil in E. destruct E as [_ ->]. cbn in Hlen. lia.
Qed.

Lemma format_with provider pattern key :
  get patterns provider = Some pattern ->
  validateApiKey provider key = Normal true
  <-> trim key <> [] /\ test false pattern (trim key) = true.
Proof.
  intros Hget. unfold validateApiKey. rewrite Hget.
  destruct (negb (truthy key) || (List.length (trim key) =? 0)%nat) eqn:B.
  - apply blank_key in B. split; [discriminate|]. intros [H _]. congruence.
  - assert (trim key <> []) as Hne.
    { intros E. apply blank_key in E. congruence. }
    split.
    + intros [= H]. auto.
    + intros [_ H]. now rewrite H.
Qed.

Lemma format_openai key :
  validateApiKey (js "openai") key = Normal true
  <-> keyShape (js "sk-") openaiKeyChars key.
Proof.
  rewrite (format_with (js "openai") re_openai key eq_refl).
  unfold re_openai. rewrite test_prefixed. split.
  - intros [_ H]. exact H.
  - intros H. split; [now apply keyShape_nonblank in H|exact H].
Qed.

Lemma format_claude key :
  validateApiKey (js "claude") key = Normal true
  <-> keyShape (js "sk-ant-") keyChars key.
Proof.
  rewrite (format_with (js "claude") re_claude key eq_refl).
  unfold re_claude. rewrite test_prefixed. split.
  - intros [_ H]. exact H.
  - intros H. split; [now apply keyShape_nonblank in H|exact H].
Qed.

Lemma format_gemini key :
  validateApiKey (js "gemini") key = Normal true
  <-> keyShape [] keyChars key.
Proof.
  rewrite (format_with (js "gemini") re_gemini key eq_refl).
  unfold re_gemini. rewrite test_class. unfold keyShape. split.
  - intros [_ [H1 H2]]. now exists (trim key).
  - intros (body & E & H1 & H2). cbn [app] in E. subst body.
    split; [|auto]. intros E. rewrite E in H1. cbn in H1. lia.
Qed.

Lemma format_provider provider key :
  validateApiKey provider key = Normal true ->
  provider = js "openai" \/ provider = js "gemini" \/ provider = js "claude".
Proof.
  unfold validateApiKey.
  destruct (negb (truthy key) || (List.length (trim key) =? 0)%nat); [discriminate|].
  unfold patterns. cbn [get].
  destruct (eqs provider (js "openai")) eqn:E1; [apply eqs_true in E1; auto|].
  destruct (eqs provider (js "gemini")) eqn:E2; [apply eqs_true in E2; auto|].
  destruct (eqs provider (js "claude")) eqn:E3; [apply eqs_true in E3; auto|].
  destruct (includes objectPrototypeKeys provider); discriminate.
Qed.

(** X14. The keys the format check accepts, per provider: after
    trimming, [sk-] followed by ten or more of [[A-Za-z0-9_.-]] for
    openai, ten or more of [[A-Za-z0-9_-]] for gemini, [sk-ant-]
    followed by ten or more of [[A-Za-z0-9_-]] for claude; no key is
    accepted for any other provider name. *)
Theorem validateApiKey_accepted_keys (key : jsstring) :
  (validateApiKey (js "openai") key = Normal true
   <-> keyShape (js "sk-") openaiKeyChars key)
  /\ (validateApiKey (js "gemini") key = Normal true
      <-> keyShape [] keyChars key)
  /\ (validateApiKey (js "claude") key = Normal true
      <-> keyShape (js "sk-ant-") keyChars key)
  /\ (forall provider,
        validateApiKey provider key = Normal true ->
        provider = js "openai" \/ provider = js "gemini" \/ provider = js "claude")
  /\ (forall c, in_charset keyChars c = is_word c || (c =? 45)%N)
  /\ (forall c, in_charset openaiKeyChars c
                = is_word c || (c =? 45)%N || (c =? 46)%N).
Proof.
  split; [apply format_openai|]. split; [apply format_gemini|].
  split; [apply format_claude|]. split; [intros p; apply format_provider|].
  split; [apply keyChars_spec|apply openaiKeyChars_spec].
Qed.

(** X15. The format check does not see whitespace around the key. *)
Theorem validateApiKey_ignores_surrounding_whitespace (provider key : jsstring) :
  validateApiKey provider (trim key) = validateApiKey provider key.
Proof.
  unfold validateApiKey. rewrite trim_idem.
  destruct (negb (truthy key) || (List.length (trim key) =? 0)%nat) eqn:B.
  - apply blank_key in B. rewrite B. reflexivity.
  - assert (negb (truthy (trim key)) || (List.length (trim key) =? 0)%nat = false) as ->;
      [|reflexivity].
    destruct (trim key) as [|c t] eqn:E; [|reflexivity].
    assert (trim key = []) as H by exact E. apply blank_key in H. congruence.
Qed.

Lemma keyChars_openai body :
  forallb (in_charset keyChars) body = true ->
  forallb (in_charset openaiKeyChars) body = true.
Proof.
  induction body as [|c body IH]; [reflexivity|]. cbn [forallb].
  rewrite !andb_true_iff. intros [Hc Hb]. split; [|auto].
  rewrite openaiKeyChars_spec. rewrite keyChars_spec in Hc. now rewrite Hc.
Qed.

(** X16. The format check does not tell the vendors apart: a key in the
    Claude format also passes as an OpenAI key and as a Gemini key. *)
Theorem validateApiKey_claude_key_passes_everywhere (key : jsstring) :
  validateApiKey (js "claude") key = Normal true ->
  validateApiKey (js "openai") key = Normal true
  /\ validateApiKey (js "gemini") key = Normal true.
Proof.
  rewrite format_claude, format_openai, format_gemini.
  intros (body & E & Hlen & Hall). split.
  - exists (js "ant-" ++ body). split; [exact E|]. split.
    + rewrite length_app. lia.
    + rewrite forallb_app. rewrite (keyChars_openai body Hall). reflexivity.
  - exists (js "sk-ant-" ++ body). split; [exact E|]. split.
    + rewrite length_app. lia.
    + rewrite forallb_app, Hall. reflexivity.
Qed.

Lemma validateApiKey_claude_key_passes_everywhere_witness :
  validateApiKey (js "openai") (js " sk-ant-api03-AbCdEf_123 ") = Normal true
  /\ validateApiKey (js "gemini") (js " sk-ant-api03-AbCdEf_123 ") = Normal true.
Proof.
  apply validateApiKey_claude_key_passes_everywhere. reflexivity.
Defined.

(** X17. A key the format check accepts has ten or more code units, so
    the request schema accepts it as well. *)
Theorem validateApiKey_format_implies_schema (provider key : jsstring) :
  validateApiKey provider key = Normal true ->
  (10 <= List.length (trim key))%nat
  /\ validateApiKeySchema provider key = true.
Proof.
  intros H.
  assert (L : (10 <= List.length (trim key))%nat).
  { destruct (format_provider provider key H) as [-> | [-> | ->]].
    - apply format_openai in H. destruct H as (body & -> & Hlen & _).
      rewrite length_app. lia.
    - apply format_gemini in H. destruct H as (body & -> & Hlen & _).
      rewrite length_app. lia.
    - apply format_claude in H. destruct H as (body & -> & Hlen & _).
      rewrite length_app. lia. }
  split; [exact L|]. unfold validateApiKeySchema.
  pose proof (trim_length key) as T.
  apply andb_true_iff. split.
  - destruct (format_provider provider key H) as [-> | [-> | ->]]; reflexivity.
  - apply Nat.leb_le. lia.
Qed.

Lemma validateApiKey_format_implies_schema_witness :
  (10 <= List.length (trim (js "  AIzaSyD-1234567890abc  ")))%nat
  /\ validateApiKeySchema (js "gemini") (js "  AIzaSyD-1234567890abc  ") = true.
Proof.
  apply validateApiKey_format_implies_schema. reflexivity.
Defined.

End FormatCheck.

(** ** The adapters, run by run *)

Section AdapterRuns.
Import Types Effects Effects.Notations AIProvider AIProviderManager.
Import NumberSpec JSNumber ManagerSpec VendorSpec TextSpec.

Lemma openai_rethrow_error A e w s :
  exists m, @OpenAIProvider.rethrow A e w s = (Throw (Error m), s).
Proof.
  unfold OpenAIProvider.rethrow, throw, cannotRead.
  destruct (exn_response e) as [[st [[[v|]]|]]|]; cbn [resp_data body_error];
    repeat match goal with |- context [if ?c then _ else _] => destruct c end;
    eexists; reflexivity.
Qed.

Lemma gemini_rethrow_error A e w s :
  exists m, @GeminiProvider.rethrow A e w s = (Throw (Error m), s).
Proof.
  unfold GeminiProvider.rethrow, throw, cannotRead.
  destruct (exn_response e) as [[st [[[v|]]|]]|]; cbn [resp_data body_error];
    repeat match goal with |- context [if ?c then _ else _] => destruct c end;
    eexists; reflexivity.
Qed.

Lemma claude_rethrow_error A e w s :
  exists m, @ClaudeProvider.rethrow A e w s = (Throw (Error m), s).
Proof.
  unfold ClaudeProvider.rethrow, throw, cannotRead.
  destruct (exn_response e) as [[st [[[v|]]|]]|]; cbn [resp_data body_error];
    cbv zeta;
    repeat match goal with |- context [if ?c then _ else _] => destruct c end;
    eexists; reflexivity.
Qed.

Lemma In_firstn {A} n (l : list A) x : In x (firstn n l) -> In x l.
Proof.
  intros H. rewrite <- (firstn_skipn n l). apply in_or_app. now left.
Qed.

Lemma generateVariations_run w s apiKey originalPrompt style :
  exists v,
    OpenAIProvider.generateVariations apiKey originalPrompt style w s
    = (Normal v, sent (OpenAIProvider.chatCall apiKey) s)
    /\ (List.length v <= 2)%nat
    /\ Forall keptVariation v.
Proof.
  unfold OpenAIProvider.generateVariations, OpenAIProvider.post, try_catch, bind, ret,
    Effects.request.
  destruct (openaiChat w _ _) as [response|m r].
  - destruct (OpenAIProvider.firstContent response) as [text|].
    + destruct (truthy text).
      * eexists. split; [reflexivity|]. split.
        -- rewrite length_firstn. apply Nat.le_min_l.
        -- apply Forall_forall. intros x Hx. apply In_firstn in Hx.
           apply filter_In in Hx. destruct Hx as [Hx Hlen].
           apply in_map_iff in Hx. destruct Hx as (piece & <- & _).
           apply Nat.ltb_lt in Hlen.
           split; [exact Hlen|]. split; [apply trim_head|apply trim_last].
      * exists []. split; [reflexivity|]. split; [cbn; lia|constructor].
    + exists []. split; [reflexivity|]. split; [cbn; lia|constructor].
  - exists []. split; [reflexivity|]. split; [cbn; lia|constructor].
Qed.

Lemma generateQuickVariation_run w s apiKey originalPrompt :
  exists v,
    OpenAIFastProvider.generateQuickVariation apiKey originalPrompt w s
    = (Normal v, sent (OpenAIProvider.chatCall apiKey) s)
    /\ (List.length v <= 1)%nat.
Proof.
  unfold OpenAIFastProvider.generateQuickVariation, OpenAIFastProvider.post,
    try_catch, bind, ret, Effects.request.
  destruct (openaiChat w _ _) as [response|m r].
  - destruct (OpenAIProvider.firstContent response) as [text|].
    + destruct (truthy text); eexists; (split; [reflexivity|]); cbn; lia.
    + exists []. split; [reflexivity|]. cbn; lia.
  - exists []. split; [reflexivity|]. cbn; lia.
Qed.

Ltac rethrown lemma :=
  match goal with
  | |- exists m, ?r ?A ?e ?w ?s = _ =>
      let m := fresh in let E := fresh in
      destruct (lemma A e w s) as [m E]; exists m; exact E
  end.

Lemma openai_analysed w s apiKey request :
  analysed (OpenAIProvider.analyzeAndGeneratePrompt apiKey request w s) s
           (OpenAIProvider.chatCall apiKey)
           (openaiText (openaiChat w (List.length (calls s))
                          (OpenAIProvider.chatCall apiKey)))
           (fun new result =>
              new = [OpenAIProvider.chatCall apiKey]
              /\ exists v, AIProvider.variations result = Some v /\ Forall keptVariation v).
Proof.
  unfold analysed, openaiText, OpenAIProvider.firstContent.
  unfold OpenAIProvider.analyzeAndGeneratePrompt, OpenAIProvider.post, try_catch, bind,
    throw, Effects.request.
  destruct (openaiChat w _ _) as [response|m r];
    [|rethrown openai_rethrow_error].
  destruct response as [data|]; [|rethrown openai_rethrow_error].
  destruct (OpenAIData.choices data) as [[|choice rest]|];
    try rethrown openai_rethrow_error.
  destruct (OpenAIData.message choice) as [msg|]; [|rethrown openai_rethrow_error].
  destruct (OpenAIData.content msg) as [generatedPrompt|];
    [|rethrown openai_rethrow_error].
  destruct (truthy generatedPrompt); cbn [negb]; [|rethrown openai_rethrow_error].
  destruct (generateVariations_run w (sent (OpenAIProvider.chatCall apiKey) s) apiKey
              generatedPrompt (promptStyle request)) as (v & -> & Hlen & Hv).
  unfold ret. eexists; eexists. split.
  { unfold sent. cbn [calls ticks]. rewrite <- app_assoc. reflexivity. }
  split; [reflexivity|]. split.
  - split; [exact Hlen|apply openai_confidence_range].
  - split; [reflexivity|]. now exists v.
Qed.

Lemma openai_fast_analysed w s apiKey request :
  analysed (OpenAIFastProvider.analyzeAndGeneratePrompt apiKey request w s) s
           (OpenAIProvider.chatCall apiKey)
           (openaiText (openaiChat w (List.length (calls s))
                          (OpenAIProvider.chatCall apiKey)))
           (fun new result =>
              new = [OpenAIProvider.chatCall apiKey]
              /\ exists v, AIProvider.variations result = Some v /\ (List.length v <= 1)%nat).
Proof.
  unfold analysed, openaiText, OpenAIProvider.firstContent.
  unfold OpenAIFastProvider.analyzeAndGeneratePrompt, OpenAIFastProvider.post,
    try_catch, bind, throw, Effects.request.
  destruct (openaiChat w _ _) as [response|m r];
    [|rethrown openai_rethrow_error].
  destruct response as [data|]; [|rethrown openai_rethrow_error].
  destruct (OpenAIData.choices data) as [[|choice rest]|];
    try rethrown openai_rethrow_error.
  destruct (OpenAIData.message choice) as [msg|]; [|rethrown openai_rethrow_error].
  destruct (OpenAIData.content msg) as [generatedPrompt|];
    [|rethrown openai_rethrow_error].
  destruct (truthy generatedPrompt); cbn [negb]; [|rethrown openai_rethrow_error].
  destruct (generateQuickVariation_run w (sent (OpenAIProvider.chatCall apiKey) s) apiKey
              generatedPrompt) as (v & E & Hlen).
  unfold OpenAIFastProvider.post, Effects.request in E. rewrite E.
  unfold ret. eexists; eexists. split.
  { unfold sent. cbn [calls ticks]. rewrite <- app_assoc. reflexivity. }
  split; [reflexivity|]. split.
  - split; [cbn; lia|apply openai_fast_confidence_range].
  - split; [reflexivity|]. now exists v.
Qed.

Lemma gemini_analysed w s apiKey request :
  analysed (GeminiProvider.analyzeAndGeneratePrompt apiKey request w s) s
           (GeminiProvider.generateCall (js "gemini-pro-vision") apiKey)
           (geminiText (geminiGenerate w (List.length (calls s))
                          (GeminiProvider.generateCall (js "gemini-pro-vision") apiKey)))
           (fun new result => new = [] /\ AIProvider.variations result = Some []).
Proof.
  unfold analysed, geminiText.
  unfold GeminiProvider.analyzeAndGeneratePrompt, GeminiProvider.post, try_catch, bind,
    throw, Effects.request.
  destruct (geminiGenerate w _ _) as [response|m r];
    [|rethrown gemini_rethrow_error].
  destruct response as [data|]; [|rethrown gemini_rethrow_error].
  destruct (GeminiData.candidates data) as [[|candidate rest]|];
    try rethrown gemini_rethrow_error.
  destruct (GeminiData.content candidate) as [c|]; [|rethrown gemini_rethrow_error].
  destruct (GeminiData.parts c) as [[|part parts]|];
    try rethrown gemini_rethrow_error.
  destruct (GeminiData.text part) as [generatedPrompt|];
    [|rethrown gemini_rethrow_error].
  destruct (truthy generatedPrompt); cbn [negb]; [|rethrown gemini_rethrow_error].
  unfold ret. eexists; eexists. split; [reflexivity|]. split; [reflexivity|].
  split; [|split; reflexivity].
  split; [cbn; lia|apply gemini_confidence_range].
Qed.

Lemma claude_analysed w s apiKey request :
  analysed (ClaudeProvider.analyzeAndGeneratePrompt apiKey request w s) s
           (ClaudeProvider.messagesCall apiKey)
           (claudeText (claudeMessages w (List.length (calls s))
                          (ClaudeProvider.messagesCall apiKey)))
           (fun new result => new = [] /\ AIProvider.variations result = Some []).
Proof.
  unfold analysed, claudeText.
  unfold ClaudeProvider.analyzeAndGeneratePrompt, ClaudeProvider.post, try_catch, bind,
    throw, Effects.request.
  destruct (claudeMessages w _ _) as [response|m r];
    [|rethrown claude_rethrow_error].
  destruct response as [data|]; [|rethrown claude_rethrow_error].
  destruct (ClaudeData.content data) as [[|block rest]|];
    try rethrown claude_rethrow_error.
  destruct (str_is (ClaudeData.type block) (js "text")); cbn [negb];
    [|rethrown claude_rethrow_error].
  destruct (ClaudeData.text block) as [generatedPrompt|];
    [|rethrown claude_rethrow_error].
  destruct (truthy generatedPrompt); cbn [negb]; [|rethrown claude_rethrow_error].
  unfold ret. eexists; eexists. split; [reflexivity|]. split; [reflexivity|].
  split; [|split; reflexivity].
  split; [cbn; lia|apply claude_confidence_range].
Qed.

End AdapterRuns.

(** ** The provider manager, further *)

Section ManagerMore.
Import Types Effects Effects.Notations AIProvider AIProviderManager.
Import NumberSpec JSNumber ManagerSpec VendorSpec VendorFixtures TextSpec Fixtures.

Lemma analysed_weaken run s call text (more more' : list HttpCall -> Generated -> Prop) :
  (forall new result, more new result -> more' new result) ->
  analysed run s call text more -> analysed run s call text more'.
Proof.
  intros Hm. unfold analysed. destruct text as [t|]; [|auto].
  destruct (truthy t); [|auto].
  intros (result & new & E & Hp & Hr & Hmore). exists result, new. auto.
Qed.

Lemma adapter_analysed w s provider aiProvider apiKey request :
  get providers provider = Some aiProvider ->
  analysed (analyzeAndGeneratePrompt aiProvider apiKey request w s) s
           (analysisCall provider apiKey)
           (vendorText w (List.length (calls s)) provider apiKey)
           (commonly provider apiKey).
Proof.
  intros H. apply get_providers in H as [[-> ->]|[[-> ->]|[[-> ->]|[-> ->]]]].
  - refine (analysed_weaken _ _ _ _ _ _ _ (openai_analysed w s apiKey request)).
    intros new result [-> (v & Hv & _)]. split; [now right|now exists v].
  - refine (analysed_weaken _ _ _ _ _ _ _ (openai_fast_analysed w s apiKey request)).
    intros new result [-> (v & Hv & _)]. split; [now right|now exists v].
  - refine (analysed_weaken _ _ _ _ _ _ _ (gemini_analysed w s apiKey request)).
    intros new result [-> Hv]. split; [now left|now exists []].
  - refine (analysed_weaken _ _ _ _ _ _ _ (claude_analysed w s apiKey request)).
    intros new result [-> Hv]. split; [now left|now exists []].
Qed.

Lemma analysisCall_toVendor provider apiKey :
  toVendor provider apiKey (analysisCall provider apiKey).
Proof.
  unfold toVendor, analysisCall, vendorBase.
  destruct (eqs provider (js "gemini")); [split; reflexivity|].
  destruct (eqs provider (js "claude")); split; reflexivity.
Qed.

Lemma validationCall_toVendor provider apiKey :
  toVendor provider apiKey (validationCall provider apiKey).
Proof.
  unfold toVendor, validationCall, vendorBase.
  destruct (eqs provider (js "gemini")); [split; reflexivity|].
  destruct (eqs provider (js "claude")); split; reflexivity.
Qed.

Lemma key_present apiKey :
  negb (truthy apiKey) || (List.length (trim apiKey) =? 0)%nat
  = negb (truthy (trim apiKey)).
Proof.
  destruct (negb (truthy apiKey) || (List.length (trim apiKey) =? 0)%nat) eqn:B.
  - apply blank_key in B. now rewrite B.
  - destruct (trim apiKey) as [|c t] eqn:E; [|reflexivity].
    assert (trim apiKey = []) as H by exact E. apply blank_key in H. congruence.
Qed.

Lemma last_ok_nil p : last_ok p [].
Proof. intros pre c E. now destruct pre. Qed.

Lemma generatePrompt_prompt w s provider apiKey request :
  exists response s',
    generatePrompt provider apiKey request w s = (Normal response, s')
    /\ match promptOf w (List.length (calls s)) provider apiKey request with
       | Some p => success response = true /\ prompt response = p
       | None => success response = false /\ prompt response = []
       end.
Proof.
  rewrite generatePrompt_run. cbv zeta. unfold promptOf.
  destruct (get providers provider) as [aiProvider|] eqn:Hget.
  2:{ eexists; eexists. split; [reflexivity|]. cbn. auto. }
  rewrite key_present.
  destruct (truthy (trim apiKey)); cbn [negb andb].
  2:{ eexists; eexists. split; [reflexivity|]. cbn. auto. }
  destruct (truthy (imageBase64 request)); cbn [negb].
  2:{ eexists; eexists. split; [reflexivity|]. cbn. auto. }
  pose proof (adapter_analysed w (tick s) provider aiProvider apiKey request Hget) as A.
  unfold analysed in A. cbn [tick calls] in A.
  destruct (vendorText w (List.length (calls s)) provider apiKey) as [text|].
  - destruct (truthy text).
    + destruct A as (result & new & -> & Hp & _).
      eexists; eexists. split; [reflexivity|]. cbn [success prompt]. auto.
    + destruct A as (m & ->).
      eexists; eexists. split; [reflexivity|]. cbn. auto.
  - destruct A as (m & ->).
    eexists; eexists. split; [reflexivity|]. cbn. auto.
Qed.

(** X18. [generatePrompt] succeeds exactly when the provider is
    registered, key and image are present and the vendor's first
    answer carries a non-empty text; the prompt is then that text,
    trimmed (and empty when the text is all whitespace). In every case
    the prompt neither begins nor ends with whitespace. *)
Theorem generatePrompt_answers_vendor_text
        (w : World) (s : State) (provider apiKey : jsstring)
        (request : AIAnalysisRequest) :
  exists response s',
    generatePrompt provider apiKey request w s = (Normal response, s')
    /\ match promptOf w (List.length (calls s)) provider apiKey request with
       | Some p => success response = true /\ prompt response = p
       | None => success response = false /\ prompt response = []
       end
    /\ head_ok nonspace (prompt response)
    /\ last_ok nonspace (prompt response).
Proof.
  destruct (generatePrompt_prompt w s provider apiKey request)
    as (response & s' & E & H).
  exists response, s'. split; [exact E|]. split; [exact H|].
  unfold promptOf in H.
  destruct (get providers provider) as [aiProvider|];
    [|destruct H as [_ ->]; split; [exact I|apply last_ok_nil]].
  destruct (truthy (trim apiKey) && truthy (imageBase64 request));
    [|destruct H as [_ ->]; split; [exact I|apply last_ok_nil]].
  destruct (vendorText w (List.length (calls s)) provider apiKey) as [text|];
    [|destruct H as [_ ->]; split; [exact I|apply last_ok_nil]].
  destruct (truthy text); destruct H as [_ ->].
  - split; [apply trim_head|apply trim_last].
  - split; [exact I|apply last_ok_nil].
Qed.

(** X19. In every answer of [generatePrompt] the confidence lies between
    0 and 1; a failure carries confidence 0, no variations and the empty
    prompt, a success carries a list of at most two variations. *)
Theorem generatePrompt_result_in_range
        (w : World) (s : State) (provider apiKey : jsstring)
        (request : AIAnalysisRequest) :
  exists response s',
    generatePrompt provider apiKey request w s = (Normal response, s')
    /\ unit_interval (confidence response)
    /\ (success response = false ->
        confidence response = 0%float /\ variations response = None
        /\ prompt response = [])
    /\ (success response = true ->
        exists v, variations response = Some v /\ (List.length v <= 2)%nat).
Proof.
  assert (Z : unit_interval 0%float) by (split; reflexivity).
  rewrite generatePrompt_run. cbv zeta.
  destruct (get providers provider) as [aiProvider|] eqn:Hget.
  2:{ eexists; eexists. split; [reflexivity|]. cbn.
      split; [exact Z|]. split; [auto|discriminate]. }
  destruct (negb (truthy apiKey) || _).
  { eexists; eexists. split; [reflexivity|]. cbn.
    split; [exact Z|]. split; [auto|discriminate]. }
  destruct (negb (truthy (imageBase64 request))).
  { eexists; eexists. split; [reflexivity|]. cbn.
    split; [exact Z|]. split; [auto|discriminate]. }
  destruct (analyzeAndGeneratePrompt aiProvider apiKey request w (tick s))
    as [[result|e] s1] eqn:Hrun.
  - assert (R : inRange result).
    { apply get_providers in Hget as [[_ ->]|[[_ ->]|[[_ ->]|[_ ->]]]].
      - exact (openai_result_range w (tick s) apiKey request result s1 Hrun).
      - exact (openai_fast_result_range w (tick s) apiKey request result s1 Hrun).
      - exact (gemini_result_range w (tick s) apiKey request result s1 Hrun).
      - exact (claude_result_range w (tick s) apiKey request result s1 Hrun). }
    destruct R as [Rv Rc].
    eexists; eexists. split; [reflexivity|]. cbn.
    split; [exact Rc|]. split; [discriminate|]. intros _.
    destruct (AIProvider.variations result) as [v|].
    + now exists v.
    + exists []. split; [reflexivity|]. cbn. lia.
  - eexists; eexists. split; [reflexivity|]. cbn.
    split; [exact Z|]. split; [auto|discriminate].
Qed.

Lemma validate_state w s provider aiProvider apiKey :
  get providers provider = Some aiProvider ->
  snd (AIProvider.validateApiKey aiProvider apiKey w s)
  = sent (validationCall provider apiKey) s.
Proof.
  intros H. apply get_providers in H as [[-> ->]|[[-> ->]|[[-> ->]|[-> ->]]]].
  - cbn [AIProvider.validateApiKey OpenAIProvider.provider].
    unfold OpenAIProvider.validateApiKey, OpenAIProvider.post, try_catch, bind, request.
    destruct (openaiChat w _ _) as [d|m [[st [[[e|]]|]]|]]; cbn;
      repeat match goal with |- context [if ?c then _ else _] => destruct c end;
      reflexivity.
  - cbn [AIProvider.validateApiKey OpenAIFastProvider.provider].
    unfold OpenAIFastProvider.validateApiKey, OpenAIFastProvider.post, try_catch,
      bind, request.
    destruct (openaiChat w _ _) as [d|m r]; cbn; [reflexivity|].
    destruct (OpenAIFastProvider.vendorError _); reflexivity.
  - cbn [AIProvider.validateApiKey GeminiProvider.provider].
    unfold GeminiProvider.validateApiKey, GeminiProvider.post, try_catch, bind, request.
    destruct (geminiGenerate w _ _) as [d|m [[st [[[e|]]|]]|]]; cbn;
      repeat match goal with |- context [if ?c then _ else _] => destruct c end;
      reflexivity.
  - cbn [AIProvider.validateApiKey ClaudeProvider.provider].
    unfold ClaudeProvider.validateApiKey, ClaudeProvider.post, try_catch, bind, request.
    destruct (claudeMessages w _ _) as [d|m [[st [[[e|]]|]]|]]; cbn;
      repeat match goal with |- context [if ?c then _ else _] => destruct c end;
      reflexivity.
Qed.

(** X20. The API key only travels to the vendor of the chosen provider:
    every request [generatePrompt] (at most two) and [validateApiKey]
    (at most one) add to the traffic carries the given key and goes to
    an address of that vendor. *)
Theorem manager_requests_go_to_the_vendor
        (w : World) (s : State) (provider apiKey : jsstring)
        (request : AIAnalysisRequest) :
  (exists new,
      calls (snd (generatePrompt provider apiKey request w s)) = calls s ++ new
      /\ (List.length new <= 2)%nat
      /\ Forall (toVendor provider apiKey) new)
  /\ (exists new,
        calls (snd (validateApiKey provider apiKey w s)) = calls s ++ new
        /\ (List.length new <= 1)%nat
        /\ Forall (toVendor provider apiKey) new).
Proof.
  assert (N0 : forall s0 : State, calls s0 = calls s ->
               exists new, calls s0 = calls s ++ new
                           /\ (List.length new <= 2)%nat
                           /\ Forall (toVendor provider apiKey) new).
  { intros s0 E. exists []. rewrite app_nil_r. split; [exact E|].
    split; [cbn; lia|constructor]. }
  pose proof (analysisCall_toVendor provider apiKey) as TA.
  pose proof (validationCall_toVendor provider apiKey) as TV.
  split.
  - rewrite generatePrompt_run. cbv zeta.
    destruct (get providers provider) as [aiProvider|] eqn:Hget;
      [|apply N0; reflexivity].
    destruct (negb (truthy apiKey) || _); [apply N0; reflexivity|].
    destruct (negb (truthy (imageBase64 request))); [apply N0; reflexivity|].
    pose proof (adapter_analysed w (tick s) provider aiProvider apiKey request Hget) as A.
    unfold analysed in A. cbn [tick calls ticks] in A.
    destruct (vendorText w (List.length (calls s)) provider apiKey) as [text|];
      [destruct (truthy text)|].
    + destruct A as (result & new & -> & _ & _ & [Hnew _]).
      exists (analysisCall provider apiKey :: new). split; [reflexivity|].
      destruct Hnew as [->| ->]; (split; [cbn; lia|]).
      * constructor; [exact TA|constructor].
      * constructor; [exact TA|]. constructor; [exact TA|constructor].
    + destruct A as (m & ->). exists [analysisCall provider apiKey].
      split; [reflexivity|]. split; [cbn; lia|]. constructor; [exact TA|constructor].
    + destruct A as (m & ->). exists [analysisCall provider apiKey].
      split; [reflexivity|]. split; [cbn; lia|]. constructor; [exact TA|constructor].
  - rewrite validateApiKey_run.
    assert (N1 : exists new, calls s = calls s ++ new
                             /\ (List.length new <= 1)%nat
                             /\ Forall (toVendor provider apiKey) new).
    { exists []. rewrite app_nil_r. split; [reflexivity|].
      split; [cbn; lia|constructor]. }
    destruct (get providers provider) as [aiProvider|] eqn:Hget; [|exact N1].
    destruct (Validation.validateApiKey provider apiKey) as [[|]|e];
      [|exact N1|exact N1].
    pose proof (validate_state w s provider aiProvider apiKey Hget) as V.
    destruct (AIProvider.validateApiKey aiProvider apiKey w s) as [[check|e] s1];
      cbn [snd] in V |- *; rewrite V;
      (exists [validationCall provider apiKey]; split; [reflexivity|];
       split; [cbn; lia|]; constructor; [exact TV|constructor]).
Qed.

Lemma validateApiKey_outcome w s provider apiKey :
  exists result s',
    validateApiKey provider apiKey w s = (Normal result, s')
    /\ kv_isValid result
       = match Validation.validateApiKey provider apiKey with
         | Normal true => vendorAccepts w (List.length (calls s)) provider apiKey
         | _ => false
         end
    /\ (kv_isValid result = true ->
        kv_success result = true /\ kv_error result = None)
    /\ kv_provider result = provider.
Proof.
  rewrite validateApiKey_run.
  destruct (Validation.validateApiKey provider apiKey) as [[|]|e] eqn:F.
  - destruct (format_provider provider apiKey F) as [-> | [-> | ->]].
    + change (get providers (js "openai")) with (Some OpenAIProvider.provider).
      cbv beta iota.
      change (vendorAccepts w (List.length (calls s)) (js "openai") apiKey)
        with (resolved (openaiChat w (List.length (calls s))
                          (OpenAIProvider.chatCall apiKey))).
      cbn [AIProvider.validateApiKey OpenAIProvider.provider].
      unfold OpenAIProvider.validateApiKey, OpenAIProvider.post, try_catch, bind, request.
      destruct (openaiChat w _ _) as [d|m [[st [[[e|]]|]]|]]; cbn;
        repeat match goal with |- context [if ?c then _ else _] => destruct c end;
        eexists; eexists; (split; [reflexivity|]); cbn;
        (split; [reflexivity|]); (split; [|reflexivity]);
        first [discriminate | auto].
    + change (get providers (js "gemini")) with (Some GeminiProvider.provider).
      cbv beta iota.
      change (vendorAccepts w (List.length (calls s)) (js "gemini") apiKey)
        with (resolved (geminiGenerate w (List.length (calls s))
                          (GeminiProvider.generateCall (js "gemini-pro") apiKey))).
      cbn [AIProvider.validateApiKey GeminiProvider.provider].
      unfold GeminiProvider.validateApiKey, GeminiProvider.post, try_catch, bind, request.
      destruct (geminiGenerate w _ _) as [d|m [[st [[[e|]]|]]|]]; cbn;
        repeat match goal with |- context [if ?c then _ else _] => destruct c end;
        eexists; eexists; (split; [reflexivity|]); cbn;
        (split; [reflexivity|]); (split; [|reflexivity]);
        first [discriminate | auto].
    + change (get providers (js "claude")) with (Some ClaudeProvider.provider).
      cbv beta iota.
      change (vendorAccepts w (List.length (calls s)) (js "claude") apiKey)
        with (resolved (claudeMessages w (List.length (calls s))
                          (ClaudeProvider.messagesCall apiKey))).
      cbn [AIProvider.validateApiKey ClaudeProvider.provider].
      unfold ClaudeProvider.validateApiKey, ClaudeProvider.post, try_catch, bind, request.
      destruct (claudeMessages w _ _) as [d|m [[st [[[e|]]|]]|]]; cbn;
        repeat match goal with |- context [if ?c then _ else _] => destruct c end;
        eexists; eexists; (split; [reflexivity|]); cbn;
        (split; [reflexivity|]); (split; [|reflexivity]);
        first [discriminate | auto].
  - destruct (get providers provider);
      eexists; eexists; (split; [reflexivity|]); cbn;
      (split; [reflexivity|]); (split; [discriminate|reflexivity]).
  - destruct (get providers provider);
      eexists; eexists; (split; [reflexivity|]); cbn;
      (split; [reflexivity|]); (split; [discriminate|reflexivity]).
Qed.

(** X21. [validateApiKey] never throws, and it answers [isValid: true]
    exactly when the key passes the format check and the vendor
    resolves the validation request; the answer then reports success
    and no error. *)
Theorem validateApiKey_valid_iff_vendor_resolves
        (w : World) (s : State) (provider apiKey : jsstring) :
  (exists result s', validateApiKey provider apiKey w s = (Normal result, s'))
  /\ ((exists result s',
          validateApiKey provider apiKey w s = (Normal result, s')
          /\ kv_isValid result = true)
      <-> Validation.validateApiKey provider apiKey = Normal true
          /\ vendorAccepts w (List.length (calls s)) provider apiKey = true)
  /\ (forall result s',
        validateApiKey provider apiKey w s = (Normal result, s') ->
        kv_isValid result = true ->
        kv_success result = true /\ kv_error result = None
        /\ kv_provider result = provider).
Proof.
  destruct (validateApiKey_outcome w s provider apiKey)
    as (result & s' & E & Hv & Hs & Hp).
  split; [now exists result, s'|]. split; [split|].
  - intros (result' & s'' & E' & V). rewrite E in E'. injection E' as <- <-.
    rewrite Hv in V.
    destruct (Validation.validateApiKey provider apiKey) as [[|]|e];
      try discriminate. auto.
  - intros [F A]. exists result, s'. split; [exact E|].
    rewrite Hv, F. exact A.
  - intros result' s'' E' V. rewrite E in E'. injection E' as <- <-.
    destruct (Hs V) as [H1 H2]. auto.
Qed.

Lemma rejection w s apiKey (request : AIAnalysisRequest) provider message :
  trim apiKey <> [] -> imageBase64 request <> [] ->
  (exists aiProvider,
      get providers provider = Some aiProvider
      /\ exists s1, analyzeAndGeneratePrompt aiProvider apiKey request w (tick s)
                    = (Throw (Error message), s1)) ->
  exists response s',
    generatePrompt provider apiKey request w s = (Normal response, s')
    /\ success response = false
    /\ error response = Some message.
Proof.
  intros Hkey Himg (aiProvider & Hget & s1 & Hrun).
  rewrite generatePrompt_run. cbv zeta. rewrite Hget, key_present.
  apply truthy_true in Hkey. apply truthy_true in Himg.
  rewrite Hkey, Himg. cbn [negb]. rewrite Hrun.
  eexists; eexists. split; [reflexivity|]. split; reflexivity.
Qed.

(** X22. How a vendor's rate-limit answer reaches the caller of
    [generatePrompt]: Gemini's code 429 and Claude's [rate_limit_error]
    become the adapter's own rate-limit message; the OpenAI adapter has
    no such case and passes the vendor's message on. *)
Theorem generatePrompt_rate_limit_errors
        (w : World) (s : State) (apiKey : jsstring) (request : AIAnalysisRequest)
        (e : VendorError) (status : Z) :
  trim apiKey <> [] -> imageBase64 request <> [] ->
  (vendorRejects (geminiGenerate w (List.length (calls s))
                    (analysisCall (js "gemini") apiKey)) e status ->
   err_code e = VNum 429 ->
   exists response s',
     generatePrompt (js "gemini") apiKey request w s = (Normal response, s')
     /\ success response = false
     /\ error response = Some (js "Gemini API rate limit exceeded"))
  /\ (vendorRejects (claudeMessages w (List.length (calls s))
                       (analysisCall (js "claude") apiKey)) e status ->
      err_type e = Some (js "rate_limit_error") ->
      exists response s',
        generatePrompt (js "claude") apiKey request w s = (Normal response, s')
        /\ success response = false
        /\ error response = Some (js "Claude API rate limit exceeded"))
  /\ (vendorRejects (openaiChat w (List.length (calls s))
                       (analysisCall (js "openai") apiKey)) e status ->
      err_code e = VStr (js "rate_limit_exceeded") ->
      exists response s',
        generatePrompt (js "openai") apiKey request w s = (Normal response, s')
        /\ success response = false
        /\ error response
           = Some (js "OpenAI API error: " ++ template (err_message e))).
Proof.
  intros Hkey Himg. split; [|split].
  - intros [m Hrej] Hcode. apply (rejection w s apiKey request _ _ Hkey Himg).
    exists GeminiProvider.provider. split; [reflexivity|].
    cbn [analyzeAndGeneratePrompt GeminiProvider.provider].
    unfold GeminiProvider.analyzeAndGeneratePrompt, GeminiProvider.post, try_catch,
      bind, Effects.request.
    change (analysisCall (js "gemini") apiKey)
      with (GeminiProvider.generateCall (js "gemini-pro-vision") apiKey) in Hrej.
    cbn [tick calls]. rewrite Hrej.
    unfold GeminiProvider.rethrow. cbn [exn_response resp_data body_error].
    rewrite Hcode. cbn [code_num Z.eqb]. eexists. reflexivity.
  - intros [m Hrej] Htype. apply (rejection w s apiKey request _ _ Hkey Himg).
    exists ClaudeProvider.provider. split; [reflexivity|].
    cbn [analyzeAndGeneratePrompt ClaudeProvider.provider].
    unfold ClaudeProvider.analyzeAndGeneratePrompt, ClaudeProvider.post, try_catch,
      bind, Effects.request.
    change (analysisCall (js "claude") apiKey)
      with (ClaudeProvider.messagesCall apiKey) in Hrej.
    cbn [tick calls]. rewrite Hrej.
    unfold ClaudeProvider.rethrow. cbn [exn_response resp_data body_error].
    cbv zeta. rewrite Htype. eexists. reflexivity.
  - intros [m Hrej] Hcode. apply (rejection w s apiKey request _ _ Hkey Himg).
    exists OpenAIProvider.provider. split; [reflexivity|].
    cbn [analyzeAndGeneratePrompt OpenAIProvider.provider].
    unfold OpenAIProvider.analyzeAndGeneratePrompt, OpenAIProvider.post, try_catch,
      bind, Effects.request.
    change (analysisCall (js "openai") apiKey)
      with (OpenAIProvider.chatCall apiKey) in Hrej.
    cbn [tick calls]. rewrite Hrej.
    unfold OpenAIProvider.rethrow. cbn [exn_response resp_data body_error].
    rewrite Hcode. eexists. reflexivity.
Qed.

Lemma generatePrompt_rate_limit_errors_witness :
  (exists response s',
      generatePrompt (js "gemini") (js "AIzaSyD-1234567890abc") sampleRequest
        throttlingWorld initial = (Normal response, s')
      /\ success response = false
      /\ error response = Some (js "Gemini API rate limit exceeded"))
  /\ (exists response s',
        generatePrompt (js "openai") (js "AIzaSyD-1234567890abc") sampleRequest
          throttlingWorld initial = (Normal response, s')
        /\ success response = false
        /\ error response = Some (js "OpenAI API error: Too many requests")).
Proof.
  split.
  - apply (proj1 (generatePrompt_rate_limit_errors
                    throttlingWorld initial (js "AIzaSyD-1234567890abc") sampleRequest
                    {| err_code := VNum 429;
                       err_type := Some (js "RESOURCE_EXHAUSTED");
                       err_message := Some (js "Too many requests") |} 429
                    ltac:(discriminate) ltac:(discriminate))).
    + eexists. reflexivity.
    + reflexivity.
  - apply (proj2 (proj2 (generatePrompt_rate_limit_errors
                    throttlingWorld initial (js "AIzaSyD-1234567890abc") sampleRequest
                    {| err_code := VStr (js "rate_limit_exceeded");
                       err_type := Some (js "requests");
                       err_message := Some (js "Too many requests") |} 429
                    ltac:(discriminate) ltac:(discriminate)))).
    + eexists. reflexivity.
    + reflexivity.
Defined.

(** X23. The variations of a successful answer, per provider: the
    OpenAI adapter keeps at most two pieces of the vendor's second
    answer, each trimmed and longer than ten code units; the fast
    adapter returns at most one; Gemini and Claude never return any. *)
Theorem generatePrompt_variations
        (w : World) (s : State) (provider apiKey : jsstring)
        (request : AIAnalysisRequest) (response : AIAnalysisResponse) (s' : State) :
  generatePrompt provider apiKey request w s = (Normal response, s') ->
  success response = true ->
  exists v,
    variations response = Some v
    /\ (provider = js "openai" ->
        (List.length v <= 2)%nat /\ Forall keptVariation v)
    /\ (provider = js "openai-fast" -> (List.length v <= 1)%nat)
    /\ (provider = js "gemini" \/ provider = js "claude" -> v = []).
Proof.
  rewrite generatePrompt_run. cbv zeta.
  destruct (get providers provider) as [aiProvider|] eqn:Hget;
    [|intros [= <- _]; discriminate].
  destruct (negb (truthy apiKey) || _); [intros [= <- _]; discriminate|].
  destruct (negb (truthy (imageBase64 request))); [intros [= <- _]; discriminate|].
  apply get_providers in Hget as [[-> ->]|[[-> ->]|[[-> ->]|[-> ->]]]];
    cbn [analyzeAndGeneratePrompt OpenAIProvider.provider OpenAIFastProvider.provider
           GeminiProvider.provider ClaudeProvider.provider].
  - pose proof (openai_analysed w (tick s) apiKey request) as A. unfold analysed in A.
    destruct (openaiText _) as [text|]; [destruct (truthy text)|];
      try (destruct A as (m & ->); intros [= <- _]; discriminate).
    destruct A as (result & new & -> & _ & [Hlen _] & _ & v & Hv & HF).
    intros [= <- _] _. exists v. cbn [variations]. rewrite Hv in Hlen |- *.
    split; [reflexivity|]. split; [auto|]. split; [discriminate|].
    intros [H|H]; discriminate.
  - pose proof (openai_fast_analysed w (tick s) apiKey request) as A. unfold analysed in A.
    destruct (openaiText _) as [text|]; [destruct (truthy text)|];
      try (destruct A as (m & ->); intros [= <- _]; discriminate).
    destruct A as (result & new & -> & _ & _ & _ & v & Hv & Hlen).
    intros [= <- _] _. exists v. cbn [variations]. rewrite Hv.
    split; [reflexivity|]. split; [discriminate|]. split; [auto|].
    intros [H|H]; discriminate.
  - pose proof (gemini_analysed w (tick s) apiKey request) as A. unfold analysed in A.
    destruct (geminiText _) as [text|]; [destruct (truthy text)|];
      try (destruct A as (m & ->); intros [= <- _]; discriminate).
    destruct A as (result & new & -> & _ & _ & _ & Hv).
    intros [= <- _] _. exists []. cbn [variations]. rewrite Hv.
    split; [reflexivity|]. split; [discriminate|]. split; [discriminate|]. reflexivity.
  - pose proof (claude_analysed w (tick s) apiKey request) as A. unfold analysed in A.
    destruct (claudeText _) as [text|]; [destruct (truthy text)|];
      try (destruct A as (m & ->); intros [= <- _]; discriminate).
    destruct A as (result & new & -> & _ & _ & _ & Hv).
    intros [= <- _] _. exists []. cbn [variations]. rewrite Hv.
    split; [reflexivity|]. split; [discriminate|]. split; [discriminate|]. reflexivity.
Qed.

Lemma generatePrompt_variations_witness :
  exists response s' v,
    generatePrompt (js "openai") (js "sk-abcdefghij1234") sampleRequest
      answeringWorld initial = (Normal response, s')
    /\ variations response = Some v
    /\ v = [js "A red fox at dusk"; js "A fox in deep snow"]
    /\ Forall keptVariation v.
Proof.
  destruct (generatePrompt (js "openai") (js "sk-abcdefghij1234") sampleRequest
              answeringWorld initial) as [[response|e] s'] eqn:Hrun;
    [|vm_compute in Hrun; discriminate].
  assert (Hs : success response = true)
    by (vm_compute in Hrun; injection Hrun as <- _; reflexivity).
  destruct (generatePrompt_variations answeringWorld initial (js "openai")
              (js "sk-abcdefghij1234") sampleRequest response s' Hrun Hs)
    as (v & Hv & Hopenai & _).
  exists response, s', v. split; [reflexivity|]. split; [exact Hv|].
  split; [|exact (proj2 (Hopenai eq_refl))].
  vm_compute in Hrun. injection Hrun as <- _. cbn in Hv. now injection Hv as <-.
Defined.

End ManagerMore.

(** ** The POST handlers *)

Section RoutesTheorems.
Import Effects AIProvider ManagerSpec VendorSpec MoreFixtures Fixtures Routes.

(** X24. [POST /analyze-url] never reaches its catch clause and answers
    by the outcome of the scrape it runs: 200 exactly when the scrape
    reports success, with the scraped metadata (title or image URL
    present) as data, and 400 exactly when the scrape reports failure,
    with the error of the scrape, a non-empty text, and no data. *)
Theorem analyzeUrl_status (w : World) (s : State) (url : jsstring) :
  exists result sent s',
    WebScrapingEngine.scrapeStockURL url w s = (Normal result, s')
    /\ analyzeUrl url w s = (Normal sent, s')
    /\ (status sent = 200%Z <-> Types.success result = true)
    /\ (status sent = 400%Z <-> Types.success result = false)
    /\ (Types.success result = true ->
        success (json sent) = true
        /\ error (json sent) = None
        /\ data (json sent) = Types.data result
        /\ exists metadata,
             data (json sent) = Some metadata
             /\ (Types.title metadata <> [] \/ Types.imageUrl metadata <> []))
    /\ (Types.success result = false ->
        success (json sent) = false
        /\ data (json sent) = None
        /\ message (json sent) = None
        /\ exists m,
             Types.error result = Some m
             /\ error (json sent) = Some (or_default (Some m) (js "Failed to analyze URL"))
             /\ or_default (Some m) (js "Failed to analyze URL") <> []).
Proof.
  unfold analyzeUrl, try_catch, bind, ret.
  destruct (scrapeStockURL_outcome w s url) as (result & s' & -> & _ & H).
  exists result.
  destruct H as [(Hs & _ & metadata & Hd & Hm)|(Hs & _ & m & He)];
    rewrite Hs; cbn [negb]; eexists; eexists;
    (split; [reflexivity|]); (split; [reflexivity|]); cbn.
  - split; [split; reflexivity|]. split; [split; discriminate|].
    split; [|discriminate]. intros _. repeat split.
    exists metadata. split; assumption.
  - split; [split; discriminate|]. split; [split; reflexivity|].
    split; [discriminate|]. intros _. repeat split.
    exists m. rewrite He. repeat split.
    destruct m; discriminate.
Qed.

(** X26. [POST /validate-api-key] never reaches its catch clause. It
    answers 200 exactly when the key passes the format check and the
    vendor resolves the validation request; it answers 500 exactly when
    its body reports [success: false], which is the case for every
    provider outside the registry; a key of a registered provider that
    fails the format check gets 400. *)
Theorem validateApiKey_status (w : World) (s : State) (provider apiKey : jsstring) :
  exists sent s',
    validateApiKey provider apiKey w s = (Normal sent, s')
    /\ (status sent = 200%Z
        <-> Validation.validateApiKey provider apiKey = Normal true
            /\ vendorAccepts w (List.length (calls s)) provider apiKey = true)
    /\ (status sent = 200%Z \/ status sent = 400%Z \/ status sent = 500%Z)
    /\ (status sent = 500%Z <-> success (json sent) = false)
    /\ (get AIProviderManager.providers provider = None -> status sent = 500%Z)
    /\ (get AIProviderManager.providers provider <> None ->
        Validation.validateApiKey provider apiKey = Normal false ->
        status sent = 400%Z).
Proof.
  unfold validateApiKey, try_catch, bind, ret.
  destruct (validateApiKey_outcome w s provider apiKey)
    as (result & s' & E & Hv & Hs & _).
  rewrite E. eexists; eexists. split; [reflexivity|]. cbn [status json success].
  pose proof E as R. rewrite validateApiKey_run in R.
  split; [|split; [|split; [|split]]].
  - destruct (Validation.validateApiKey provider apiKey) as [[|]|e] eqn:F.
    + rewrite <- Hv. destruct (AIProviderManager.kv_isValid result) eqn:V.
      * destruct (Hs eq_refl) as [-> _]. split; auto.
      * destruct (AIProviderManager.kv_success result);
          split; try discriminate; intros [_ H]; discriminate.
    + rewrite Hv. destruct (AIProviderManager.kv_success result);
        split; try discriminate; intros [H _]; discriminate.
    + rewrite Hv. destruct (AIProviderManager.kv_success result);
        split; try discriminate; intros [H _]; discriminate.
  - destruct (AIProviderManager.kv_success result);
      [destruct (AIProviderManager.kv_isValid result)|]; auto.
  - destruct (AIProviderManager.kv_success result);
      [destruct (AIProviderManager.kv_isValid result)|]; split; congruence.
  - intros Hget. rewrite Hget in R. injection R as <- _. reflexivity.
  - intros Hget F. destruct (get AIProviderManager.providers provider); [|congruence].
    rewrite F in R. injection R as <- _. reflexivity.
Qed.

(** X27. [POST /analyze-and-generate] asks the AI vendor only for an
    analysed page that carries an image. When no timer fires, a failed
    scrape is answered 400 with the scrape's error, and a successful
    scrape without [imageBase64] (the image could not be downloaded) is
    answered 400 as well, [Image data is required for AI analysis] for a
    registered provider and a key that is not blank; in both cases
    nothing is sent to a vendor. When the analysis timer fires first,
    the answer is 500 with the time-out message. *)
Theorem analyzeAndGenerate_needs_analysis_and_image
        (w : World) (s : State) (timers : Timers) (body : AnalyzeAndGenerateBody) :
  (forall result s1,
      WebScrapingEngine.scrapeStockURL (ag_url body) w s = (Normal result, s1) ->
      analysisTimer timers = false ->
      Types.success result = false ->
      analyzeAndGenerate timers body w s
      = (Normal (refused 400 (or_default (Types.error result)
                                         (js "Failed to analyze URL"))),
         s1))
  /\ (forall result s1 metadata,
        WebScrapingEngine.scrapeStockURL (ag_url body) w s = (Normal result, s1) ->
        analysisTimer timers = false -> generationTimer timers = false ->
        Types.success result = true ->
        Types.data result = Some metadata ->
        Types.imageBase64 metadata = None ->
        exists m s',
          analyzeAndGenerate timers body w s = (Normal (refused 400 m), s')
          /\ calls s' = calls s1
          /\ (get AIProviderManager.providers (ag_provider body) <> None ->
              trim (ag_apiKey body) <> [] ->
              m = js "Image data is required for AI analysis"))
  /\ (analysisTimer timers = true ->
      exists s',
        analyzeAndGenerate timers body w s
        = (Normal (refused 500 (js "URL analysis timed out after 45 seconds")), s')).
Proof.
  split; [|split].
  - intros result s1 E T Hs.
    unfold analyzeAndGenerate, try_catch, bind, ret, race. rewrite E, T, Hs.
    destruct (Types.data result); reflexivity.
  - intros result s1 metadata E T1 T2 Hs Hd Hi.
    unfold analyzeAndGenerate, try_catch, bind, ret, race. rewrite E, T1, Hs, Hd.
    cbn [negb]. rewrite generatePrompt_run. cbv zeta.
    unfold combinedRequest at 1 2. rewrite Hi. cbn [imageBase64 truthy negb].
    rewrite T2.
    destruct (get AIProviderManager.providers (ag_provider body)) as [aiProvider|].
    + rewrite key_present.
      destruct (truthy (trim (ag_apiKey body))) eqn:K; cbn [negb].
      * eexists; eexists. split; [reflexivity|]. split; reflexivity.
      * eexists; eexists. split; [reflexivity|]. split; [reflexivity|].
        intros _ H. apply truthy_true in H. congruence.
    + eexists; eexists. split; [reflexivity|]. split; [reflexivity|].
      intros H. congruence.
  - intros T. unfold analyzeAndGenerate, try_catch, bind, ret, race. rewrite T.
    destruct (WebScrapingEngine.scrapeStockURL (ag_url body) w s) as [outcome s1].
    eexists. reflexivity.
Qed.

Lemma analyzeAndGenerate_needs_analysis_and_image_witness :
  exists s',
    analyzeAndGenerate {| analysisTimer := false; generationTimer := false |}
      {| ag_url := js "https://www.freepik.com/photo/fox-123456";
         ag_provider := js "openai";
         ag_apiKey := js "sk-abcdefghij1234";
         ag_promptStyle := None;
         ag_targetPlatform := None |}
      imagelessWorld initial
    = (Normal (refused 400 (js "Image data is required for AI analysis")), s')
    /\ calls s'
       = [ BaseScraper.pageCall (js "https://www.freepik.com/photo/fox-123456");
           WebScrapingEngine.imageCall (js "https://img.freepik.com/fox.jpg") ].
Proof.
  destruct (proj1 (proj2 (analyzeAndGenerate_needs_analysis_and_image
              imagelessWorld initial
              {| analysisTimer := false; generationTimer := false |}
              {| ag_url := js "https://www.freepik.com/photo/fox-123456";
                 ag_provider := js "openai";
                 ag_apiKey := js "sk-abcdefghij1234";
                 ag_promptStyle := None;
                 ag_targetPlatform := None |}))
             {| Types.success := true;
                Types.data := Some foxMetadata;
                Types.error := None;
                Types.processingTime := 6 |}
             (tick (sent (WebScrapingEngine.imageCall (js "https://img.freepik.com/fox.jpg"))
                         (tick (sent (BaseScraper.pageCall
                                        (js "https://www.freepik.com/photo/fox-123456"))
                                     (tick initial)))))
             foxMetadata
             eq_refl eq_refl eq_refl eq_refl eq_refl eq_refl)
    as (m & s' & E & Hc & Hm).
  exists s'. rewrite <- (Hm ltac:(discriminate) ltac:(discriminate)).
  split; [exact E|exact Hc].
Defined.

End RoutesTheorems.

(** ** The Iconscout scraper *)

Section BrandFacts.
Import TextSpec RegexExec BrandSpec.

Lemma run_ends_eol ci r :
  ends_eol r = true ->
  forall b (t : jsstring) k, In k (run ci r b t) -> k = List.length t.
Proof.
  induction r as [|p|cs min|cs min|r1 IH1 r2 IH2|r1 IH1 r2 IH2| |]; cbn [ends_eol];
    try discriminate.
  - intros H b t k. cbn [run]. rewrite in_flat_map. intros (k1 & H1 & H2).
    apply in_map_iff in H2. destruct H2 as (k2 & <- & H2).
    apply run_le in H1. apply (IH2 H) in H2. rewrite length_skipn in H2. lia.
  - intros _ b t k. cbn [run]. destruct t; [|intros []]. intros [<-|[]]. reflexivity.
Qed.

Lemma replace_first_unfold ci r repl b s :
  replace_first ci r repl b s =
  match run ci r b s with
  | k :: _ => repl ++ skipn k s
  | [] => match s with
          | [] => []
          | c :: s' => c :: replace_first ci r repl false s'
          end
  end.
Proof. destruct s; reflexivity. Qed.

(** Removing a match that reaches the end leaves a prefix. *)
Lemma replace_first_prefix ci r :
  ends_eol r = true ->
  forall (s : jsstring) b, exists rest, s = replace_first ci r [] b s ++ rest.
Proof.
  intros Hr. induction s as [|c s IH]; intros b.
  - rewrite replace_first_unfold. destruct (run ci r b []) as [|k l] eqn:E.
    + now exists [].
    + cbn [app]. rewrite skipn_nil. now exists [].
  - rewrite replace_first_unfold. destruct (run ci r b (c :: s)) as [|k l] eqn:E.
    + destruct (IH false) as [rest Hrest]. exists rest. cbn [app]. now f_equal.
    + assert (k = List.length (c :: s)) as ->.
      { apply (run_ends_eol ci r Hr b). rewrite E. now left. }
      rewrite skipn_all. now exists (c :: s).
Qed.

(** A pattern [\s*x...] matches only where [x] lies ahead. *)
Lemma run_needs_unit ci x r b (t : jsstring) :
  run ci (Seq (Rep CSpace 0) (Seq (Chr x) r)) b t <> [] ->
  exists c, In c t /\ chr_match ci x c = true.
Proof.
  intros H.
  destruct (run ci (Seq (Rep CSpace 0) (Seq (Chr x) r)) b t) as [|k l] eqn:E;
    [congruence|].
  assert (Hin : In k (k :: l)) by now left.
  rewrite <- E in Hin. cbn [run] in Hin.
  apply in_flat_map in Hin. destruct Hin as (k1 & _ & Hin).
  apply in_map_iff in Hin. destruct Hin as (k2 & _ & Hin).
  apply in_flat_map in Hin. destruct Hin as (k3 & Hin & _).
  destruct (skipn k1 t) as [|c u] eqn:Es; [destruct Hin|].
  destruct (chr_match ci x c) eqn:Ec; [|destruct Hin].
  exists c. split; [|exact Ec].
  rewrite <- (firstn_skipn k1 t), Es. apply in_or_app. right. now left.
Qed.

Lemma replace_first_idle ci x r repl :
  forall (s : jsstring) b,
    (forall c, In c s -> chr_match ci x c = false) ->
    replace_first ci (Seq (Rep CSpace 0) (Seq (Chr x) r)) repl b s = s.
Proof.
  induction s as [|c s IH]; intros b Hs.
  - rewrite replace_first_unfold.
    destruct (run ci (Seq (Rep CSpace 0) (Seq (Chr x) r)) b []) eqn:E; [reflexivity|].
    destruct (run_needs_unit ci x r b []) as (c & [] & _). congruence.
  - rewrite replace_first_unfold.
    destruct (run ci (Seq (Rep CSpace 0) (Seq (Chr x) r)) b (c :: s)) eqn:E.
    + f_equal. apply IH. intros c' Hc'. apply Hs. now right.
    + destruct (run_needs_unit ci x r b (c :: s)) as (c' & Hin & Hc'); [congruence|].
      rewrite (Hs c' Hin) in Hc'. discriminate.
Qed.

Lemma chr_match_sign x c :
  between 97 122 x = false -> between 65 90 x = false ->
  chr_match true x c = true -> c = x.
Proof.
  unfold chr_match, canonicalize. intros Hx1 Hx2. rewrite Hx1.
  destruct (between 97 122 c) eqn:Ec; rewrite N.eqb_eq; intros H; [|congruence].
  exfalso. unfold between in *.
  apply andb_true_iff in Ec. destruct Ec as [E1 E2].
  apply N.leb_le in E1. apply N.leb_le in E2.
  apply andb_false_iff in Hx2.
  destruct Hx2 as [Hx2|Hx2]; apply N.leb_gt in Hx2; lia.
Qed.

Lemma span_len_lt p (t tail : jsstring) :
  t <> [] -> last_ok (fun c => negb (p c)) t ->
  (span_len p (t ++ tail) < List.length t)%nat.
Proof.
  induction t as [|c t IH]; [congruence|]. intros _ Hl. cbn [app span_len List.length].
  destruct (p c) eqn:Ec; [|lia].
  destruct t as [|d t].
  - apply last_ok_single in Hl. rewrite Ec in Hl. discriminate.
  - apply last_ok_cons in Hl; [|discriminate].
    specialize (IH ltac:(discriminate) Hl). lia.
Qed.

(** Inside a text that holds no [x] and does not end with whitespace,
    [\s*x...] finds no match, whatever follows the text. *)
Lemma run_inside ci x r b (t tail : jsstring) :
  t <> [] -> last_ok nonspace t ->
  (forall c, In c t -> chr_match ci x c = false) ->
  run ci (Seq (Rep CSpace 0) (Seq (Chr x) r)) b (t ++ tail) = [].
Proof.
  intros Hne Hl Hx.
  destruct (run ci (Seq (Rep CSpace 0) (Seq (Chr x) r)) b (t ++ tail)) as [|k l] eqn:E;
    [reflexivity|].
  exfalso.
  assert (Hin : In k (k :: l)) by now left.
  rewrite <- E in Hin. cbn [run] in Hin.
  apply in_flat_map in Hin. destruct Hin as (k1 & Hk1 & Hin).
  apply downto_In in Hk1.
  change (span_len (in_charset CSpace) (t ++ tail))
    with (span_len is_space (t ++ tail)) in Hk1.
  pose proof (span_len_lt is_space t tail Hne Hl) as Hlt.
  apply in_map_iff in Hin. destruct Hin as (k2 & _ & Hin).
  apply in_flat_map in Hin. destruct Hin as (k3 & Hin & _).
  rewrite skipn_app in Hin.
  destruct (skipn k1 t) as [|c u] eqn:Es.
  - apply (f_equal (@List.length code_unit)) in Es. rewrite length_skipn in Es.
    cbn in Es. lia.
  - cbn [app] in Hin.
    assert (In c t) as Hc.
    { rewrite <- (firstn_skipn k1 t), Es. apply in_or_app. right. now left. }
    rewrite (Hx c Hc) in Hin. destruct Hin.
Qed.

Lemma replace_first_tail ci x r :
  ends_eol r = true ->
  forall (t tail : jsstring) b,
    last_ok nonspace t ->
    (forall c, In c t -> chr_match ci x c = false) ->
    (forall b', run ci (Seq (Rep CSpace 0) (Seq (Chr x) r)) b' tail <> []) ->
    replace_first ci (Seq (Rep CSpace 0) (Seq (Chr x) r)) [] b (t ++ tail) = t.
Proof.
  intros Hr. induction t as [|c t IH]; intros tail b Hl Hx Htail.
  - cbn [app]. rewrite replace_first_unfold.
    destruct (run ci (Seq (Rep CSpace 0) (Seq (Chr x) r)) b tail) as [|k l] eqn:E.
    + now apply Htail in E.
    + assert (k = List.length tail) as ->.
      { apply (run_ends_eol ci (Seq (Rep CSpace 0) (Seq (Chr x) r)) Hr b).
        rewrite E. now left. }
      now rewrite skipn_all.
  - rewrite replace_first_unfold.
    rewrite (run_inside ci x r b (c :: t) tail ltac:(discriminate) Hl Hx).
    cbn [app]. f_equal. destruct t as [|d t].
    + cbn [app]. rewrite replace_first_unfold.
      destruct (run ci (Seq (Rep CSpace 0) (Seq (Chr x) r)) false tail) as [|k l] eqn:E.
      * now apply Htail in E.
      * assert (k = List.length tail) as ->.
        { apply (run_ends_eol ci (Seq (Rep CSpace 0) (Seq (Chr x) r)) Hr false).
          rewrite E. now left. }
        now rewrite skipn_all.
    + apply IH; [|intros c' Hc'; apply Hx; now right|exact Htail].
      now apply last_ok_cons in Hl.
Qed.

Lemma trimEnd_prefix (s : jsstring) : exists rest, s = trimEnd s ++ rest.
Proof.
  unfold trimEnd. destruct (dropWhile_suffix is_space (rev s)) as [pre E].
  exists (rev pre). rewrite <- rev_app_distr, <- E. now rewrite rev_involutive.
Qed.

Lemma head_ok_prefix p (s t rest : jsstring) :
  head_ok p s -> s = t ++ rest -> head_ok p t.
Proof. intros H ->. destruct t; [exact I|exact H]. Qed.

End BrandFacts.

Section IconscoutTheorems.
Import Types Dom Effects TextSpec RegexExec BrandSpec BaseScraper IconscoutExtract.
Import BrandFixtures Fixtures.

Lemma unbrand_shape t :
  head_ok is_word t ->
  (exists rest, t = unbrand t ++ rest)
  /\ head_ok nonspace (unbrand t) /\ last_ok nonspace (unbrand t)
  /\ ((forall c, In c t -> c <> 124%N /\ c <> 45%N) ->
      last_ok nonspace t -> unbrand t = t).
Proof.
  intros Hh. unfold unbrand.
  split; [|split; [apply trim_head|split; [apply trim_last|]]].
  - destruct (replace_first_prefix true re_pipe_brand eq_refl t true) as [r1 E1].
    set (t1 := replace_first true re_pipe_brand [] true t) in *.
    destruct (replace_first_prefix true re_dash_brand eq_refl t1 true) as [r2 E2].
    set (t2 := replace_first true re_dash_brand [] true t1) in *.
    assert (head_ok nonspace t2) as H2.
    { apply head_word_nonspace.
      apply (head_ok_prefix is_word t1 t2 r2); [|exact E2].
      apply (head_ok_prefix is_word t t1 r1); [exact Hh|exact E1]. }
    unfold trim, trimStart. rewrite (dropWhile_id is_space t2 H2).
    destruct (trimEnd_prefix t2) as [r3 E3].
    exists (r3 ++ r2 ++ r1). rewrite E1 at 1. rewrite E2 at 1. rewrite E3 at 1.
    now rewrite <- !app_assoc.
  - intros Hc Hl.
    unfold re_pipe_brand. rewrite replace_first_idle.
    + unfold re_dash_brand. rewrite replace_first_idle.
      * apply trim_id; [now apply head_word_nonspace|exact Hl].
      * intros c Hin. destruct (chr_match true 45%N c) eqn:E; [|reflexivity].
        apply chr_match_sign in E; [|reflexivity|reflexivity].
        destruct (Hc c Hin). congruence.
    + intros c Hin. destruct (chr_match true 124%N c) eqn:E; [|reflexivity].
      apply chr_match_sign in E; [|reflexivity|reflexivity].
      destruct (Hc c Hin). congruence.
Qed.

Lemma set_title_same m : set_title m (title m) = m.
Proof. now destruct m. Qed.

Lemma extractMetadata_loaded w s url dom :
  pageGet w (List.length (calls s)) url = PageLoaded dom ->
  extractMetadata url w s
  = (Normal
       (let generic :=
          PlatformScraper.extractGenericMetadata StockId.extractStockId
            IconscoutScraper.platformInfo dom url (clock w (ticks s)) in
        if truthy (title generic)
        then set_title generic (unbrand (title generic))
        else generic),
     tick (sent (pageCall url) s)).
Proof.
  intros Hp. unfold extractMetadata, extractGenericMetadata, fetchHTML.
  unfold try_catch, bind, now, ret. rewrite Hp. cbv beta iota zeta.
  cbn [sent ticks calls].
  destruct (truthy (title _)); reflexivity.
Qed.

(** X28. The Iconscout scraper sends one request, for the page. When the
    request fails it throws an [Error] that names the scraper and the
    fetch failure. Otherwise it returns the generic metadata with only
    the title changed: the new title is a prefix of the generic one
    without whitespace at its ends, and the generic title itself when
    that holds neither [|] nor [-]. *)
Theorem iconscout_extractMetadata_outcome
        (w : World) (s : State) (url : jsstring) :
  match pageGet w (List.length (calls s)) url with
  | PageFailed m =>
      extractMetadata url w s
      = (Throw (Error (js "Failed to scrape Iconscout: "
                         ++ js "Failed to fetch HTML: " ++ m)),
         sent (pageCall url) s)
  | PageLoaded dom =>
      exists t,
        extractMetadata url w s
        = (Normal (set_title
                     (PlatformScraper.extractGenericMetadata StockId.extractStockId
                        IconscoutScraper.platformInfo dom url (clock w (ticks s)))
                     t),
           tick (sent (pageCall url) s))
        /\ (exists rest,
              title (PlatformScraper.extractGenericMetadata StockId.extractStockId
                       IconscoutScraper.platformInfo dom url (clock w (ticks s)))
              = t ++ rest)
        /\ head_ok nonspace t /\ last_ok nonspace t
        /\ ((forall c,
               In c (title (PlatformScraper.extractGenericMetadata
                              StockId.extractStockId IconscoutScraper.platformInfo
                              dom url (clock w (ticks s)))) ->
               c <> 124%N /\ c <> 45%N) ->
            t = title (PlatformScraper.extractGenericMetadata StockId.extractStockId
                         IconscoutScraper.platformInfo dom url (clock w (ticks s))))
  end.
Proof.
  destruct (pageGet w (List.length (calls s)) url) as [m|dom] eqn:Hp.
  - unfold extractMetadata, extractGenericMetadata, fetchHTML.
    unfold try_catch, bind, throw. rewrite Hp. reflexivity.
  - rewrite (extractMetadata_loaded w s url dom Hp). cbv zeta.
    set (generic := PlatformScraper.extractGenericMetadata StockId.extractStockId
                      IconscoutScraper.platformInfo dom url (clock w (ticks s))).
    assert (C : clean (title generic)) by apply cleanText_clean.
    destruct C as (Hh & Hl & _).
    destruct (unbrand_shape (title generic) Hh) as (Hpre & H1 & H2 & Hid).
    destruct (truthy (title generic)) eqn:Et.
    + exists (unbrand (title generic)). split; [reflexivity|].
      split; [exact Hpre|]. split; [exact H1|]. split; [exact H2|].
      intros Hc. apply Hid; [exact Hc|]. now apply last_word_nonspace.
    + exists (title generic). split; [now rewrite set_title_same|].
      split; [exists []; now rewrite app_nil_r|].
      split; [now apply head_word_nonspace|]. split; [now apply last_word_nonspace|].
      reflexivity.
Qed.

(** X29. The Iconscout scraper removes the branding at the end of the
    title: a generic title [T | Iconscout], where [T] holds neither [|]
    nor [-], becomes [T]. *)
Theorem iconscout_removes_brand
        (w : World) (s : State)
        (url : jsstring) (dom : Root) (T : jsstring) :
  pageGet w (List.length (calls s)) url = PageLoaded dom ->
  title (PlatformScraper.extractGenericMetadata StockId.extractStockId
           IconscoutScraper.platformInfo dom url (clock w (ticks s)))
  = T ++ js " | Iconscout" ->
  (forall c, In c T -> c <> 124%N /\ c <> 45%N) ->
  extractMetadata url w s
  = (Normal (set_title
               (PlatformScraper.extractGenericMetadata StockId.extractStockId
                  IconscoutScraper.platformInfo dom url (clock w (ticks s)))
               T),
     tick (sent (pageCall url) s)).
Proof.
  intros Hp Ht Hc. rewrite (extractMetadata_loaded w s url dom Hp). cbv zeta.
  set (generic := PlatformScraper.extractGenericMetadata StockId.extractStockId
                    IconscoutScraper.platformInfo dom url (clock w (ticks s))) in *.
  assert (C : clean (title generic)) by apply cleanText_clean.
  rewrite Ht in C |- *. destruct C as (Hh & _ & Hs).
  assert (HT : T <> []) by (intros ->; cbn in Hh; discriminate).
  assert (HhT : head_ok is_word T) by (destruct T; [congruence|exact Hh]).
  assert (HlT : last_ok nonspace T).
  { intros pre c E. unfold nonspace. destruct (is_space c) eqn:Ec; [|reflexivity].
    exfalso. subst T. rewrite <- app_assoc in Hs.
    pose proof (spaced_no_adjacent _ pre c 32%N (js "| Iconscout") Hs eq_refl Ec) as H.
    discriminate. }
  assert (truthy (T ++ js " | Iconscout") = true) as -> by (destruct T; [congruence|reflexivity]).
  do 2 f_equal. unfold unbrand.
  unfold re_pipe_brand.
  rewrite (replace_first_tail true 124%N
             (Seq (Rep CSpace 0)
                  (Seq (lit (js "Iconscout")) (Seq (Rep CSpace 0) Eol)))
             eq_refl T).
  - unfold re_dash_brand. rewrite replace_first_idle.
    + rewrite trim_id; [reflexivity|now apply head_word_nonspace|exact HlT].
    + intros c Hin. destruct (chr_match true 45%N c) eqn:E; [|reflexivity].
      apply chr_match_sign in E; [|reflexivity|reflexivity].
      destruct (Hc c Hin). congruence.
  - exact HlT.
  - intros c Hin. destruct (chr_match true 124%N c) eqn:E; [|reflexivity].
    apply chr_match_sign in E; [|reflexivity|reflexivity].
    destruct (Hc c Hin). congruence.
  - intros b'. destruct b'; vm_compute; discriminate.
Qed.

Lemma iconscout_removes_brand_witness :
  exists metadata s',
    extractMetadata (js "https://iconscout.com/icon/red-fox-1234567")
      brandedWorld initial = (Normal metadata, s')
    /\ title metadata = js "Red fox"
    /\ tags metadata = [js "fox"]
    /\ stockId metadata = Some (js "1234567").
Proof.
  eexists; eexists. split.
  - apply (iconscout_removes_brand brandedWorld initial
             (js "https://iconscout.com/icon/red-fox-1234567") brandedPage (js "Red fox")).
    + reflexivity.
    + vm_compute. reflexivity.
    + intros c Hin. cbn in Hin.
      repeat destruct Hin as [<-|Hin]; try destruct Hin; split; discriminate.
  - vm_compute. repeat split.
Defined.

End IconscoutTheorems.
